(** * Diamond classification: detection post-processing, symmetry scores,
      rule-based orientation decision and pickup grading

    A shallow embedding of

      - [src/preprocessing/sam_detector.py]   (module [Detector]),
      - [src/classification/shape_based_symmetry.py] (module [Symmetry]),
      - [src/classification/pure_geometric_classifier.py] (module [Classifier]),
      - [src/grading/pickup_grader.py]         (module [Grader]),
      - [src/core.py]                          (module [Core]).

    Numbers.  Python and NumPy floats are modelled by exact real numbers
    ([R]): no rounding and no overflow.  The IEEE special values that the
    code produces or tests on purpose ([float('inf')], the results of a
    division by zero, [nan]) are kept: [NP.npfloat] adds them to the reals
    with NumPy's rules.  Pixel counts and mask ratios, where only integer
    sums and their quotients occur, are exact rationals ([Q]) and compute.
    Where the last bit of a result decides the answer (the label of the
    rule-based decision at its thresholds), the method is embedded over
    binary64 numbers as well (module [Binary64], on the kernel's primitive
    floats), and the statements about it are made there.

    OpenCV.  Calls into OpenCV are not modelled: a function that starts
    with image operations is embedded from the point where it has its
    pixel arrays, and [cv2.pointPolygonTest] is a parameter of the
    functions that call it.

    The definitions come first (the modules above, then [Examples] with the
    concrete inputs used below and [Spec] with the notions of the
    specification), the properties after them. *)

From Stdlib Require Import String Reals Lra Lia ZArith QArith List Bool Sorted.
From Stdlib Require Import Permutation Zfloor.
From Stdlib Require PrimFloat.
Import ListNotations.

(* ================================================================== *)
(** ** NumPy / IEEE values over the reals *)

Module NP.
Local Open Scope R_scope.

(** A float: a finite value, one of the two infinities, or not-a-number.
    Signed zeros are not distinguished (every zero is [+0.0]). *)
Inductive npfloat : Type :=
| Fin (x : R)
| PInf
| NInf
| NaN.

(** Sign of a real as a [comparison] with zero. *)
Definition Rsign (x : R) : comparison :=
  match total_order_T x 0 with
  | inleft (left _) => Lt
  | inleft (right _) => Eq
  | inright _ => Gt
  end.

Definition opp (a : npfloat) : npfloat :=
  match a with
  | Fin x => Fin (- x)
  | PInf => NInf
  | NInf => PInf
  | NaN => NaN
  end.

Definition add (a b : npfloat) : npfloat :=
  match a, b with
  | NaN, _ | _, NaN => NaN
  | Fin x, Fin y => Fin (x + y)
  | PInf, NInf | NInf, PInf => NaN
  | PInf, _ | _, PInf => PInf
  | NInf, _ | _, NInf => NInf
  end.

Definition sub (a b : npfloat) : npfloat := add a (opp b).

(** An infinity of the sign [s] ([Eq], the sign of zero, gives [nan]). *)
Definition inf_of_sign (s : comparison) : npfloat :=
  match s with
  | Gt => PInf
  | Lt => NInf
  | Eq => NaN
  end.

Definition mul (a b : npfloat) : npfloat :=
  match a, b with
  | NaN, _ | _, NaN => NaN
  | Fin x, Fin y => Fin (x * y)
  | PInf, Fin y | Fin y, PInf => inf_of_sign (Rsign y)
  | NInf, Fin y | Fin y, NInf => inf_of_sign (CompOpp (Rsign y))
  | PInf, PInf | NInf, NInf => PInf
  | PInf, NInf | NInf, PInf => NInf
  end.

(** NumPy's true division: a division by zero does not raise, it gives an
    infinity of the sign of the numerator, and [0/0] gives [nan]. *)
Definition div (a b : npfloat) : npfloat :=
  match a, b with
  | NaN, _ | _, NaN => NaN
  | Fin x, Fin y =>
      match Rsign y with
      | Eq => inf_of_sign (Rsign x)
      | _ => Fin (x / y)
      end
  | Fin _, (PInf | NInf) => Fin 0
  | (PInf | NInf), (PInf | NInf) => NaN
  | PInf, Fin y => match Rsign y with Lt => NInf | _ => PInf end
  | NInf, Fin y => match Rsign y with Lt => PInf | _ => NInf end
  end.

(** [a < b]; every comparison with [nan] is false. *)
Definition ltb (a b : npfloat) : bool :=
  match a, b with
  | NaN, _ | _, NaN => false
  | Fin x, Fin y => if Rlt_dec x y then true else false
  | Fin _, PInf => true
  | Fin _, NInf => false
  | PInf, _ => false
  | NInf, NInf => false
  | NInf, _ => true
  end.

(** [a <= b] as a proposition, for statements about results. *)
Definition le (a b : npfloat) : Prop :=
  match a, b with
  | Fin x, Fin y => x <= y
  | NInf, (Fin _ | PInf | NInf) => True
  | (Fin _ | PInf), PInf => True
  | _, _ => False
  end.

(** [a == float('inf')]. *)
Definition is_pinf (a : npfloat) : bool :=
  match a with PInf => true | _ => false end.

Definition isnan (a : npfloat) : bool :=
  match a with NaN => true | _ => false end.

(** Python's builtin [max(a, b)]: the first argument is kept unless the
    second compares greater. *)
Definition py_max (a b : npfloat) : npfloat := if ltb a b then b else a.

(** Python's builtin [min(a, b)]: the first argument is kept unless the
    second compares smaller. *)
Definition py_min (a b : npfloat) : npfloat := if ltb b a then b else a.

(** The same builtin [min(a, b)] on two finite values. *)
Definition py_min_R (a b : R) : R := if Rlt_dec b a then b else a.

(** Python's builtin [max(a, b)] on two finite values. *)
Definition py_max_R (a b : R) : R := if Rlt_dec a b then b else a.

(** [np.clip(a, lo, hi)], that is [minimum(maximum(a, lo), hi)]; [nan]
    propagates. *)
Definition clip (a : npfloat) (lo hi : R) : npfloat :=
  match a with
  | NaN => NaN
  | PInf => Fin hi
  | NInf => Fin (Rmin lo hi)
  | Fin x => Fin (Rmin (Rmax x lo) hi)
  end.

(** [np.abs]. *)
Definition abs (a : npfloat) : npfloat :=
  match a with
  | Fin x => Fin (Rabs x)
  | PInf | NInf => PInf
  | NaN => NaN
  end.

(** [a >= b]; false when either is [nan]. *)
Definition geb (a b : npfloat) : bool :=
  match a, b with
  | NaN, _ | _, NaN => false
  | _, _ => negb (ltb a b)
  end.

(** [a == b]; [nan] equals nothing. *)
Definition eqb (a b : npfloat) : bool := geb a b && geb b a.

(** Python's [int(x)]: truncation toward zero. *)
Definition py_int (x : R) : Z :=
  if Rle_dec 0 x then Zfloor x else (- Zfloor (- x))%Z.

End NP.

(* ================================================================== *)
(** ** Regions *)

(** An OpenCV contour: the integer pixel coordinates of its points. *)
Definition Contour : Type := list (Z * Z).

(** [DiamondROI] of [sam_detector.py], with the fields the modelled
    functions read ([roi_image], [mask] and [ellipse] are pixel arrays and
    OpenCV tuples that none of them reads). *)
Record DiamondROI : Type := mkDiamondROI {
  contour : Contour;
  bounding_box : Z * Z * Z * Z;
  center : R * R;
  area : R;
  perimeter : R;
  id : Z;
  major_axis : R;
  minor_axis : R;
  aspect_ratio : R;
  orientation : string;
  detected_type : string
}.

(** [roi.id = new_id]. *)
Definition set_id (roi : DiamondROI) (new_id : Z) : DiamondROI :=
  {| contour := contour roi; bounding_box := bounding_box roi;
     center := center roi; area := area roi; perimeter := perimeter roi;
     id := new_id;
     major_axis := major_axis roi; minor_axis := minor_axis roi;
     aspect_ratio := aspect_ratio roi; orientation := orientation roi;
     detected_type := detected_type roi |}.

(* ================================================================== *)
(** ** Mask post-processing ([sam_detector.py]) *)

Module Detector.
Import NP.

(** The configuration fields of [SAMDiamondDetector] (the FastSAM model
    handle is left out). *)
Record SAMDiamondDetector : Type := mkSAMDiamondDetector {
  min_area : Z;
  max_area : Z;
  padding : Z;
  merge_overlapping : bool;
  overlap_threshold : Q
}.

(** [SAMDiamondDetector(merge_overlapping=m)] with the other defaults. *)
Definition default_detector (m : bool) : SAMDiamondDetector :=
  mkSAMDiamondDetector 200 50000 10 m (25 # 100).

(** *** Masks

    A mask is a pixel array; the functions below only use element-wise
    operations and sums, so an array is its list of pixels in row-major
    order (all masks of one image have the same shape).  A raw mask holds
    probabilities; a binary mask ([uint8] 0/1) is a list of booleans. *)

Definition Mask : Type := list Q.
Definition BinMask : Type := list bool.

Local Open Scope Q_scope.

(** [a > b] on rationals. *)
Definition Qgtb (a b : Q) : bool := negb (Qle_bool a b).

(** Python's [max(a, b)] and [min(a, b)] on integers and rationals. *)
Definition Qpy_max (a b : Q) : Q := if Qgtb b a then b else a.
Definition Zpy_max (a b : Z) : Z := if (a <? b)%Z then b else a.
Definition Zpy_min (a b : Z) : Z := if (b <? a)%Z then b else a.

(** [(mask > 0.5).astype(np.uint8)]. *)
Definition binarize (mask : Mask) : BinMask := map (fun x => Qgtb x (1 # 2)) mask.

(** [m.astype(np.float32)] of a binary mask. *)
Definition to_float32 (m : BinMask) : Mask :=
  map (fun b : bool => if b then 1 else 0) m.

(** [m.sum()] of a binary mask. *)
Definition mask_sum (m : BinMask) : Z :=
  fold_right (fun (b : bool) acc => if b then (1 + acc)%Z else acc) 0%Z m.

Fixpoint map2 {A B C : Type} (f : A -> B -> C) (l1 : list A) (l2 : list B)
  : list C :=
  match l1, l2 with
  | a :: l1', b :: l2' => f a b :: map2 f l1' l2'
  | _, _ => []
  end.

Definition logical_and (m1 m2 : BinMask) : BinMask := map2 andb m1 m2.
Definition logical_or (m1 m2 : BinMask) : BinMask := map2 orb m1 m2.

(** [_calculate_iou]. *)
Definition _calculate_iou (mask1 mask2 : BinMask) : Q :=
  let intersection := mask_sum (logical_and mask1 mask2) in
  let union := mask_sum (logical_or mask1 mask2) in
  if (0 <? union)%Z then inject_Z intersection / inject_Z union else 0.

(** Lines 135-146 of [_merge_masks]: whether [mask_j] is merged into the
    current mask. *)
Definition should_merge (self : SAMDiamondDetector)
    (current_merged : BinMask) (current_area : Z) (mask_j : BinMask) : bool :=
  let area_j := mask_sum mask_j in
  let iou := _calculate_iou current_merged mask_j in
  let intersection := mask_sum (logical_and current_merged mask_j) in
  let containment_j :=
    if (0 <? area_j)%Z then inject_Z intersection / inject_Z area_j else 0 in
  let containment_current :=
    if (0 <? current_area)%Z then inject_Z intersection / inject_Z current_area
    else 0 in
  let max_containment := Qpy_max containment_j containment_current in
  let size_ratio :=
    if (0 <? Zpy_min current_area area_j)%Z
    then inject_Z (Zpy_max current_area area_j)
         / inject_Z (Zpy_min current_area area_j)
    else 1 in
  Qgtb max_containment (1 # 2)
  || (Qgtb iou (overlap_threshold self) && Qgtb size_ratio (15 # 10))
  || Qgtb iou (4 # 10).

(** [used[j] = True]; the index is always in range in the code. *)
Fixpoint mark_used (used : list bool) (j : nat) : list bool :=
  match used, j with
  | [], _ => []
  | _ :: u, O => true :: u
  | b :: u, S j' => b :: mark_used u j'
  end.

(** The number of masks not used yet. *)
Definition unused (used : list bool) : nat := length (filter negb used).

(** State of the inner loops:
    [(current_merged, current_area, used, changed)]. *)
Definition merge_state : Type := BinMask * Z * list bool * bool.

(** One iteration of [for j in range(len(binary_masks))]. *)
Definition merge_step (self : SAMDiamondDetector) (binary_masks : list BinMask)
    (st : merge_state) (j : nat) : merge_state :=
  let '(current_merged, current_area, used, changed) := st in
  if nth j used false then st
  else
    let mask_j := nth j binary_masks [] in
    if should_merge self current_merged current_area mask_j
    then
      let current_merged := logical_or current_merged mask_j in
      (current_merged, mask_sum current_merged, mark_used used j, true)
    else st.

(** One execution of the body of [while changed]: [changed = False], then
    the [for] loop over all masks. *)
Definition merge_pass (self : SAMDiamondDetector) (binary_masks : list BinMask)
    (current_merged : BinMask) (current_area : Z) (used : list bool)
  : merge_state :=
  fold_left (merge_step self binary_masks) (seq 0 (length binary_masks))
            (current_merged, current_area, used, false).

(** [while changed: ...], with a bound on the number of passes; [None] when
    the bound is reached ([merge_fuel_suffices] shows it is not). *)
Fixpoint merge_while (fuel : nat) (self : SAMDiamondDetector)
    (binary_masks : list BinMask) (current_merged : BinMask)
    (current_area : Z) (used : list bool) : option (BinMask * list bool) :=
  match fuel with
  | O => None
  | S fuel' =>
      let '(current_merged, current_area, used, changed) :=
        merge_pass self binary_masks current_merged current_area used in
      if changed
      then merge_while fuel' self binary_masks current_merged current_area used
      else Some (current_merged, used)
  end.

(** One iteration of [for i in range(len(binary_masks))]; the state is
    [(merged, used)]. *)
Definition merge_outer_step (self : SAMDiamondDetector)
    (binary_masks : list BinMask) (st : option (list Mask * list bool))
    (i : nat) : option (list Mask * list bool) :=
  match st with
  | None => None
  | Some (merged, used) =>
      if nth i used false then Some (merged, used)
      else
        let current_merged := nth i binary_masks [] in
        let used := mark_used used i in
        let current_area := mask_sum current_merged in
        match merge_while (S (length binary_masks)) self binary_masks
                current_merged current_area used with
        | None => None
        | Some (current_merged, used) =>
            Some ((merged ++ [to_float32 current_merged])%list, used)
        end
  end.

(** [_merge_masks]. *)
Definition _merge_masks (self : SAMDiamondDetector) (masks_list : list Mask)
  : option (list Mask) :=
  if negb (merge_overlapping self) || (length masks_list =? 0)%nat
  then Some masks_list
  else
    let binary_masks := map binarize masks_list in
    let used := repeat false (length binary_masks) in
    match fold_left (merge_outer_step self binary_masks)
            (seq 0 (length binary_masks)) (Some ([], used)) with
    | None => None
    | Some (merged, _) => Some merged
    end.

Local Close Scope Q_scope.
Local Open Scope R_scope.
Local Open Scope string_scope.

(** *** Shape category (lines 220-231 of [detect]) *)

(** From the axes of the fitted ellipse:
    [(major_axis, minor_axis, aspect_ratio, detected_type)]. *)
Definition shape_of_axes (axes : R * R) : R * R * R * string :=
  let major_axis := py_max_R (fst axes) (snd axes) in
  let minor_axis := py_min_R (fst axes) (snd axes) in
  let aspect_ratio :=
    if Rgt_dec major_axis 0 then minor_axis / major_axis else 0 in
  let detected_type :=
    if Rgt_dec aspect_ratio 0.85 then "round" else "other" in
  (major_axis, minor_axis, aspect_ratio, detected_type).

(** *** Nested regions ([_remove_nested_rois]) *)

(** [enumerate(l)]. *)
Definition enumerate {A : Type} (l : list A) : list (nat * A) :=
  combine (seq 0 (length l)) l.

(** [idx in to_remove]; the set of indices is kept as a list, of which only
    membership is used. *)
Definition mem (idx : nat) (to_remove : list nat) : bool :=
  existsb (Nat.eqb idx) to_remove.

(** Lines 290-294. *)
Definition bbox_contained (box_i box_j : Z * Z * Z * Z) : bool :=
  let '(x_i, y_i, w_i, h_i) := box_i in
  let '(x_j, y_j, w_j, h_j) := box_j in
  ((x_i >=? x_j) && (y_i >=? y_j)
   && (x_i + w_i <=? x_j + w_j) && (y_i + h_i <=? y_j + h_j))%Z.

Section NestedRois.

(** [cv2.pointPolygonTest(contour, point, False)]: positive inside the
    contour, zero on it, negative outside. *)
Variable pointPolygonTest : Contour -> R * R -> R.

(** Lines 280-296: the tests that make [roi_j] remove [roi_i]. *)
Definition nested_in (roi_i roi_j : DiamondROI) : bool :=
  if Rge_dec (area roi_i) (area roi_j) then false
  else
    let center_inside :=
      if Rge_dec (pointPolygonTest (contour roi_j) (center roi_i)) 0
      then true else false in
    if center_inside
    then bbox_contained (bounding_box roi_i) (bounding_box roi_j)
    else false.

(** The inner loop [for j, roi_j in enumerate(diamond_rois)]: [true] when
    it ends by [to_remove.add(i); break]. *)
Fixpoint nested_scan (to_remove : list nat) (i : nat) (roi_i : DiamondROI)
    (js : list (nat * DiamondROI)) : bool :=
  match js with
  | [] => false
  | (j, roi_j) :: rest =>
      if (i =? j)%nat || mem j to_remove
      then nested_scan to_remove i roi_i rest
      else if nested_in roi_i roi_j then true
           else nested_scan to_remove i roi_i rest
  end.

(** One iteration of the outer loop; the state is [to_remove]. *)
Definition nested_step (diamond_rois : list DiamondROI)
    (to_remove : list nat) (p : nat * DiamondROI) : list nat :=
  let '(i, roi_i) := p in
  if mem i to_remove then to_remove
  else if nested_scan to_remove i roi_i (enumerate diamond_rois)
       then i :: to_remove
       else to_remove.

(** The indices removed by the two loops. *)
Definition nested_indices (diamond_rois : list DiamondROI) : list nat :=
  fold_left (nested_step diamond_rois) (enumerate diamond_rois) [].

(** [[roi for idx, roi in enumerate(diamond_rois) if idx not in to_remove]],
    with the indices kept. *)
Definition kept_rois (diamond_rois : list DiamondROI) (to_remove : list nat)
  : list (nat * DiamondROI) :=
  filter (fun p => negb (mem (fst p) to_remove)) (enumerate diamond_rois).

(** [for new_id, roi in enumerate(filtered_rois): roi.id = new_id]. *)
Definition reindex (filtered_rois : list DiamondROI) : list DiamondROI :=
  map (fun p => set_id (snd p) (Z.of_nat (fst p))) (enumerate filtered_rois).

(** [_remove_nested_rois]. *)
Definition _remove_nested_rois (diamond_rois : list DiamondROI)
  : list DiamondROI :=
  if (length diamond_rois <=? 1)%nat then diamond_rois
  else
    let to_remove := nested_indices diamond_rois in
    let filtered_rois := map snd (kept_rois diamond_rois to_remove) in
    reindex filtered_rois.

End NestedRois.

(** *** Shape validation ([_is_valid_diamond_shape])

    The arguments are what OpenCV measures on the contour and the mask:
    [cv2.contourArea(hull)], [cv2.contourArea(contour)], the number of
    labels of [cv2.connectedComponentsWithStats] (background included), the
    width and height of [cv2.boundingRect] and [cv2.arcLength]. *)
Definition _is_valid_diamond_shape (hull_area contour_area : R)
    (num_labels : Z) (w h : Z) (perimeter : R) : bool :=
  if Rgt_dec hull_area 0
  then
    let solidity := contour_area / hull_area in
    if Rlt_dec solidity 0.70 then false
    else if (num_labels >? 2)%Z then false
    else
      let bbox_area := (w * h)%Z in
      if (if (bbox_area >? 0)%Z
          then if Rlt_dec (contour_area / IZR bbox_area) 0.50
               then true else false
          else false)
      then false
      else
        if (if Rgt_dec perimeter 0
            then if Rlt_dec ((4 * PI * contour_area) / (perimeter * perimeter))
                            0.30
                 then true else false
            else false)
        then false
        else true
  else false.

(** *** The loop of [detect]

    What OpenCV measures on one merged mask: the pixel count of the binary
    mask, the largest external contour after closing ([None] when there is
    none) and, for that contour, the measures read by the loop. *)
Record MaskMeasures : Type := mkMaskMeasures {
  mm_area : Z;
  mm_contour : option Contour;
  mm_hull_area : R;
  mm_contour_area : R;
  mm_num_labels : Z;
  mm_bounding_rect : Z * Z * Z * Z;
  mm_perimeter : R;
  mm_m00 : R;
  mm_m10 : R;
  mm_m01 : R;
  mm_axes : R * R
}.

(** Lines 233-237: the padded crop window [(x_pad, y_pad, x_end, y_end)]
    of a bounding box in an image of [image_w] x [image_h] pixels. *)
Definition crop_window (self : SAMDiamondDetector) (image_w image_h : Z)
    (box : Z * Z * Z * Z) : Z * Z * Z * Z :=
  let '(x, y, w, h) := box in
  let x_pad := Zpy_max 0 (x - padding self) in
  let y_pad := Zpy_max 0 (y - padding self) in
  let x_end := Zpy_min image_w (x + w + padding self) in
  let y_end := Zpy_min image_h (y + h + padding self) in
  (x_pad, y_pad, x_end, y_end).

(** The body of [for mask in masks] (lines 189-260): the region appended
    with id [roi_id], or [None] when the mask is skipped by one of the
    [continue] statements. *)
Definition detect_mask (self : SAMDiamondDetector) (m : MaskMeasures)
    (roi_id : Z) : option DiamondROI :=
  let area := mm_area m in
  if ((area <? min_area self) || (area >? max_area self))%Z then None
  else
    match mm_contour m with
    | None => None
    | Some contour =>
        if (length contour <? 5)%nat then None
        else
          let '(x, y, w, h) := mm_bounding_rect m in
          if negb (_is_valid_diamond_shape (mm_hull_area m)
                     (mm_contour_area m) (mm_num_labels m) w h
                     (mm_perimeter m))
          then None
          else if Req_dec_T (mm_m00 m) 0 then None
          else
            let cx := mm_m10 m / mm_m00 m in
            let cy := mm_m01 m / mm_m00 m in
            let '(major_axis, minor_axis, aspect_ratio, detected_type) :=
              shape_of_axes (mm_axes m) in
            Some {| contour := contour;
                    bounding_box := (x, y, w, h);
                    center := (cx, cy);
                    area := IZR area;
                    perimeter := mm_perimeter m;
                    id := roi_id;
                    major_axis := major_axis;
                    minor_axis := minor_axis;
                    aspect_ratio := aspect_ratio;
                    orientation := "unknown";
                    detected_type := detected_type |}
    end.

(** One iteration of the loop; the state is [(diamond_rois, roi_id)]. *)
Definition detect_step (self : SAMDiamondDetector)
    (st : list DiamondROI * Z) (m : MaskMeasures) : list DiamondROI * Z :=
  let '(diamond_rois, roi_id) := st in
  match detect_mask self m roi_id with
  | None => st
  | Some diamond => ((diamond_rois ++ [diamond])%list, (roi_id + 1)%Z)
  end.

(** [detect] after segmentation: [masks] are the measures of the merged
    masks ([[]] when FastSAM returns no mask). *)
Definition detect (pointPolygonTest : Contour -> R * R -> R)
    (self : SAMDiamondDetector) (masks : list MaskMeasures)
  : list DiamondROI :=
  let '(diamond_rois, _) := fold_left (detect_step self) masks ([], 0%Z) in
  _remove_nested_rois pointPolygonTest diamond_rois.

End Detector.

(* ================================================================== *)
(** ** Array statistics (NumPy) *)

Module Stats.
Import NP.
Local Open Scope R_scope.

(** [xs.sum()]. *)
Definition sum (xs : list R) : R := fold_right Rplus 0 xs.

(** [xs.mean()]; the callers below only take the mean of ten or more
    values. *)
Definition mean (xs : list R) : R := sum xs / INR (length xs).

(** [xs.std()]: the population standard deviation. *)
Definition std (xs : list R) : R :=
  sqrt (mean (map (fun x => (x - mean xs) * (x - mean xs)) xs)).

(** [(xs - xs.mean()) / (xs.std() + 1e-8)]. *)
Definition normalize (xs : list R) : list R :=
  map (fun x => (x - mean xs) / (std xs + 1e-8)) xs.

Fixpoint zip_with (f : R -> R -> R) (xs ys : list R) : list R :=
  match xs, ys with
  | x :: xs', y :: ys' => f x y :: zip_with f xs' ys'
  | _, _ => []
  end.

(** An entry of [np.cov(xs, ys)]: the sample covariance (ddof = 1) of two
    arrays of the same length, at least two. *)
Definition cov (xs ys : list R) : R :=
  sum (zip_with (fun x y => (x - mean xs) * (y - mean ys)) xs ys)
  / (INR (length xs) - 1).

(** [np.corrcoef(xs, ys)[0, 1]]: the covariance divided by the square root
    of the first variance, then by that of the second, then clipped to
    [[-1, 1]].  A zero variance makes the first quotient [0/0]. *)
Definition corrcoef (xs ys : list R) : npfloat :=
  let stddev_x := sqrt (cov xs xs) in
  let stddev_y := sqrt (cov ys ys) in
  clip (div (div (Fin (cov xs ys)) (Fin stddev_x)) (Fin stddev_y)) (-1) 1.

End Stats.

(* ================================================================== *)
(** ** Shape-based symmetry ([shape_based_symmetry.py]) *)

Module Symmetry.
Import NP Stats.
Local Open Scope R_scope.

(** [compute_mirror_symmetry], from line 261 on.  Lines 239-259 rotate the
    patch with OpenCV, split it and mirror one half; what the rest of the
    function reads of them are [left_pixels = left[valid_mask]] and
    [right_pixels = right_mirror[valid_mask]], two arrays of the same
    length [valid_mask.sum()]. *)
Definition compute_mirror_symmetry (left_pixels right_pixels : list R)
  : npfloat :=
  if (length left_pixels <? 10)%nat then Fin 0
  else if (length left_pixels <? 2)%nat then Fin 0
  else
    let left_norm := normalize left_pixels in
    let right_norm := normalize right_pixels in
    let correlation := corrcoef left_norm right_norm in
    let symmetry := div (add correlation (Fin 1)) (Fin 2) in
    let brightness_diff := Rabs (mean left_pixels - mean right_pixels) / 255 in
    let brightness_similarity := 1 - brightness_diff in
    let final_score :=
      add (mul (Fin 0.7) symmetry) (Fin (0.3 * brightness_similarity)) in
    clip final_score 0 1.

(** Lines 618-621 of [analyze_symmetry]:
    [best_symmetry = max(symmetry_major, symmetry_minor)], the outline
    symmetry score. *)
Definition best_symmetry (symmetry_major symmetry_minor : npfloat) : npfloat :=
  py_max symmetry_major symmetry_minor.

(** Lines 609-610 and 582-583 of [analyze_symmetry]: the circularity of a
    contour of the given area and perimeter. *)
Definition circularity (area perimeter : R) : R :=
  let c := if Rgt_dec perimeter 0
           then (4 * PI * area) / (perimeter * perimeter) else 0 in
  py_min_R c 1.

(** A gray-scale patch or a mask: a 2-D [uint8] array, row by row.  The
    patch and the mask of one call have the same shape. *)
Definition Array2 : Type := list (list Z).

(** [h, w = a.shape] (an array without rows has no pixels, whatever its
    width). *)
Definition height (a : Array2) : Z := Z.of_nat (length a).
Definition width (a : Array2) : Z := Z.of_nat (length (hd [] a)).

(** [l[:hi]], [l[lo:]] and [l[lo:hi]] for bounds that are not negative. *)
Definition upto {A : Type} (hi : Z) (l : list A) : list A :=
  firstn (Z.to_nat hi) l.
Definition from {A : Type} (lo : Z) (l : list A) : list A :=
  skipn (Z.to_nat lo) l.
Definition slice {A : Type} (lo hi : Z) (l : list A) : list A :=
  upto (hi - lo) (from lo l).

(** [a[y1:y2, x1:x2]]. *)
Definition crop (y1 y2 x1 x2 : Z) (a : Array2) : Array2 :=
  map (slice x1 x2) (slice y1 y2 a).

(** [image[mask > 127]]: the values of the image under the mask, in
    row-major order. *)
Definition select (image mask : Array2) : list Z :=
  map fst (filter (fun p => (127 <? snd p)%Z)
                  (combine (concat image) (concat mask))).

(** [a.sum()]. *)
Definition total (a : Array2) : Z := fold_right Z.add 0%Z (concat a).

(** [pixels.mean()] of a [uint8] array. *)
Definition pixel_mean (pixels : list Z) : R := mean (map IZR pixels).

(** [compute_central_brightness]; the callers pass the fractions 0.2 and
    0.25. *)
Definition compute_central_brightness (roi_image mask : Array2)
    (radius_fraction : R) : npfloat :=
  let h := height roi_image in
  let w := width roi_image in
  let center_y := (h / 2)%Z in
  let center_x := (w / 2)%Z in
  let radius := py_int (IZR (Detector.Zpy_min h w) * radius_fraction) in
  let y1 := Detector.Zpy_max 0 (center_y - radius) in
  let y2 := Detector.Zpy_min h (center_y + radius) in
  let x1 := Detector.Zpy_max 0 (center_x - radius) in
  let x2 := Detector.Zpy_min w (center_x + radius) in
  let central_region := crop y1 y2 x1 x2 roi_image in
  let central_mask := crop y1 y2 x1 x2 mask in
  if (total central_mask =? 0)%Z then Fin 0
  else
    let central_pixels := select central_region central_mask in
    if (length central_pixels =? 0)%nat then Fin 0
    else Fin (pixel_mean central_pixels / 255).

(** [compute_brightness_uniformity]. *)
Definition compute_brightness_uniformity (roi_image mask : Array2) : npfloat :=
  let pixels := select roi_image mask in
  if (length pixels =? 0)%nat then Fin 0
  else
    let std := std (map IZR pixels) in
    sub (Fin 1) (clip (Fin (std / 128)) 0 1).

(** [compute_directional_gradient]. *)
Definition compute_directional_gradient (roi_image mask : Array2) : npfloat :=
  let h := height roi_image in
  let w := width roi_image in
  let left_mask := map (upto (w / 2)) mask in
  let right_mask := map (from (w / 2)) mask in
  let left_pixels := select (map (upto (w / 2)) roi_image) left_mask in
  let right_pixels := select (map (from (w / 2)) roi_image) right_mask in
  if (length left_pixels =? 0)%nat || (length right_pixels =? 0)%nat
  then Fin 0
  else
    let left_mean := pixel_mean left_pixels in
    let right_mean := pixel_mean right_pixels in
    let horizontal_gradient := Rabs (left_mean - right_mean) / 255 in
    let top_mask := upto (h / 2) mask in
    let bottom_mask := from (h / 2) mask in
    let top_pixels := select (upto (h / 2) roi_image) top_mask in
    let bottom_pixels := select (from (h / 2) roi_image) bottom_mask in
    let vertical_gradient :=
      if (length top_pixels =? 0)%nat || (length bottom_pixels =? 0)%nat
      then 0
      else
        let top_mean := pixel_mean top_pixels in
        let bottom_mean := pixel_mean bottom_pixels in
        Rabs (top_mean - bottom_mean) / 255 in
    Fin (py_max_R horizontal_gradient vertical_gradient).

(** The entries of a list with their indices. *)
Definition indexed {A : Type} (l : list A) : list (Z * A) :=
  combine (map Z.of_nat (seq 0 (length l))) l.

(** The pixels of a patch as [(y, x, value, mask value)], in row-major
    order. *)
Definition entries (image mask : Array2) : list (Z * Z * Z * Z) :=
  flat_map (fun yr : Z * (list Z * list Z) =>
              map (fun xv : Z * (Z * Z) =>
                     (fst yr, fst xv, fst (snd xv), snd (snd xv)))
                  (indexed (combine (fst (snd yr)) (snd (snd yr)))))
           (indexed (combine image mask)).

(** [compute_ring_brightness]: [ring_mask.sum()] is the number of pixels
    of the ring, [len(ring_pixels)]. *)
Definition compute_ring_brightness (roi_image mask : Array2)
    (inner_fraction outer_fraction : R) : npfloat :=
  let h := height roi_image in
  let w := width roi_image in
  let center_y := (h / 2)%Z in
  let center_x := (w / 2)%Z in
  let max_radius := IZR (Detector.Zpy_min h w) / 2 in
  let inner_radius := py_int (max_radius * inner_fraction) in
  let outer_radius := py_int (max_radius * outer_fraction) in
  let ring_mask (e : Z * Z * Z * Z) : bool :=
    let '(y, x, _, m) := e in
    let distance :=
      sqrt (IZR ((y - center_y) * (y - center_y)
                 + (x - center_x) * (x - center_x))) in
    (if Rge_dec distance (IZR inner_radius) then true else false)
    && (if Rle_dec distance (IZR outer_radius) then true else false)
    && (127 <? m)%Z in
  let ring_pixels :=
    map (fun e : Z * Z * Z * Z => snd (fst e))
        (filter ring_mask (entries roi_image mask)) in
  if (length ring_pixels =? 0)%nat then Fin 0
  else if (length ring_pixels =? 0)%nat then Fin 0
  else Fin (pixel_mean ring_pixels / 255).

(** [is_circular_diamond]. *)
Definition is_circular_diamond (shape_circularity aspect_ratio : R)
    (roi_image mask : Array2)
    (circularity_threshold aspect_ratio_threshold : R)
    (verify_dark_center : bool) : bool :=
  if Rlt_dec shape_circularity circularity_threshold then false
  else if Rlt_dec aspect_ratio aspect_ratio_threshold then false
  else if verify_dark_center
  then
    let center_brightness := compute_central_brightness roi_image mask 0.20 in
    let ring_brightness := compute_ring_brightness roi_image mask 0.30 0.60 in
    if ltb (add center_brightness (Fin 0.05)) ring_brightness then true
    else if (if Rgt_dec shape_circularity 0.92 then true else false)
            && (if Rgt_dec aspect_ratio 0.92 then true else false)
         then true
         else false
  else true.

(** [np.mean] of a list of floats; the mean of no value is [nan]. *)
Definition np_mean (xs : list npfloat) : npfloat :=
  div (fold_left add xs (Fin 0)) (Fin (INR (length xs))).

(** [compute_multi_axis_symmetry].  [halves angle] stands for the two
    pixel arrays that lines 239-265 of [compute_mirror_symmetry] extract
    from the patch rotated by [angle]. *)
Definition compute_multi_axis_symmetry (halves : R -> list R * list R)
    (num_angles : nat) : npfloat * nat :=
  let angles :=
    map (fun i => INR i * 180 / INR num_angles) (seq 0 num_angles) in
  let threshold := 0.75 in
  let '(symmetry_scores, num_symmetric) :=
    fold_left (fun (st : list npfloat * nat) angle =>
                 let '(symmetry_scores, num_symmetric) := st in
                 let symmetry :=
                   compute_mirror_symmetry (fst (halves angle))
                                           (snd (halves angle)) in
                 ((symmetry_scores ++ [symmetry])%list,
                  if ltb (Fin threshold) symmetry
                  then (num_symmetric + 1)%nat else num_symmetric))
              angles ([], 0%nat) in
  let avg_symmetry := np_mean symmetry_scores in
  (avg_symmetry, num_symmetric).

End Symmetry.

(* ================================================================== *)
(** ** Rule-based classifier ([pure_geometric_classifier.py]) *)

Module Classifier.
Import NP Stats.
Local Open Scope R_scope.
Local Open Scope string_scope.

Record PureGeometricClassifier : Type := mkPureGeometricClassifier {
  outline_sym_threshold : R;
  reflection_sym_threshold : R;
  spot_sym_threshold : R;
  aspect_ratio_threshold : R
}.

(** [PureGeometricClassifier()], the constructor's defaults. *)
Definition default_classifier : PureGeometricClassifier :=
  mkPureGeometricClassifier 0.70 0.65 0.60 0.58.

Definition Rgeb (a b : R) : bool := if Rge_dec a b then true else false.
Definition Rltb (a b : R) : bool := if Rlt_dec a b then true else false.

(** [_make_decision], read over exact numbers: sums and products do not
    round.  [Binary64._make_decision] below is the same method in the
    arithmetic the interpreter uses. *)
Definition _make_decision (self : PureGeometricClassifier)
    (outline_sym reflection_sym : R) (has_spot : bool)
    (spot_sym aspect_ratio : R) : string * R :=
  if Rgeb outline_sym (outline_sym_threshold self)
     && Rgeb reflection_sym (reflection_sym_threshold self)
     && Rgeb aspect_ratio (aspect_ratio_threshold self)
  then ("table", (outline_sym + reflection_sym + aspect_ratio) / 3)
  else
    let weak_count := 0%nat in
    let weak_count :=
      if Rltb outline_sym 0.60 then (weak_count + 1)%nat else weak_count in
    let weak_count :=
      if Rltb reflection_sym 0.55 then (weak_count + 1)%nat else weak_count in
    let weak_count :=
      if Rltb aspect_ratio 0.52 then (weak_count + 1)%nat else weak_count in
    if (2 <=? weak_count)%nat
    then ("tilted", 1 - (outline_sym + reflection_sym + aspect_ratio) / 3)
    else
      let primary_score :=
        0.25 * outline_sym + 0.35 * reflection_sym + 0.40 * aspect_ratio in
      let final_score :=
        if Rltb (Rabs (primary_score - 0.60)) 0.05
        then if has_spot && Rgeb spot_sym (spot_sym_threshold self)
             then 0.7 * primary_score + 0.3 * spot_sym
             else primary_score
        else primary_score in
      if Rgeb final_score 0.60 then ("table", final_score)
      else ("tilted", 1 - final_score).

(** [_analyze_reflection_symmetry], its numeric part.  The arguments are
    what the OpenCV steps produce: the number of reflection spots, the
    moment [M['m00']] of the mask, and the bright-mask pixels of the two
    halves where both are valid ([left[valid]], [right_mirror[valid]]).
    [np.corrcoef] does not raise on such arrays, so the [except] branch
    (the same fallback as for a [nan] correlation) is not entered. *)
Definition _analyze_reflection_symmetry (num_spots : Z) (m00 : R)
    (left_pixels right_pixels : list R) : npfloat * Z :=
  if (num_spots =? 0)%Z then (Fin 0, 0%Z)
  else if Req_dec_T m00 0 then (Fin 0, num_spots)
  else if (length left_pixels <? 10)%nat then (Fin 0, num_spots)
  else if (length left_pixels <? 2)%nat then (Fin 0, num_spots)
  else
    let left_std := std left_pixels in
    let right_std := std right_pixels in
    if Rltb left_std 1e-6 || Rltb right_std 1e-6
    then
      let brightness_diff :=
        Rabs (mean left_pixels - mean right_pixels) / 255 in
      let symmetry := 1 - brightness_diff in
      (clip (Fin symmetry) 0 1, num_spots)
    else
      let left_norm :=
        map (fun x => (x - mean left_pixels) / (left_std + 1e-8)) left_pixels in
      let right_norm :=
        map (fun x => (x - mean right_pixels) / (right_std + 1e-8))
            right_pixels in
      let correlation := corrcoef left_norm right_norm in
      let correlation :=
        if isnan correlation
        then
          let brightness_diff :=
            Rabs (mean left_pixels - mean right_pixels) / 255 in
          Fin (1 - 2 * brightness_diff)
        else correlation in
      let symmetry := div (add correlation (Fin 1)) (Fin 2) in
      (clip symmetry 0 1, num_spots).

(** [_measure_spot_symmetry], its numeric part: [left[valid]] and
    [right_mirror[valid]] are [uint8] arrays of the same length
    [valid.sum()]. *)
Definition _measure_spot_symmetry (m00 : R) (left_valid right_valid : list Z)
  : R :=
  if Req_dec_T m00 0 then 0
  else if (length left_valid <? 10)%nat then 0
  else
    let matching :=
      length (filter (fun p => Z.eqb (fst p) (snd p))
                     (combine left_valid right_valid)) in
    let total := length left_valid in
    if (0 <? total)%nat then INR matching / INR total else 0.

(** [_calculate_aspect_ratio]: [n] is [len(contour)], [(major, minor)] the
    axes returned by [cv2.fitEllipse]. *)
Definition _calculate_aspect_ratio (n : nat) (major minor : R) : R :=
  if (n <? 5)%nat then 0
  else if Rgt_dec (py_max_R major minor) 0
       then py_min_R major minor / py_max_R major minor
       else 0.

(** [_make_decision] on floats that may be [nan] or infinite, as the
    symmetry scores can be; on finite values it is [_make_decision]. *)
Definition _make_decision_float (self : PureGeometricClassifier)
    (outline_sym reflection_sym : npfloat) (has_spot : bool)
    (spot_sym aspect_ratio : npfloat) : string * npfloat :=
  if geb outline_sym (Fin (outline_sym_threshold self))
     && geb reflection_sym (Fin (reflection_sym_threshold self))
     && geb aspect_ratio (Fin (aspect_ratio_threshold self))
  then ("table",
        div (add (add outline_sym reflection_sym) aspect_ratio) (Fin 3))
  else
    let weak_count := 0%nat in
    let weak_count :=
      if ltb outline_sym (Fin 0.60) then (weak_count + 1)%nat
      else weak_count in
    let weak_count :=
      if ltb reflection_sym (Fin 0.55) then (weak_count + 1)%nat
      else weak_count in
    let weak_count :=
      if ltb aspect_ratio (Fin 0.52) then (weak_count + 1)%nat
      else weak_count in
    if (2 <=? weak_count)%nat
    then ("tilted",
          sub (Fin 1)
              (div (add (add outline_sym reflection_sym) aspect_ratio)
                   (Fin 3)))
    else
      let primary_score :=
        add (add (mul (Fin 0.25) outline_sym) (mul (Fin 0.35) reflection_sym))
            (mul (Fin 0.40) aspect_ratio) in
      let final_score :=
        if ltb (abs (sub primary_score (Fin 0.60))) (Fin 0.05)
        then if has_spot && geb spot_sym (Fin (spot_sym_threshold self))
             then add (mul (Fin 0.7) primary_score) (mul (Fin 0.3) spot_sym)
             else primary_score
        else primary_score in
      if geb final_score (Fin 0.60) then ("table", final_score)
      else ("tilted", sub (Fin 1) final_score).

(** [_analyze_outline_symmetry]: [n] is [len(contour)], the scores and the
    angles are the fields of the result of [analyze_symmetry], whose
    [best_symmetry_score] is [best_symmetry] of the two scores. *)
Definition _analyze_outline_symmetry (n : nat)
    (symmetry_score_major symmetry_score_minor : npfloat)
    (major_axis_angle minor_axis_angle : R) : npfloat * R :=
  if (n <? 5)%nat then (Fin 0, 0)
  else
    let best_sym :=
      Symmetry.best_symmetry symmetry_score_major symmetry_score_minor in
    let best_axis :=
      if geb symmetry_score_major symmetry_score_minor
      then major_axis_angle else minor_axis_angle in
    (best_sym, best_axis).

(** [np.argmax]: the first index of the greatest value. *)
Fixpoint argmax_from (best_i : nat) (best : Z) (i : nat) (l : list Z) : nat :=
  match l with
  | [] => best_i
  | x :: l' =>
      if (best <? x)%Z then argmax_from i x (S i) l'
      else argmax_from best_i best (S i) l'
  end.

Definition argmax (l : list Z) : nat :=
  match l with
  | [] => 0%nat
  | x :: l' => argmax_from 0 x 1 l'
  end.

(** Lines 375-390 (and 401-414) of [_analyze_large_spots]:
    [(large_spot, spot_area)] from [areas = stats[1:, cv2.CC_STAT_AREA]],
    the areas of the connected components, of which there are
    [num_labels - 1], and from [mask.sum()]. *)
Definition largest_spot (areas : list Z) (mask_sum : Z) : bool * Z :=
  let num_labels := S (length areas) in
  if (1 <? num_labels)%nat
  then
    if (0 <? length areas)%nat
    then
      let largest_idx := (argmax areas + 1)%nat in
      let spot_area := nth (largest_idx - 1) areas 0%Z in
      let total_area := IZR mask_sum / 255 in
      if Rgt_dec (IZR spot_area) (0.15 * total_area)
      then (true, spot_area) else (false, spot_area)
    else (false, 0%Z)
  else (false, 0%Z).

(** [_analyze_large_spots], from the measurements OpenCV provides:
    [masked_pixels] is [len(masked_pixels)], [light_areas] and
    [dark_areas] the component areas of the two thresholded masks, and
    [light_valid], [dark_valid] the pixel arrays that
    [_measure_spot_symmetry] compares for the largest light and the
    largest dark component. *)
Definition _analyze_large_spots (masked_pixels : nat)
    (light_areas dark_areas : list Z) (mask_sum : Z) (m00 : R)
    (light_valid dark_valid : list Z * list Z) : bool * R * bool :=
  if (masked_pixels =? 0)%nat then (false, 0, false)
  else
    let '(large_light_spot, light_spot_area) :=
      largest_spot light_areas mask_sum in
    let '(large_dark_spot, dark_spot_area) :=
      largest_spot dark_areas mask_sum in
    let '(has_large_spot, spot_mask, is_light) :=
      if large_light_spot && (dark_spot_area <=? light_spot_area)%Z
      then (true, Some light_valid, true)
      else if large_dark_spot then (true, Some dark_valid, false)
      else (false, None, true) in
    let spot_symmetry :=
      match spot_mask with
      | Some valid =>
          if has_large_spot
          then _measure_spot_symmetry m00 (fst valid) (snd valid)
          else 0
      | None => 0
      end in
    (has_large_spot, spot_symmetry, is_light).

End Classifier.

(* ================================================================== *)
(** ** The rule-based decision in binary64

    Python's [float] and NumPy's [float64] are IEEE 754 binary64 numbers
    and every operation rounds to nearest, ties to even, as the kernel's
    primitive floats do.  A decimal literal stands for the nearest binary64
    number in both languages. *)

Module Binary64.
Import PrimFloat.
Local Open Scope string_scope.
Local Open Scope float_scope.
#[local] Set Warnings "-inexact-float".

Record PureGeometricClassifier : Type := mkPureGeometricClassifier {
  outline_sym_threshold : float;
  reflection_sym_threshold : float;
  spot_sym_threshold : float;
  aspect_ratio_threshold : float
}.

(** [PureGeometricClassifier()], the constructor's defaults. *)
Definition default_classifier : PureGeometricClassifier :=
  mkPureGeometricClassifier 0.70 0.65 0.60 0.58.

(** [a >= b]; false when either is [nan]. *)
Definition geb (a b : float) : bool := b <=? a.

(** [_make_decision]. *)
Definition _make_decision (self : PureGeometricClassifier)
    (outline_sym reflection_sym : float) (has_spot : bool)
    (spot_sym aspect_ratio : float) : string * float :=
  if geb outline_sym (outline_sym_threshold self)
     && geb reflection_sym (reflection_sym_threshold self)
     && geb aspect_ratio (aspect_ratio_threshold self)
  then ("table", (outline_sym + reflection_sym + aspect_ratio) / 3)
  else
    let weak_count := 0%nat in
    let weak_count :=
      if outline_sym <? 0.60 then (weak_count + 1)%nat else weak_count in
    let weak_count :=
      if reflection_sym <? 0.55 then (weak_count + 1)%nat else weak_count in
    let weak_count :=
      if aspect_ratio <? 0.52 then (weak_count + 1)%nat else weak_count in
    if (2 <=? weak_count)%nat
    then ("tilted", 1 - (outline_sym + reflection_sym + aspect_ratio) / 3)
    else
      let primary_score :=
        0.25 * outline_sym + 0.35 * reflection_sym + 0.40 * aspect_ratio in
      let final_score :=
        if abs (primary_score - 0.60) <? 0.05
        then if has_spot && geb spot_sym (spot_sym_threshold self)
             then 0.7 * primary_score + 0.3 * spot_sym
             else primary_score
        else primary_score in
      if geb final_score 0.60 then ("table", final_score)
      else ("tilted", 1 - final_score).

End Binary64.

(* ================================================================== *)
(** ** Pickup grader ([pickup_grader.py]) *)

Module Grader.
Import NP.
Local Open Scope R_scope.
Local Open Scope string_scope.

Record GradedDiamond : Type := mkGradedDiamond {
  roi : DiamondROI;
  grade : option npfloat;            (* None: not pickable *)
  nearest_distance : option npfloat;
  radius : R
}.

Record PickupGrader : Type := mkPickupGrader {
  invalid_threshold : R;
  check_orientation : bool;
  diamond_type : string;
  plate_width_mm : R;
  min_distance_mm : R;
  image_width_px : option Z;
  px_per_mm : option R;
  min_distance_px : option R
}.



(** [np.sqrt(roi.area / np.pi)]. *)
Definition radius_of (r : DiamondROI) : R := sqrt (area r / PI).

(** [_get_safety_threshold]; both [hasattr] tests are true of a
    [DiamondROI]. *)
Definition _get_safety_threshold (self : PickupGrader) (r : DiamondROI) : R :=
  match min_distance_px self with
  | Some px => px
  | None =>
      let radius := radius_of r in
      let is_circular :=
        String.eqb (detected_type r) "round" && String.eqb (orientation r) "table" in
      if is_circular then radius else radius / 3
  end.

(** [np.linalg.norm(target_center - other_center)]. *)
Definition center_distance (a b : DiamondROI) : R :=
  sqrt ((fst (center a) - fst (center b)) * (fst (center a) - fst (center b))
        + (snd (center a) - snd (center b)) * (snd (center a) - snd (center b))).

(** Edge-to-edge distance of two regions (line 171), over exact numbers:
    in binary64 each of the two subtractions rounds, so that exchanging the
    two regions can change the last bit of the result. *)
Definition edge_distance (target other : DiamondROI) : R :=
  center_distance target other - radius_of target - radius_of other.

(** One iteration of the loop of [_find_nearest_edge_distance]; the state is
    [(min_edge_distance, required_threshold)]. *)
Definition scan_step (self : PickupGrader) (target_roi : DiamondROI)
    (st : npfloat * R) (r : DiamondROI) : npfloat * R :=
  let '(min_edge_distance, required_threshold) := st in
  if Z.eqb (id r) (id target_roi) then st
  else
    let target_threshold := _get_safety_threshold self target_roi in
    let other_threshold := _get_safety_threshold self r in
    let d := edge_distance target_roi r in
    if ltb (Fin d) min_edge_distance
    then (Fin d, py_min_R target_threshold other_threshold)
    else st.

(** The values the running minimum of the scan takes: [inf] or a finite
    distance. *)
Definition scan_value (m : npfloat) : Prop := m = PInf \/ exists x, m = Fin x.

(** [_find_nearest_edge_distance]. *)
Definition _find_nearest_edge_distance (self : PickupGrader)
    (target_roi : DiamondROI) (all_rois : list DiamondROI) : npfloat * R :=
  let target_threshold := _get_safety_threshold self target_roi in
  let '(min_edge_distance, required_threshold) :=
    fold_left (scan_step self target_roi) all_rois (PInf, target_threshold) in
  (if is_pinf min_edge_distance then Fin 0 else min_edge_distance,
   required_threshold).

(** Lines 92-103 of [grade_diamonds]: the grade from the edge distance, the
    safety threshold and the radius. *)
Definition grade_of (edge_distance : npfloat) (safety_threshold radius : R)
  : npfloat :=
  if ltb edge_distance (Fin safety_threshold) then Fin (-1)
  else
    let min_valid_distance := safety_threshold in
    let max_distance := 6 * radius in
    let normalized :=
      div (sub edge_distance (Fin min_valid_distance))
          (Fin (max_distance - min_valid_distance)) in
    py_min (Fin 10) (py_max (Fin 0) (mul normalized (Fin 10))).

(** The body of the loop of [grade_diamonds] for one region.  A
    [DiamondROI] always has the attribute [orientation] (a dataclass field
    with a default), so [hasattr(roi, 'orientation')] is true. *)
Definition grade_roi (self : PickupGrader) (diamond_rois : list DiamondROI)
    (r : DiamondROI) : GradedDiamond :=
  let radius := radius_of r in
  if check_orientation self && String.eqb (orientation r) "tilted"
  then mkGradedDiamond r None None radius
  else
    let '(edge_distance, safety_threshold) :=
      _find_nearest_edge_distance self r diamond_rois in
    mkGradedDiamond r (Some (grade_of edge_distance safety_threshold radius))
      (Some edge_distance) radius.

(** [grade_diamonds]: the loop appends one record per region, in order. *)
Definition grade_diamonds (self : PickupGrader) (diamond_rois : list DiamondROI)
  : list GradedDiamond :=
  fold_left (fun graded_diamonds r =>
               (graded_diamonds ++ [grade_roi self diamond_rois r])%list)
            diamond_rois [].

(** One iteration of the loop of [_find_nearest_neighbor_distance]; the
    state is [min_distance]. *)
Definition neighbor_step (target_roi : DiamondROI) (min_distance : npfloat)
    (r : DiamondROI) : npfloat :=
  if Z.eqb (id r) (id target_roi) then min_distance
  else
    let distance := center_distance target_roi r in
    if ltb (Fin distance) min_distance then Fin distance else min_distance.

(** [_find_nearest_neighbor_distance] (the method does not read [self]). *)
Definition _find_nearest_neighbor_distance (target_roi : DiamondROI)
    (all_rois : list DiamondROI) : npfloat :=
  let min_distance := fold_left (neighbor_step target_roi) all_rois PInf in
  if is_pinf min_distance then Fin 0 else min_distance.

End Grader.

(* ================================================================== *)
(** ** Image results ([core.py], [classify_diamond.py]) *)

Module Core.
Import NP Grader.
Local Open Scope R_scope.
Local Open Scope string_scope.

(** [gd.grade is not None and gd.grade >= 0]. *)
Definition is_pickable (gd : GradedDiamond) : bool :=
  match grade gd with
  | None => false
  | Some g => geb g (Fin 0)
  end.

(** [gd.grade == -1] ([None == -1] is false). *)
Definition is_invalid (gd : GradedDiamond) : bool :=
  match grade gd with
  | None => false
  | Some g => eqb g (Fin (-1))
  end.

(** [gd.grade is None], the test of [visualize_pickup_order] for the
    regions drawn as tilted. *)
Definition is_not_gradable (gd : GradedDiamond) : bool :=
  match grade gd with
  | None => true
  | Some _ => false
  end.

(** [sum(gd.grade for gd in pickable)]: Python's [sum] starts from 0. *)
Definition grade_sum (pickable : list GradedDiamond) : npfloat :=
  fold_left (fun acc gd =>
               match grade gd with
               | Some g => add acc g
               | None => NaN      (* [0 + None] raises; not reached *)
               end)
            pickable (Fin 0).

(** Lines 194-197 of [classify_image]:
    [(len(pickable), len(invalid), avg_grade)]. *)
Definition grade_summary (graded_diamonds : list GradedDiamond)
  : nat * nat * npfloat :=
  let pickable := filter is_pickable graded_diamonds in
  let invalid := filter is_invalid graded_diamonds in
  let avg_grade :=
    if (0 <? length pickable)%nat
    then div (grade_sum pickable) (Fin (INR (length pickable)))
    else Fin 0 in
  (length pickable, length invalid, avg_grade).

(** [int(base * scale_factor ** 2)] floored at [floor_], lines 77-83 of
    [_initialize_detector]: the area bound for an image of [h] x [w]
    pixels, over exact numbers.  In binary64 the square of the rounded
    square root can fall short of the quotient by one unit in the last
    place, and [int] then truncates to the integer below. *)
Definition scaled_area (floor_ base : Z) (h w : Z) : Z :=
  let image_pixels := (h * w)%Z in
  let base_pixels := (1944 * 2592)%Z in
  let scale_factor := sqrt (IZR image_pixels / IZR base_pixels) in
  let base_area_scale := scale_factor * scale_factor in
  Detector.Zpy_max floor_ (py_int (IZR base * base_area_scale)).

(** [(min_area, max_area)] of [_initialize_detector]. *)
Definition adaptive_area_bounds (h w : Z) : Z * Z :=
  (scaled_area 30 200 h w, scaled_area 1000 20000 h w).

(** [roi.orientation = orientation]. *)
Definition set_orientation (roi : DiamondROI) (o : string) : DiamondROI :=
  {| contour := contour roi; bounding_box := bounding_box roi;
     center := center roi; area := area roi; perimeter := perimeter roi;
     id := id roi;
     major_axis := major_axis roi; minor_axis := minor_axis roi;
     aspect_ratio := aspect_ratio roi; orientation := o;
     detected_type := detected_type roi |}.

(** One iteration of the classification loop of [classify_image] (lines
    135-190): the state is [(table_count, tilted_count)] and the regions
    updated so far.  [predict roi] stands for [self.model.predict(X)[0]]
    on the features of the region. *)
Definition classify_step (predict : DiamondROI -> Z)
    (st : nat * nat * list DiamondROI) (roi : DiamondROI)
  : nat * nat * list DiamondROI :=
  let '(table_count, tilted_count, updated) := st in
  let prediction := predict roi in
  let orientation := if (prediction =? 1)%Z then "table" else "tilted" in
  let roi := set_orientation roi orientation in
  if String.eqb orientation "table"
  then ((table_count + 1)%nat, tilted_count, (updated ++ [roi])%list)
  else (table_count, (tilted_count + 1)%nat, (updated ++ [roi])%list).

(** The counts of the [ImageResult] of [classify_image]. *)
Record ImageResult : Type := mkImageResult {
  total_diamonds : nat;
  table_count : nat;
  tilted_count : nat;
  pickable_count : nat;
  invalid_count : nat;
  average_grade : npfloat
}.

(** [classify_image] from the detected regions on: classification of each
    region, grading of the updated regions, and the counts. *)
Definition classify_image (predict : DiamondROI -> Z) (grader : PickupGrader)
    (diamond_rois : list DiamondROI) : ImageResult :=
  if (length diamond_rois =? 0)%nat
  then mkImageResult 0 0 0 0 0 (Fin 0)
  else
    let '(table_count, tilted_count, diamond_rois) :=
      fold_left (classify_step predict) diamond_rois (0%nat, 0%nat, []) in
    let graded_diamonds := grade_diamonds grader diamond_rois in
    let '(pickable_count, invalid_count, avg_grade) :=
      grade_summary graded_diamonds in
    mkImageResult (length diamond_rois) table_count tilted_count
      pickable_count invalid_count avg_grade.

End Core.

(* ================================================================== *)
(** ** Example regions and configurations *)

Module Examples.
Import NP Grader.
Local Open Scope R_scope.
Local Open Scope string_scope.

(** A round, table-up region of radius 20 (area 400 pi). *)
Definition disc (i : Z) (cx cy : R) (o : string) : DiamondROI :=
  {| contour := []; bounding_box := (0, 0, 0, 0)%Z; center := (cx, cy);
     area := 400 * PI; perimeter := 40 * PI; id := i;
     major_axis := 40; minor_axis := 40; aspect_ratio := 1;
     orientation := o; detected_type := "round" |}.

Definition regionA : DiamondROI := disc 0 100 100 "table".
Definition regionB : DiamondROI := disc 1 160 100 "table".

(** [PickupGrader()]: no image width, radius-based thresholds. *)
Definition grader_radius : PickupGrader :=
  mkPickupGrader 1.5 true "round" 100 2 None None None.

(** [PickupGrader(image_width_px=500)]: 5 px per mm, a 10 px threshold. *)
Definition grader_10px : PickupGrader :=
  mkPickupGrader 1.5 true "round" 100 2 (Some 500%Z)
    (Some (500 / 100)) (Some (2 * (500 / 100))).

(** Three masks of a 1 x 13 image: a wide one and two small ones that
    overlap each other more than they overlap the wide one. *)
Definition bitsA : Detector.BinMask :=
  [true; true; true; true; true; true; true; true; true; true;
   false; false; false].
Definition bits2 : Detector.BinMask :=
  [true; true; false; false; false; false; false; false; false; false;
   true; true; true].
Definition bits3 : Detector.BinMask :=
  [false; false; true; true; false; false; false; false; false; false;
   true; true; true].
Definition bits23 : Detector.BinMask :=
  [true; true; true; true; false; false; false; false; false; false;
   true; true; true].
Definition bits_all : Detector.BinMask := repeat true 13.

Definition three_masks : list Detector.Mask :=
  map Detector.to_float32 [bitsA; bits2; bits3].

(** [cv2.pointPolygonTest] on a convex contour: the point is inside when
    it lies on the same side of every edge. *)
Definition cross (p q : Z * Z) (pt : R * R) : R :=
  (IZR (fst q) - IZR (fst p)) * (snd pt - IZR (snd p))
  - (IZR (snd q) - IZR (snd p)) * (fst pt - IZR (fst p)).

Definition edges (c : Contour) : list ((Z * Z) * (Z * Z)) :=
  combine c (tl c ++ firstn 1 c)%list.

Definition convex_pointPolygonTest (c : Contour) (pt : R * R) : R :=
  let left_of e := if Rle_dec 0 (cross (fst e) (snd e) pt) then true else false in
  let right_of e := if Rle_dec (cross (fst e) (snd e) pt) 0 then true else false in
  let on e := left_of e && right_of e in
  if forallb left_of (edges c) || forallb right_of (edges c)
  then if existsb on (edges c) then 0 else 1
  else -1.

(** The valid pixels of one half of a uniformly gray patch (for instance a
    10 x 2 image of value 128 under a full mask, measured along the axis
    at 90 degrees, which needs no rotation). *)
Definition uniform_pixels : list R := repeat 128 10.

(** A tilted region 5 px from the rim of [regionA], closer than the
    safety threshold of the pair (20/3 px). *)
Definition regionT : DiamondROI := disc 2 100 145 "tilted".

(** A 3 x 3 gray patch and a mask that leaves two corners out. *)
Definition patch : Symmetry.Array2 :=
  [[10; 200; 30]; [40; 50; 60]; [70; 80; 255]]%Z.
Definition patch_mask : Symmetry.Array2 :=
  [[255; 255; 0]; [255; 255; 255]; [0; 255; 255]]%Z.


(** The measures of three merged masks, in detection order
    [middle; inner; outer]: a square of 21 x 21 pixels ([inner]) inside a
    square of 101 x 101 pixels ([middle]), whose centroid lies inside a
    pentagon ([outer], the square [0..150] x [0..150] without the corner
    beyond [x + y = 180]) that does not hold the centroid of [inner].
    Each contour is given by its corners (and edge midpoints); areas,
    perimeters and moments are those of these polygons, the pixel counts
    those of the filled shapes. *)
Definition inner_mask : Detector.MaskMeasures :=
  {| Detector.mm_area := 441;
     Detector.mm_contour :=
       Some [(95, 95); (105, 95); (115, 95); (115, 105);
             (115, 115); (105, 115); (95, 115); (95, 105)]%Z;
     Detector.mm_hull_area := 400; Detector.mm_contour_area := 400;
     Detector.mm_num_labels := 2;
     Detector.mm_bounding_rect := (95, 95, 21, 21)%Z;
     Detector.mm_perimeter := 80;
     Detector.mm_m00 := 400; Detector.mm_m10 := 42000;
     Detector.mm_m01 := 42000;
     Detector.mm_axes := (24, 24) |}.

Definition middle_mask : Detector.MaskMeasures :=
  {| Detector.mm_area := 10201;
     Detector.mm_contour :=
       Some [(20, 20); (70, 20); (120, 20); (120, 70);
             (120, 120); (70, 120); (20, 120); (20, 70)]%Z;
     Detector.mm_hull_area := 10000; Detector.mm_contour_area := 10000;
     Detector.mm_num_labels := 2;
     Detector.mm_bounding_rect := (20, 20, 101, 101)%Z;
     Detector.mm_perimeter := 400;
     Detector.mm_m00 := 10000; Detector.mm_m10 := 700000;
     Detector.mm_m01 := 700000;
     Detector.mm_axes := (116, 116) |}.

Definition outer_mask : Detector.MaskMeasures :=
  {| Detector.mm_area := 15541;
     Detector.mm_contour :=
       Some [(0, 0); (150, 0); (150, 30); (30, 150); (0, 150)]%Z;
     Detector.mm_hull_area := 15300; Detector.mm_contour_area := 15300;
     Detector.mm_num_labels := 2;
     Detector.mm_bounding_rect := (0, 0, 151, 151)%Z;
     Detector.mm_perimeter := 529.7056;
     Detector.mm_m00 := 15300; Detector.mm_m10 := 895500;
     Detector.mm_m01 := 895500;
     Detector.mm_axes := (140, 175) |}.

(** The regions the loop of [detect] builds from them. *)
Definition inner : DiamondROI :=
  {| contour := [(95, 95); (105, 95); (115, 95); (115, 105);
                 (115, 115); (105, 115); (95, 115); (95, 105)]%Z;
     bounding_box := (95, 95, 21, 21)%Z; center := (105, 105);
     area := 441; perimeter := 80; id := 1;
     major_axis := 24; minor_axis := 24; aspect_ratio := 1;
     orientation := "unknown"; detected_type := "round" |}.

Definition middle : DiamondROI :=
  {| contour := [(20, 20); (70, 20); (120, 20); (120, 70);
                 (120, 120); (70, 120); (20, 120); (20, 70)]%Z;
     bounding_box := (20, 20, 101, 101)%Z; center := (70, 70);
     area := 10201; perimeter := 400; id := 0;
     major_axis := 116; minor_axis := 116; aspect_ratio := 1;
     orientation := "unknown"; detected_type := "round" |}.

Definition outer : DiamondROI :=
  {| contour := [(0, 0); (150, 0); (150, 30); (30, 150); (0, 150)]%Z;
     bounding_box := (0, 0, 151, 151)%Z; center := (895500 / 15300, 895500 / 15300);
     area := 15541; perimeter := 529.7056; id := 2;
     major_axis := 175; minor_axis := 140; aspect_ratio := 140 / 175;
     orientation := "unknown"; detected_type := "other" |}.

End Examples.

(* ================================================================== *)
(** ** What the specification says, in its own words *)

Module Spec.
Local Open Scope R_scope.

(** [clamp(x, lo, hi)]. *)
Definition clamp (x lo hi : R) : R := Rmax lo (Rmin x hi).

(** Section 4.4: [clamp(10 (edge_distance - threshold) / (6 radius - threshold), 0, 10)]. *)
Definition ramp (edge_distance threshold radius : R) : R :=
  clamp (10 * (edge_distance - threshold) / (6 * radius - threshold)) 0 10.

(** Section 4.3, the rule-based fallback, rule by rule. *)
Definition mean3 (a b c : R) : R := (a + b + c) / 3.

Definition holds (P : Prop) (d : {P} + {~ P}) : bool :=
  if d then true else false.

Definition at_least_two (p q r : bool) : bool :=
  (p && q) || (p && r) || (q && r).

Definition fallback_decision (outline reflection aspect : R)
    (has_spot : bool) (spot_sym : R) : string * R :=
  let strong :=
    holds _ (Rge_dec outline 0.70) && holds _ (Rge_dec reflection 0.65)
    && holds _ (Rge_dec aspect 0.58) in
  let weak :=
    at_least_two (holds _ (Rlt_dec outline 0.60))
                 (holds _ (Rlt_dec reflection 0.55))
                 (holds _ (Rlt_dec aspect 0.52)) in
  if strong then ("table"%string, mean3 outline reflection aspect)
  else if weak then ("tilted"%string, 1 - mean3 outline reflection aspect)
  else
    let score := 0.25 * outline + 0.35 * reflection + 0.40 * aspect in
    let qualifying_spot := has_spot && holds _ (Rge_dec spot_sym 0.60) in
    let blend :=
      holds _ (Rlt_dec (Rabs (score - 0.60)) 0.05) && qualifying_spot in
    let final := if blend then 0.7 * score + 0.3 * spot_sym else score in
    if holds _ (Rge_dec final 0.60) then ("table"%string, final)
    else ("tilted"%string, 1 - final).

(** A score in the closed interval [[0, 1]]. *)
Definition in_unit_interval (x : NP.npfloat) : Prop :=
  match x with
  | NP.Fin v => 0 <= v <= 1
  | _ => False
  end.

(** A mask whose pixels are all 0 or 1, as the merge pass outputs them. *)
Definition binary_valued (m : Detector.Mask) : Prop :=
  Forall (fun x : Q => x = 0%Q \/ x = 1%Q) m.

(** "An already-merged set": no mask satisfies a merge condition with a
    later mask of the list. *)
Definition merge_free (self : Detector.SAMDiamondDetector)
    (binary_masks : list Detector.BinMask) : Prop :=
  forall i j, (i < j < length binary_masks)%nat ->
    Detector.should_merge self (nth i binary_masks [])
      (Detector.mask_sum (nth i binary_masks [])) (nth j binary_masks [])
    = false.

(** Section 4.3 again, rule by rule, with every operation and comparison
    carried out in binary64. *)
Module Binary64.
Import PrimFloat.
Local Open Scope string_scope.
Local Open Scope float_scope.
#[local] Set Warnings "-inexact-float".

Definition mean3 (a b c : float) : float := (a + b + c) / 3.

Definition fallback_decision (outline reflection aspect : float)
    (has_spot : bool) (spot_sym : float) : string * float :=
  let strong :=
    (0.70 <=? outline) && (0.65 <=? reflection) && (0.58 <=? aspect) in
  let weak :=
    at_least_two (outline <? 0.60) (reflection <? 0.55) (aspect <? 0.52) in
  if strong then ("table", mean3 outline reflection aspect)
  else if weak then ("tilted", 1 - mean3 outline reflection aspect)
  else
    let score := 0.25 * outline + 0.35 * reflection + 0.40 * aspect in
    let qualifying_spot := has_spot && (0.60 <=? spot_sym) in
    let blend := (abs (score - 0.60) <? 0.05) && qualifying_spot in
    let final := if blend then 0.7 * score + 0.3 * spot_sym else score in
    if 0.60 <=? final then ("table", final) else ("tilted", 1 - final).

End Binary64.

End Spec.

(* ================================================================== *)
(** ** Notions used by the further properties *)

Module Props.
Import Detector.

(** Pixel [p] belongs to the mask [m] once binarised. *)
Definition pixel_in (m : Mask) (p : nat) : Prop :=
  nth p (binarize m) false = true.

(** Pixel [p] belongs to one of the masks. *)
Definition covered (ms : list Mask) (p : nat) : Prop :=
  exists m, In m ms /\ pixel_in m p.

(** Pixel [p] belongs to one of the binary masks marked as used. *)
Definition used_cover (binary_masks : list BinMask) (used : list bool)
    (p : nat) : Prop :=
  exists j, nth j used false = true
            /\ nth p (nth j binary_masks []) false = true.

(** The greatest value of a list of areas, 0 for the empty list. *)
Definition largest (l : list Z) : Z :=
  match l with
  | [] => 0%Z
  | x :: l' => fold_left Z.max l' x
  end.

(** An array whose entries are [uint8] values. *)
Definition uint8_array (a : Symmetry.Array2) : Prop :=
  Forall (Forall (fun v => (0 <= v <= 255)%Z)) a.

(** The regions the loop of [detect] has collected when it hands them to
    [_remove_nested_rois]. *)
Definition collected (self : Detector.SAMDiamondDetector)
    (masks : list Detector.MaskMeasures) : list DiamondROI :=
  fst (fold_left (Detector.detect_step self) masks ([], 0%Z)).

End Props.

(* ================================================================== *)
(** * Properties *)

(** ** Deciding comparisons of real constants *)

(** Resolves the [Rlt_dec], [Rle_dec], ... tests of a goal whose
    operands are known well enough for [lra]. *)
Ltac real_cases :=
  repeat match goal with
    | |- context [Rlt_dec ?a ?b] => destruct (Rlt_dec a b); try lra
    | |- context [Rle_dec ?a ?b] => destruct (Rle_dec a b); try lra
    | |- context [Rgt_dec ?a ?b] => destruct (Rgt_dec a b); try lra
    | |- context [Rge_dec ?a ?b] => destruct (Rge_dec a b); try lra
    | |- context [Req_dec_T ?a ?b] => destruct (Req_dec_T a b); try lra
    | |- context [total_order_T ?a ?b] =>
        destruct (total_order_T a b) as [[?|?]|?]; try lra
    end.

(** ** NumPy values *)

Section NumPyFacts.
Import NP.
Local Open Scope R_scope.

Lemma Rsign_pos (x : R) : 0 < x -> Rsign x = Gt.
Proof. intros H. unfold Rsign. real_cases; reflexivity. Qed.

Lemma Rsign_neg (x : R) : x < 0 -> Rsign x = Lt.
Proof. intros H. unfold Rsign. real_cases; reflexivity. Qed.

Lemma Rsign_zero : Rsign 0 = Eq.
Proof. unfold Rsign. real_cases; reflexivity. Qed.

Lemma ltb_Fin_true (x y : R) : x < y -> ltb (Fin x) (Fin y) = true.
Proof. intros H. simpl. real_cases; reflexivity. Qed.

Lemma ltb_Fin_false (x y : R) : y <= x -> ltb (Fin x) (Fin y) = false.
Proof. intros H. simpl. real_cases; reflexivity. Qed.

Lemma py_min_R_Rmin (a b : R) : py_min_R a b = Rmin a b.
Proof. unfold py_min_R, Rmin. real_cases. Qed.

Lemma np_le_trans (a b c : npfloat) : le a b -> le b c -> le a c.
Proof. destruct a, b, c; simpl; intros; try tauto; lra. Qed.

Lemma np_le_refl_fin (x : R) : le (Fin x) (Fin x).
Proof. simpl. lra. Qed.

Lemma py_max_R_Rmax (a b : R) : py_max_R a b = Rmax a b.
Proof. unfold py_max_R, Rmax. real_cases. Qed.

End NumPyFacts.

(** ** The rule-based decision *)

Section ClassifierFacts.
Import NP Classifier.
Local Open Scope R_scope.

(** Read over exact numbers, [_make_decision] with the default thresholds
    is the three-rule policy of the specification: where the interpreter
    answers differently, rounding is the cause. *)
Lemma make_decision_exact_is_documented_policy
    (outline reflection aspect spot_sym : R) (has_spot : bool) :
  _make_decision default_classifier outline reflection has_spot spot_sym aspect
  = Spec.fallback_decision outline reflection aspect has_spot spot_sym.
Proof.
  unfold _make_decision, Spec.fallback_decision, Spec.at_least_two,
    Spec.holds, Spec.mean3, Rgeb, Rltb.
  cbn [outline_sym_threshold reflection_sym_threshold spot_sym_threshold
       aspect_ratio_threshold default_classifier].
  destruct (Rge_dec outline 0.70), (Rge_dec reflection 0.65),
    (Rge_dec aspect 0.58), (Rlt_dec outline 0.60), (Rlt_dec reflection 0.55),
    (Rlt_dec aspect 0.52); cbn [andb orb Nat.add Nat.leb]; try reflexivity.
  all: set (score := 0.25 * outline + 0.35 * reflection + 0.40 * aspect).
  all: destruct (Rlt_dec (Rabs (score - 0.60)) 0.05), has_spot,
         (Rge_dec spot_sym 0.60); cbn [andb orb]; reflexivity.
Qed.

(** The tie-break of rule 3 at work: a score of 0.5925 is "tilted" alone
    and "table" once a symmetric spot is blended in. *)
Example make_decision_tie_break :
  _make_decision default_classifier 0.65 0.6 false 0 0.55
  = ("tilted"%string, 1 - (0.25 * 0.65 + 0.35 * 0.6 + 0.40 * 0.55))
  /\ _make_decision default_classifier 0.65 0.6 true 0.9 0.55
     = ("table"%string,
        0.7 * (0.25 * 0.65 + 0.35 * 0.6 + 0.40 * 0.55) + 0.3 * 0.9).
Proof.
  unfold _make_decision, Rgeb, Rltb.
  cbn [outline_sym_threshold reflection_sym_threshold spot_sym_threshold
       aspect_ratio_threshold default_classifier].
  assert (Hs : Rabs (0.25 * 0.65 + 0.35 * 0.6 + 0.40 * 0.55 - 0.60) < 0.05)
    by (apply Rabs_def1; lra).
  split.
  - destruct (Rge_dec 0.65 0.70); [lra|]. cbn [andb].
    destruct (Rlt_dec 0.65 0.60); [lra|].
    destruct (Rlt_dec 0.6 0.55); [lra|].
    destruct (Rlt_dec 0.55 0.52); [lra|]. cbn [Nat.leb].
    destruct (Rlt_dec _ 0.05); [|contradiction]. cbn [andb].
    destruct (Rge_dec _ 0.60); [lra|reflexivity].
  - destruct (Rge_dec 0.65 0.70); [lra|]. cbn [andb].
    destruct (Rlt_dec 0.65 0.60); [lra|].
    destruct (Rlt_dec 0.6 0.55); [lra|].
    destruct (Rlt_dec 0.55 0.52); [lra|]. cbn [Nat.leb].
    destruct (Rlt_dec _ 0.05); [|contradiction].
    destruct (Rge_dec 0.9 0.60); [|lra]. cbn [andb].
    destruct (Rge_dec _ 0.60); [reflexivity|lra].
Qed.

End ClassifierFacts.

(** ** The rule-based decision in binary64 *)

Section DecisionBinary64.
Import PrimFloat.
Local Open Scope float_scope.
#[local] Set Warnings "-inexact-float".

(** C4 (amended).  With the default thresholds, [_make_decision] is the
    three-rule policy of the specification on all binary64 inputs, every
    sum, product, quotient and comparison of the policy being carried out
    in binary64 as well. *)
Theorem make_decision_is_documented_policy
    (outline reflection aspect spot_sym : float) (has_spot : bool) :
  Binary64._make_decision Binary64.default_classifier outline reflection
    has_spot spot_sym aspect
  = Spec.Binary64.fallback_decision outline reflection aspect has_spot spot_sym.
Proof.
  unfold Binary64._make_decision, Spec.Binary64.fallback_decision,
    Spec.Binary64.mean3, Spec.at_least_two, Binary64.geb.
  cbn [Binary64.outline_sym_threshold Binary64.reflection_sym_threshold
       Binary64.spot_sym_threshold Binary64.aspect_ratio_threshold
       Binary64.default_classifier].
  destruct (0.70 <=? outline), (0.65 <=? reflection), (0.58 <=? aspect),
    (outline <? 0.60), (reflection <? 0.55), (aspect <? 0.52);
    cbn [andb orb Nat.add Nat.leb]; try reflexivity.
  all: set (score := 0.25 * outline + 0.35 * reflection + 0.40 * aspect).
  all: destruct (abs (score - 0.60) <? 0.05), has_spot, (0.60 <=? spot_sym);
       cbn [andb orb]; reflexivity.
Qed.

(** C4 (counterexample).  The policy evaluated over exact numbers is not
    what the code returns.  At (0.875, 0.875, 0.1875) without a spot the
    weighted score is exactly 0.60, "table", and the binary64 score is
    0.59999999999999987, "tilted"; at (0.625, 0.125, 0.875) with a spot of
    symmetry 1 the exact score is 0.55, outside the 0.05 window, "tilted",
    and the binary64 score is within the window, so the spot is blended in:
    "table" with confidence 0.685. *)
Lemma make_decision_rounding_flips_label :
  (Binary64._make_decision Binary64.default_classifier 0.875 0.875 false 0
     0.1875
   = ("tilted"%string, 0.40000000000000013)
   /\ fst (Spec.fallback_decision 0.875 0.875 0.1875 false 0) = "table"%string)
  /\ (Binary64._make_decision Binary64.default_classifier 0.625 0.125 true 1
        0.875
      = ("table"%string, 0.685)
      /\ fst (Spec.fallback_decision 0.625 0.125 0.875 true 1)
         = "tilted"%string).
Proof.
  split; split.
  - vm_compute. reflexivity.
  - unfold Spec.fallback_decision, Spec.holds, Spec.at_least_two.
    destruct (Rge_dec 0.875 0.70); [|lra]. destruct (Rge_dec 0.875 0.65); [|lra].
    destruct (Rge_dec 0.1875 0.58); [lra|]. cbn [andb].
    destruct (Rlt_dec 0.875 0.60); [lra|]. destruct (Rlt_dec 0.875 0.55); [lra|].
    destruct (Rlt_dec 0.1875 0.52); [|lra]. cbn [andb orb].
    destruct (Rlt_dec _ 0.05) as [_|Hn];
      [|exfalso; apply Hn; apply Rabs_def1; lra].
    cbn [andb]. destruct (Rge_dec _ 0.60); [reflexivity|lra].
  - vm_compute. reflexivity.
  - unfold Spec.fallback_decision, Spec.holds, Spec.at_least_two.
    destruct (Rge_dec 0.625 0.70); [lra|]. cbn [andb].
    destruct (Rlt_dec 0.625 0.60); [lra|]. destruct (Rlt_dec 0.125 0.55); [|lra].
    destruct (Rlt_dec 0.875 0.52); [lra|]. cbn [andb orb].
    destruct (Rlt_dec _ 0.05) as [Hb|_];
      [apply Rabs_def2 in Hb; lra|].
    cbn [andb]. destruct (Rge_dec _ 0.60); [lra|reflexivity].
Qed.

(** X20.  The large-spot inputs change the result of [_make_decision] only
    when a spot is present, its symmetry reaches the spot threshold and the
    binary64 weighted score passes the test [abs(score - 0.60) < 0.05]; the
    result is then decided by the blended score. *)
Theorem spot_matters_only_near_boundary
    (self : Binary64.PureGeometricClassifier)
    (outline reflection aspect spot_sym : float) (has_spot : bool) :
  let without :=
    Binary64._make_decision self outline reflection false 0 aspect in
  let with_spot :=
    Binary64._make_decision self outline reflection has_spot spot_sym aspect in
  let primary_score := 0.25 * outline + 0.35 * reflection + 0.40 * aspect in
  with_spot = without
  \/ (has_spot = true
      /\ Binary64.geb spot_sym (Binary64.spot_sym_threshold self) = true
      /\ (abs (primary_score - 0.60) <? 0.05) = true
      /\ with_spot
         = (let final_score := 0.7 * primary_score + 0.3 * spot_sym in
            if Binary64.geb final_score 0.60
            then ("table"%string, final_score)
            else ("tilted"%string, 1 - final_score))).
Proof.
  cbv zeta. unfold Binary64._make_decision.
  destruct (Binary64.geb outline _ && Binary64.geb reflection _
            && Binary64.geb aspect _)%bool; [now left|].
  destruct (outline <? 0.60), (reflection <? 0.55), (aspect <? 0.52);
    cbn [Nat.add Nat.leb]; try (now left).
  all: destruct (abs _ <? 0.05); [|now left].
  all: destruct has_spot; cbn [andb]; [|now left].
  all: destruct (Binary64.geb spot_sym _); [|now left].
  all: right; repeat split; reflexivity.
Qed.
End DecisionBinary64.

(** ** Symmetry scores *)

Section SymmetryFacts.
Import NP Stats Symmetry Classifier.
Local Open Scope R_scope.

Lemma sum_repeat (c : R) (n : nat) : sum (repeat c n) = INR n * c.
Proof.
  induction n as [|n IH]; [simpl; lra|].
  cbn [repeat sum fold_right]. fold (sum (repeat c n)).
  rewrite IH, S_INR. lra.
Qed.

Lemma mean_repeat (c : R) (n : nat) : (0 < n)%nat -> mean (repeat c n) = c.
Proof.
  intros Hn. unfold mean. rewrite sum_repeat, repeat_length.
  field. apply not_0_INR. lia.
Qed.

Lemma map_repeat {A B : Type} (f : A -> B) (c : A) (n : nat) :
  map f (repeat c n) = repeat (f c) n.
Proof. induction n as [|n IH]; [reflexivity|]. simpl. now rewrite IH. Qed.

(** A constant array has standard deviation zero... *)
Lemma std_repeat (c : R) (n : nat) : (0 < n)%nat -> std (repeat c n) = 0.
Proof.
  intros Hn. unfold std. rewrite (mean_repeat c n Hn), map_repeat.
  replace ((c - c) * (c - c)) with 0 by lra.
  rewrite (mean_repeat 0 n Hn). apply sqrt_0.
Qed.

(** ... and is normalised to the zero array. *)
Lemma normalize_repeat (c : R) (n : nat) :
  (0 < n)%nat -> normalize (repeat c n) = repeat 0 n.
Proof.
  intros Hn. unfold normalize. rewrite (mean_repeat c n Hn), map_repeat.
  f_equal. unfold Rdiv. lra.
Qed.

Lemma sum_zip_zero_left (n : nat) (k : R) (ys : list R) :
  sum (zip_with (fun x y => (x - 0) * (y - k)) (repeat 0 n) ys) = 0.
Proof.
  revert ys. induction n as [|n IH]; intros [|y ys]; try reflexivity.
  cbn [repeat zip_with sum fold_right].
  fold (sum (zip_with (fun x y => (x - 0) * (y - k)) (repeat 0 n) ys)).
  rewrite IH. lra.
Qed.

Lemma cov_zero_left (n : nat) (ys : list R) :
  (0 < n)%nat -> cov (repeat 0 n) ys = 0.
Proof.
  intros Hn. unfold cov. rewrite (mean_repeat 0 n Hn).
  rewrite sum_zip_zero_left. unfold Rdiv. lra.
Qed.

(** The correlation with a zero array is [0/0]. *)
Lemma corrcoef_zero_left (n : nat) (ys : list R) :
  (0 < n)%nat -> corrcoef (repeat 0 n) ys = NaN.
Proof.
  intros Hn. unfold corrcoef. rewrite !cov_zero_left by exact Hn.
  rewrite sqrt_0. cbn [div]. rewrite Rsign_zero. reflexivity.
Qed.

(** [compute_mirror_symmetry] has no branch for a constant side: the
    correlation is [nan] and so is the score. *)
Lemma mirror_symmetry_constant_left (c : R) (n : nat) (right_pixels : list R) :
  (10 <= n)%nat ->
  compute_mirror_symmetry (repeat c n) right_pixels = NaN.
Proof.
  intros Hn. unfold compute_mirror_symmetry. rewrite repeat_length.
  destruct (Nat.ltb_spec n 10); [lia|].
  destruct (Nat.ltb_spec n 2); [lia|].
  rewrite normalize_repeat by lia. rewrite corrcoef_zero_left by lia.
  reflexivity.
Qed.

(** [_analyze_reflection_symmetry] has the branch: with a near-constant
    side, or a [nan] correlation, the score is the clipped brightness
    similarity. *)
Lemma reflection_symmetry_fallback (num_spots : Z) (m00 : R)
    (left_pixels right_pixels : list R) :
  num_spots <> 0%Z -> m00 <> 0 -> (10 <= length left_pixels)%nat ->
  std left_pixels < 1e-6 \/ std right_pixels < 1e-6
  \/ corrcoef
       (map (fun x => (x - mean left_pixels) / (std left_pixels + 1e-8))
            left_pixels)
       (map (fun x => (x - mean right_pixels) / (std right_pixels + 1e-8))
            right_pixels) = NaN ->
  _analyze_reflection_symmetry num_spots m00 left_pixels right_pixels
  = (clip (Fin (1 - Rabs (mean left_pixels - mean right_pixels) / 255)) 0 1,
     num_spots).
Proof.
  intros Hs Hm Hn H. unfold _analyze_reflection_symmetry.
  destruct (Z.eqb_spec num_spots 0); [contradiction|].
  destruct (Req_dec_T m00 0); [contradiction|].
  destruct (Nat.ltb_spec (length left_pixels) 10); [lia|].
  destruct (Nat.ltb_spec (length left_pixels) 2); [lia|].
  unfold Rltb.
  destruct (Rlt_dec (std left_pixels) 1e-6); [reflexivity|].
  destruct (Rlt_dec (std right_pixels) 1e-6); [reflexivity|].
  cbn [orb]. destruct H as [H|[H|H]]; [contradiction|contradiction|].
  rewrite H. cbn [isnan add div].
  rewrite Rsign_pos by lra. cbn [clip].
  set (bd := Rabs (mean left_pixels - mean right_pixels) / 255).
  replace ((1 - 2 * bd + 1) / 2) with (1 - bd) by lra. reflexivity.
Qed.

(** C3 (the code at the failing input).  Ten valid pixels of value 128 on
    both sides: [compute_mirror_symmetry] computes the correlation of two
    zero arrays and returns [nan], while [_analyze_reflection_symmetry]
    takes its near-zero-deviation branch on the same pixels and returns the
    brightness similarity, 1. *)
Theorem mirror_symmetry_lacks_uniform_fallback :
  compute_mirror_symmetry Examples.uniform_pixels Examples.uniform_pixels = NaN
  /\ _analyze_reflection_symmetry 1 1 Examples.uniform_pixels
       Examples.uniform_pixels
     = (Fin 1, 1%Z).
Proof.
  unfold Examples.uniform_pixels. split.
  - apply mirror_symmetry_constant_left. lia.
  - rewrite reflection_symmetry_fallback.
    + rewrite mean_repeat by lia.
      replace (128 - 128) with 0 by lra. rewrite Rabs_R0. cbn [clip].
      replace (1 - 0 / 255) with 1 by lra.
      rewrite Rmax_left by lra. rewrite Rmin_left by lra. reflexivity.
    + discriminate.
    + lra.
    + rewrite repeat_length. lia.
    + left. rewrite std_repeat by lia. lra.
Qed.

Lemma clip_unit_interval (x : npfloat) :
  x <> NaN -> Spec.in_unit_interval (clip x 0 1).
Proof.
  destruct x as [v| | |]; intros H; cbn [clip Spec.in_unit_interval].
  - unfold Rmax. destruct (Rle_dec v 0); unfold Rmin;
      match goal with |- context [Rle_dec ?a ?b] => destruct (Rle_dec a b) end;
      lra.
  - lra.
  - unfold Rmin. destruct (Rle_dec 0 1); lra.
  - contradiction.
Qed.

(** The mirror symmetry score is in [[0, 1]] whenever it is a number. *)
Lemma mirror_symmetry_range (left_pixels right_pixels : list R) :
  compute_mirror_symmetry left_pixels right_pixels = NaN
  \/ Spec.in_unit_interval (compute_mirror_symmetry left_pixels right_pixels).
Proof.
  unfold compute_mirror_symmetry.
  destruct (length left_pixels <? 10)%nat; [right; simpl; lra|].
  destruct (length left_pixels <? 2)%nat; [right; simpl; lra|].
  match goal with |- clip ?x 0 1 = NaN \/ _ => destruct x eqn:Hx end;
    try (right; apply clip_unit_interval; discriminate).
  now left.
Qed.

(** The reflection symmetry score is always in [[0, 1]]. *)
Lemma reflection_symmetry_range (num_spots : Z) (m00 : R)
    (left_pixels right_pixels : list R) :
  Spec.in_unit_interval
    (fst (_analyze_reflection_symmetry num_spots m00 left_pixels right_pixels)).
Proof.
  unfold _analyze_reflection_symmetry.
  destruct (num_spots =? 0)%Z; [simpl; lra|].
  destruct (Req_dec_T m00 0); [simpl; lra|].
  destruct (length left_pixels <? 10)%nat; [simpl; lra|].
  destruct (length left_pixels <? 2)%nat; [simpl; lra|].
  destruct (Rltb (std left_pixels) 1e-6 || Rltb (std right_pixels) 1e-6).
  - cbn [fst]. apply clip_unit_interval. discriminate.
  - cbn [fst]. apply clip_unit_interval.
    match goal with |- context [isnan ?c] => destruct c as [v| | |] eqn:Hc end;
      cbn [isnan add div]; try discriminate;
      rewrite Rsign_pos by lra; discriminate.
Qed.

(** The spot symmetry score is in [[0, 1]]. *)
Lemma spot_symmetry_range (m00 : R) (left_valid right_valid : list Z) :
  0 <= _measure_spot_symmetry m00 left_valid right_valid <= 1.
Proof.
  unfold _measure_spot_symmetry.
  destruct (Req_dec_T m00 0); [lra|].
  destruct (length left_valid <? 10)%nat; [lra|].
  destruct (Nat.ltb_spec 0 (length left_valid)) as [Hpos|]; [|lra].
  set (matching := length (filter _ _)).
  assert (Hle : (matching <= length left_valid)%nat).
  { unfold matching. etransitivity; [apply filter_length_le|].
    rewrite length_combine. lia. }
  apply le_INR in Hle. apply lt_INR in Hpos. simpl in Hpos.
  pose proof (pos_INR matching) as Hm.
  split.
  - apply Rmult_le_pos; [exact Hm|].
    left. now apply Rinv_0_lt_compat.
  - apply Rmult_le_reg_r with (INR (length left_valid)); [exact Hpos|].
    unfold Rdiv. rewrite Rmult_assoc, Rinv_l by lra. lra.
Qed.

(** The aspect ratio is in [[0, 1]] for the non-negative axes that
    [cv2.fitEllipse] returns. *)
Lemma aspect_ratio_range (n : nat) (major minor : R) :
  0 <= major -> 0 <= minor ->
  0 <= _calculate_aspect_ratio n major minor <= 1.
Proof.
  intros HM Hm. unfold _calculate_aspect_ratio.
  destruct (n <? 5)%nat; [lra|].
  rewrite py_max_R_Rmax, py_min_R_Rmin.
  destruct (Rgt_dec (Rmax major minor) 0) as [Hpos|]; [|lra].
  assert (Hmin : 0 <= Rmin major minor) by (apply Rmin_glb; assumption).
  assert (Hle : Rmin major minor <= Rmax major minor)
    by (unfold Rmin, Rmax; destruct (Rle_dec major minor); lra).
  split.
  - apply Rmult_le_pos; [exact Hmin|]. left. now apply Rinv_0_lt_compat.
  - apply Rmult_le_reg_r with (Rmax major minor); [lra|].
    unfold Rdiv. rewrite Rmult_assoc, Rinv_l by lra. lra.
Qed.

(** The circularity of a contour of non-negative area is in [[0, 1]]. *)
Lemma circularity_range (area perimeter : R) :
  0 <= area -> 0 <= circularity area perimeter <= 1.
Proof.
  intros Ha. unfold circularity. rewrite py_min_R_Rmin.
  destruct (Rgt_dec perimeter 0) as [Hp|].
  - assert (H0 : 0 <= 4 * PI * area / (perimeter * perimeter)).
    { apply Rmult_le_pos.
      - apply Rmult_le_pos; [|exact Ha]. pose proof PI_RGT_0. lra.
      - left. apply Rinv_0_lt_compat. nra. }
    split; [apply Rmin_glb; lra|apply Rmin_r].
  - rewrite Rmin_left by lra. lra.
Qed.

(** C9 (the code at the failing input).  On the uniform patch both axis
    scores are [nan], and so is the outline symmetry
    [max(symmetry_major, symmetry_minor)]: it is not in [[0, 1]]. *)
Theorem outline_symmetry_of_uniform_patch_is_nan :
  best_symmetry
    (compute_mirror_symmetry Examples.uniform_pixels Examples.uniform_pixels)
    (compute_mirror_symmetry Examples.uniform_pixels Examples.uniform_pixels)
  = NaN
  /\ ~ Spec.in_unit_interval
        (best_symmetry
           (compute_mirror_symmetry Examples.uniform_pixels
              Examples.uniform_pixels)
           (compute_mirror_symmetry Examples.uniform_pixels
              Examples.uniform_pixels)).
Proof.
  unfold Examples.uniform_pixels.
  rewrite mirror_symmetry_constant_left by lia.
  split; [reflexivity|]. simpl. tauto.
Qed.

End SymmetryFacts.

(** ** Mask merging *)

Section MergeFacts.
Import Detector.

Lemma to_float32_binarize (m : Mask) :
  Spec.binary_valued m -> to_float32 (binarize m) = m.
Proof.
  induction 1 as [|x m Hx _ IH]; [reflexivity|].
  unfold binarize, to_float32 in *. cbn [map]. rewrite IH.
  destruct Hx as [->| ->]; reflexivity.
Qed.

Lemma nth_used_prefix (i k j : nat) :
  nth j (repeat true i ++ repeat false k) false = (j <? i)%nat.
Proof.
  revert j. induction i as [|i IH]; intros j; simpl.
  - destruct (nth_in_or_default j (repeat false k) false) as [Hin|Hd].
    + now apply repeat_spec in Hin.
    + exact Hd.
  - destruct j as [|j]; [reflexivity|]. apply IH.
Qed.

Lemma mark_used_prefix (i k : nat) :
  mark_used (repeat true i ++ repeat false (S k)) i
  = repeat true (S i) ++ repeat false k.
Proof.
  induction i as [|i IH]; simpl in *; [reflexivity|]. now rewrite IH.
Qed.

Lemma mark_used_length (used : list bool) (j : nat) :
  length (mark_used used j) = length used.
Proof.
  revert j. induction used as [|b u IH]; intros [|j]; simpl; auto.
Qed.

Lemma skipn_cons_nth {A : Type} (d : A) (l : list A) (i : nat) :
  (i < length l)%nat -> skipn i l = nth i l d :: skipn (S i) l.
Proof.
  revert i. induction l as [|a l IH]; intros i Hi; simpl in Hi; [lia|].
  destruct i as [|i]; [reflexivity|].
  change (skipn (S i) (a :: l)) with (skipn i l).
  change (nth (S i) (a :: l) d) with (nth i l d).
  rewrite (IH i) by lia. reflexivity.
Qed.

(** A pass over masks that are all used or do not satisfy a merge
    condition leaves the state as it is, with [changed = False]. *)
Lemma merge_pass_noop (self : SAMDiamondDetector) (bms : list BinMask)
    (cur : BinMask) (a : Z) (used : list bool) :
  (forall j, (j < length bms)%nat ->
     nth j used false = true
     \/ should_merge self cur a (nth j bms []) = false) ->
  merge_pass self bms cur a used = (cur, a, used, false).
Proof.
  intros H. unfold merge_pass.
  assert (G : forall js, (forall j, In j js -> (j < length bms)%nat) ->
              fold_left (merge_step self bms) js (cur, a, used, false)
              = (cur, a, used, false)).
  { induction js as [|j js IH]; intros Hjs; [reflexivity|].
    cbn [fold_left].
    assert (Hstep : merge_step self bms (cur, a, used, false) j
                    = (cur, a, used, false)).
    { unfold merge_step.
      destruct (H j (Hjs j (or_introl eq_refl))) as [-> | Hm];
        [reflexivity|].
      destruct (nth j used false); [reflexivity|]. now rewrite Hm. }
    rewrite Hstep. apply IH. intros j' Hj'. apply Hjs. now right. }
  apply G. intros j Hj. apply in_seq in Hj. lia.
Qed.

(** On a merge-free list the outer loop copies every mask in turn. *)
Lemma merge_outer_loop_free (self : SAMDiamondDetector) (bms : list BinMask) :
  Spec.merge_free self bms ->
  forall k i merged, (i + k = length bms)%nat ->
    fold_left (merge_outer_step self bms) (seq i k)
      (Some (merged, repeat true i ++ repeat false k))
    = Some ((merged ++ map to_float32 (firstn k (skipn i bms)))%list,
            repeat true (i + k) ++ repeat false 0).
Proof.
  intros Hfree. induction k as [|k IH]; intros i merged Hik.
  - simpl. rewrite Nat.add_0_r, !app_nil_r. reflexivity.
  - cbn [seq fold_left]. unfold merge_outer_step at 2.
    rewrite nth_used_prefix, Nat.ltb_irrefl, mark_used_prefix.
    cbn [merge_while].
    rewrite merge_pass_noop.
    + rewrite (IH (S i)) by lia.
      rewrite (@skipn_cons_nth BinMask [] bms i) by lia.
      cbn [firstn map]. rewrite <- app_assoc.
      replace (S i + k)%nat with (i + S k)%nat by lia. reflexivity.
    + intros j Hj. rewrite nth_used_prefix.
      destruct (Nat.ltb_spec j (S i)) as [Hlt|Hge]; [now left|right].
      apply Hfree. lia.
Qed.

(** Every [while changed] loop ends: each pass that sets [changed] marks
    one more mask as used. *)
Lemma mark_used_unused (used : list bool) (j : nat) :
  nth j used true = false ->
  S (unused (mark_used used j)) = unused used.
Proof.
  revert j. unfold unused.
  induction used as [|b u IH]; intros [|j] Hj; simpl in *; try discriminate.
  - subst b. reflexivity.
  - destruct b; simpl; now rewrite <- (IH j Hj).
Qed.

Lemma nth_default_irrelevant (used : list bool) (j : nat) :
  (j < length used)%nat -> nth j used true = nth j used false.
Proof. intros Hj. apply nth_indep. exact Hj. Qed.

Lemma merge_fold_progress (self : SAMDiamondDetector) (bms : list BinMask)
    (js : list nat) :
  forall cur a used ch cur' a' used' ch',
    (forall j, In j js -> (j < length used)%nat) ->
    fold_left (merge_step self bms) js (cur, a, used, ch)
    = (cur', a', used', ch') ->
    length used' = length used
    /\ (unused used' <= unused used)%nat
    /\ (ch' = true -> ch = true \/ (unused used' < unused used)%nat).
Proof.
  induction js as [|j js IH]; intros cur a used ch cur' a' used' ch' Hjs Hf.
  - simpl in Hf. injection Hf as <- <- <- <-. repeat split; auto.
  - cbn [fold_left] in Hf. unfold merge_step at 2 in Hf.
    assert (Hj : (j < length used)%nat) by (apply Hjs; now left).
    assert (Hrest : forall u : list bool, length u = length used ->
                    forall j', In j' js -> (j' < length u)%nat).
    { intros u Hu j' Hj'. rewrite Hu. apply Hjs. now right. }
    destruct (nth j used false) eqn:Hnth.
    + apply IH in Hf; [exact Hf|]. now apply Hrest.
    + destruct (should_merge self cur a (nth j bms [])).
      * apply IH in Hf; [|apply Hrest, mark_used_length].
        destruct Hf as (Hl & Hle & Hch).
        rewrite mark_used_length in Hl.
        assert (Hm : S (unused (mark_used used j)) = unused used).
        { apply mark_used_unused. now rewrite nth_default_irrelevant. }
        repeat split; [exact Hl|lia|]. intros _. right. lia.
      * apply IH in Hf; [exact Hf|]. now apply Hrest.
Qed.

Lemma merge_while_returns (self : SAMDiamondDetector) (bms : list BinMask) :
  forall fuel cur a used,
    length used = length bms -> (unused used < fuel)%nat ->
    exists cur' used',
      merge_while fuel self bms cur a used = Some (cur', used')
      /\ length used' = length bms.
Proof.
  induction fuel as [|fuel IH]; intros cur a used Hlen Hfuel; [lia|].
  cbn [merge_while].
  destruct (merge_pass self bms cur a used) as [[[cur1 a1] used1] ch] eqn:Hp.
  unfold merge_pass in Hp. apply merge_fold_progress in Hp.
  - destruct Hp as (Hl & Hle & Hch). destruct ch.
    + apply IH; [congruence|]. destruct (Hch eq_refl); [discriminate|lia].
    + exists cur1, used1. split; [reflexivity|congruence].
  - intros j Hj. apply in_seq in Hj. lia.
Qed.

Lemma unused_le_length (used : list bool) : (unused used <= length used)%nat.
Proof. unfold unused. apply filter_length_le. Qed.

(** [_merge_masks] always returns: the bound on the passes is never
    reached. *)
Lemma merge_fuel_suffices (self : SAMDiamondDetector) (masks : list Mask) :
  exists merged, _merge_masks self masks = Some merged.
Proof.
  unfold _merge_masks.
  destruct (negb (merge_overlapping self) || (length masks =? 0)%nat);
    [now exists masks|].
  set (bms := map binarize masks).
  assert (G : forall js merged used, length used = length bms ->
              exists merged' used',
                fold_left (merge_outer_step self bms) js (Some (merged, used))
                = Some (merged', used') /\ length used' = length bms).
  { induction js as [|i js IH]; intros merged used Hlen.
    - exists merged, used. now split.
    - cbn [fold_left]. unfold merge_outer_step at 2.
      destruct (nth i used false); [now apply IH|].
      destruct (merge_while_returns self bms (S (length bms))
                  (nth i bms []) (mask_sum (nth i bms [])) (mark_used used i))
        as (cur' & used' & -> & Hl').
      + now rewrite mark_used_length.
      + pose proof (unused_le_length (mark_used used i)) as Hu.
        rewrite mark_used_length in Hu. lia.
      + now apply IH. }
  destruct (G (seq 0 (length bms)) [] (repeat false (length bms)))
    as (merged' & used' & -> & _).
  - apply repeat_length.
  - now exists merged'.
Qed.

(** C7 (amended).  With merging disabled every list is returned
    unchanged; with merging enabled, a list of 0/1 masks in which no mask
    satisfies a merge condition with a later one is returned unchanged. *)
Theorem merge_of_merged_set_unchanged
    (self : SAMDiamondDetector) (masks : list Mask) :
  merge_overlapping self = false
  \/ (Forall Spec.binary_valued masks
      /\ Spec.merge_free self (map binarize masks)) ->
  _merge_masks self masks = Some masks.
Proof.
  intros [Hoff|[Hbin Hfree]]; unfold _merge_masks.
  - now rewrite Hoff.
  - destruct (negb (merge_overlapping self) || (length masks =? 0)%nat);
      [reflexivity|].
    pose proof (merge_outer_loop_free self (map binarize masks) Hfree
                  (length (map binarize masks)) 0%nat [] eq_refl) as Hloop.
    cbn [repeat app] in Hloop. cbn [repeat app]. rewrite Hloop.
    cbn [skipn app]. rewrite firstn_all, map_map. f_equal.
    clear Hloop Hfree. induction Hbin as [|m masks Hm _ IH]; [reflexivity|].
    cbn [map]. now rewrite IH, to_float32_binarize.
Qed.

(** The wide mask and one small mask do not satisfy a merge condition. *)
Lemma merge_of_merged_set_unchanged_witness :
  _merge_masks (default_detector true)
    (map to_float32 [Examples.bitsA; Examples.bits2])
  = Some (map to_float32 [Examples.bitsA; Examples.bits2]).
Proof.
  apply merge_of_merged_set_unchanged. right. split.
  - unfold Spec.binary_valued. cbv [map to_float32 Examples.bitsA Examples.bits2].
    repeat first [ apply Forall_nil | apply Forall_cons
                 | left; reflexivity | right; reflexivity ].
  - intros i j Hij. cbn [map length] in Hij.
    assert (i = 0 /\ j = 1)%nat as [-> ->] by lia.
    vm_compute. reflexivity.
Defined.

(** C7 (counterexample).  The pass applied to [three_masks] keeps the wide
    mask and unions the two small ones; the two output masks satisfy a
    merge condition (containment 4/7), and the pass applied to its own
    output unions them. *)
Lemma merge_pass_not_idempotent :
  _merge_masks (default_detector true) Examples.three_masks
  = Some (map to_float32 [Examples.bitsA; Examples.bits23])
  /\ should_merge (default_detector true) Examples.bitsA
       (mask_sum Examples.bitsA) Examples.bits23 = true
  /\ _merge_masks (default_detector true)
       (map to_float32 [Examples.bitsA; Examples.bits23])
     = Some [to_float32 Examples.bits_all]
  /\ Some [to_float32 Examples.bits_all]
     <> Some (map to_float32 [Examples.bitsA; Examples.bits23]).
Proof.
  repeat split; try (vm_compute; reflexivity).
  vm_compute. discriminate.
Qed.

End MergeFacts.

(** ** Nested regions and shape category *)

Section DetectorFacts.
Import NP Detector.
Local Open Scope R_scope.

Lemma mem_In (i : nat) (l : list nat) : mem i l = true <-> In i l.
Proof.
  unfold mem. rewrite existsb_exists. split.
  - intros (x & Hx & Heq). apply Nat.eqb_eq in Heq. now subst.
  - intros H. exists i. split; [exact H|apply Nat.eqb_refl].
Qed.

Lemma mem_false (i : nat) (l : list nat) : mem i l = false <-> ~ In i l.
Proof.
  rewrite <- mem_In. destruct (mem i l); split; intros; easy.
Qed.

(** Elements of [combine (seq s n) l]: index and value. *)
Lemma in_combine_seq {A : Type} (l : list A) :
  forall s i a, In (i, a) (combine (seq s (length l)) l) <->
                (s <= i)%nat /\ nth_error l (i - s) = Some a.
Proof.
  induction l as [|x l IH]; intros s i a.
  - simpl. split; [tauto|]. intros [_ H]. now destruct (i - s)%nat.
  - cbn [length seq combine In]. rewrite IH. split.
    + intros [Heq|[Hle Hn]].
      * injection Heq as <- <-. split; [lia|]. now rewrite Nat.sub_diag.
      * split; [lia|]. replace (i - s)%nat with (S (i - S s)) by lia. exact Hn.
    + intros [Hle Hn]. destruct (Nat.eq_dec i s) as [->|Hne].
      * left. rewrite Nat.sub_diag in Hn. simpl in Hn. congruence.
      * right. split; [lia|].
        replace (i - s)%nat with (S (i - S s)) in Hn by lia. exact Hn.
Qed.

Lemma in_enumerate {A : Type} (l : list A) (i : nat) (a : A) :
  In (i, a) (enumerate l) <-> nth_error l i = Some a.
Proof.
  unfold enumerate. rewrite in_combine_seq, Nat.sub_0_r.
  split; [tauto|]. split; [lia|assumption].
Qed.

Lemma nth_error_combine_seq {A : Type} (l : list A) :
  forall s k, nth_error (combine (seq s (length l)) l) k
              = option_map (pair (s + k)%nat) (nth_error l k).
Proof.
  induction l as [|x l IH]; intros s k.
  - now destruct k.
  - destruct k as [|k]; cbn [length seq combine nth_error option_map].
    + now rewrite Nat.add_0_r.
    + rewrite IH. now replace (S s + k)%nat with (s + S k)%nat by lia.
Qed.

(** [enumerate] split at an index: the pairs before carry smaller
    indices. *)
Lemma combine_seq_split {A : Type} (l1 : list A) (x : A) (l2 : list A) :
  forall s,
    combine (seq s (length (l1 ++ x :: l2))) (l1 ++ x :: l2)
    = (combine (seq s (length l1)) l1
       ++ (s + length l1, x)%nat
          :: combine (seq (S (s + length l1)) (length l2)) l2)%list.
Proof.
  induction l1 as [|y l1 IH]; intros s.
  - cbn [app length seq combine]. now rewrite Nat.add_0_r.
  - cbn [app length seq combine]. rewrite IH.
    now replace (S s + length l1)%nat with (s + S (length l1))%nat by lia.
Qed.

Lemma enumerate_split {A : Type} (l : list A) (i : nat) (a : A) :
  nth_error l i = Some a ->
  exists pre post,
    enumerate l = (pre ++ (i, a) :: post)%list
    /\ forall x, In x (map fst pre) -> (x < i)%nat.
Proof.
  intros H. apply nth_error_split in H as (l1 & l2 & -> & <-).
  unfold enumerate. rewrite combine_seq_split.
  eexists _, _. split; [reflexivity|].
  intros x Hx. apply in_map_iff in Hx as ([x' a'] & <- & Hin).
  apply in_combine_seq in Hin as [_ Hin]. simpl.
  assert (Hlt : (x' - 0 < length l1)%nat) by (apply nth_error_Some; congruence).
  lia.
Qed.

Lemma sorted_filter_combine_seq {A : Type} (p : nat * A -> bool) (l : list A) :
  forall s, StronglySorted lt (map fst (filter p (combine (seq s (length l)) l))).
Proof.
  induction l as [|x l IH]; intros s; [constructor|].
  cbn [length seq combine filter].
  destruct (p (s, x)); [|apply IH].
  cbn [map fst]. constructor; [apply IH|].
  apply Forall_forall. intros i Hi.
  apply in_map_iff in Hi as ([i' a] & <- & Hin).
  apply filter_In in Hin as [Hin _].
  apply in_combine_seq in Hin. simpl. lia.
Qed.

Lemma reindex_nth (l : list DiamondROI) (k : nat) :
  nth_error (reindex l) k
  = option_map (fun r => set_id r (Z.of_nat k)) (nth_error l k).
Proof.
  unfold reindex, enumerate. rewrite nth_error_map, nth_error_combine_seq.
  now destruct (nth_error l k).
Qed.

Lemma reindex_length (l : list DiamondROI) : length (reindex l) = length l.
Proof.
  unfold reindex, enumerate.
  rewrite length_map, length_combine, length_seq. lia.
Qed.

Lemma set_id_same (r : DiamondROI) : set_id r (id r) = r.
Proof. now destruct r. Qed.

Section NestedFacts.

Variable pt : Contour -> R * R -> R.

Lemma nested_in_true_iff (A B : DiamondROI) :
  nested_in pt A B = true <->
  area A < area B
  /\ pt (contour B) (center A) >= 0
  /\ bbox_contained (bounding_box A) (bounding_box B) = true.
Proof.
  unfold nested_in.
  destruct (Rge_dec (area A) (area B));
    [split; [discriminate|intros [? _]; lra]|].
  destruct (Rge_dec (pt (contour B) (center A)) 0).
  - split; [intros H; repeat split; [lra|assumption|exact H]|tauto].
  - split; [discriminate|tauto].
Qed.

(** The inner loop finds a region that removes [roi_i] whenever one is
    there that is not [roi_i] itself and has not been removed. *)
Lemma nested_scan_finds (to_remove : list nat) (i : nat) (roi_i : DiamondROI)
    (js : list (nat * DiamondROI)) :
  (exists j roi_j, In (j, roi_j) js /\ i <> j /\ ~ In j to_remove
                   /\ nested_in pt roi_i roi_j = true) ->
  nested_scan pt to_remove i roi_i js = true.
Proof.
  induction js as [|[j' r'] js IH]; intros (j & roi_j & Hin & Hne & Hnr & Hn).
  - destruct Hin.
  - cbn [nested_scan]. destruct Hin as [Heq|Hin].
    + injection Heq as -> ->.
      apply Nat.eqb_neq in Hne. apply mem_false in Hnr.
      now rewrite Hne, Hnr, Hn.
    + destruct ((i =? j')%nat || mem j' to_remove);
        [|destruct (nested_in pt roi_i r'); [reflexivity|]];
        apply IH; exists j, roi_j; tauto.
Qed.

Lemma nested_fold_mono (rois : list DiamondROI) (ps : list (nat * DiamondROI)) :
  forall to_remove x,
    In x to_remove -> In x (fold_left (nested_step pt rois) ps to_remove).
Proof.
  induction ps as [|[i r] ps IH]; intros tr x Hx; [exact Hx|].
  cbn [fold_left]. apply IH. unfold nested_step.
  destruct (mem i tr); [exact Hx|].
  destruct (nested_scan pt tr i r (enumerate rois)); [now right|exact Hx].
Qed.

Lemma nested_fold_origin (rois : list DiamondROI)
    (ps : list (nat * DiamondROI)) :
  forall to_remove x,
    In x (fold_left (nested_step pt rois) ps to_remove) ->
    In x to_remove \/ In x (map fst ps).
Proof.
  induction ps as [|[i r] ps IH]; intros tr x Hx; [now left|].
  cbn [fold_left] in Hx. apply IH in Hx as [Hx|Hx]; [|right; now right].
  unfold nested_step in Hx. destruct (mem i tr); [now left|].
  destruct (nested_scan pt tr i r (enumerate rois)); [|now left].
  destruct Hx as [<-|Hx]; [right; now left|now left].
Qed.

(** A region nested in a larger one is removed, unless the larger one had
    itself been removed before the region was examined. *)
Lemma nested_removed (rois : list DiamondROI) (a b : nat) (A B : DiamondROI) :
  nth_error rois a = Some A -> nth_error rois b = Some B ->
  nested_in pt A B = true ->
  (a < b)%nat \/ ~ In b (nested_indices pt rois) ->
  In a (nested_indices pt rois).
Proof.
  intros HA HB Hn Hb.
  assert (Hab : a <> b).
  { intros ->. rewrite HA in HB. injection HB as ->.
    apply nested_in_true_iff in Hn. lra. }
  destruct (enumerate_split rois a A HA) as (pre & post & Hsplit & Hpre).
  unfold nested_indices in *. rewrite Hsplit in *. clear Hsplit.
  rewrite fold_left_app in *. cbn [fold_left] in *.
  set (tr := fold_left (nested_step pt rois) pre []) in *.
  assert (Hbtr : ~ In b tr).
  { destruct Hb as [Hlt|Hnb].
    - intros Hin. apply nested_fold_origin in Hin as [[]|Hin].
      apply Hpre in Hin. lia.
    - intros Hin. apply Hnb. apply nested_fold_mono.
      unfold nested_step. destruct (mem a tr); [exact Hin|].
      destruct (nested_scan pt tr a A (enumerate rois));
        [now right|exact Hin]. }
  apply nested_fold_mono. unfold nested_step.
  destruct (mem a tr) eqn:Ha; [now apply mem_In|].
  rewrite nested_scan_finds; [now left|].
  exists b, B. repeat split; try assumption. now apply in_enumerate.
Qed.

(** What [_remove_nested_rois] returns for a list of at least two
    regions, or for one whose ids are already [0..n-1]: the regions at the
    surviving indices [idxs] in order, the [k]-th one with id [k]; a
    region nested in a larger one does not survive when the larger one
    survives or comes later in the list. *)
Lemma remove_nested_spec (rois : list DiamondROI) :
  (2 <= length rois)%nat
  \/ map id rois = map Z.of_nat (seq 0 (length rois)) ->
  exists idxs,
    StronglySorted lt idxs
    /\ length (_remove_nested_rois pt rois) = length idxs
    /\ (forall k i, nth_error idxs k = Some i ->
        exists A, nth_error rois i = Some A
                  /\ nth_error (_remove_nested_rois pt rois) k
                     = Some (set_id A (Z.of_nat k)))
    /\ (forall a b A B,
          nth_error rois a = Some A -> nth_error rois b = Some B ->
          area A < area B ->
          pt (contour B) (center A) >= 0 ->
          bbox_contained (bounding_box A) (bounding_box B) = true ->
          (a < b)%nat \/ In b idxs ->
          ~ In a idxs).
Proof.
  intros Hids. unfold _remove_nested_rois.
  destruct (Nat.leb_spec (length rois) 1) as [Hshort|Hlong].
  - destruct Hids as [Hlen|Hids]; [lia|].
    exists (seq 0 (length rois)). repeat split.
    + clear. generalize 0%nat. induction (length rois) as [|n IH]; intros s;
        [constructor|].
      cbn [seq]. constructor; [apply IH|].
      apply Forall_forall. intros x Hx. apply in_seq in Hx. lia.
    + now rewrite length_seq.
    + intros k i Hk.
      assert (Hki : i = k /\ (k < length rois)%nat).
      { rewrite nth_error_seq in Hk.
        destruct (Nat.ltb_spec k (length rois)); [|discriminate].
        injection Hk as <-. now split. }
      destruct Hki as [-> Hlt].
      destruct (nth_error rois k) as [A|] eqn:HA;
        [|apply nth_error_None in HA; lia].
      exists A. split; [reflexivity|]. f_equal.
      assert (Hid : nth_error (map id rois) k = Some (id A))
        by (rewrite nth_error_map, HA; reflexivity).
      rewrite Hids, nth_error_map, nth_error_seq in Hid.
      destruct (Nat.ltb_spec k (length rois)); [|lia]. simpl in Hid.
      injection Hid as Hid. rewrite Hid. symmetry. apply set_id_same.
    + intros a b A B HA HB Harea _ _ _ _.
      assert (a < length rois /\ b < length rois)%nat as [Ha Hb]
        by (split; apply nth_error_Some; congruence).
      assert (a = b) as -> by lia. rewrite HA in HB. injection HB as ->. lra.
  - set (tr := nested_indices pt rois).
    set (kept := kept_rois rois tr).
    assert (Hkept : forall i A, In (i, A) kept <->
                      nth_error rois i = Some A /\ ~ In i tr).
    { intros i A. unfold kept, kept_rois. rewrite filter_In, in_enumerate.
      cbn [fst]. rewrite negb_true_iff, mem_false. tauto. }
    exists (map fst kept). repeat split.
    + apply sorted_filter_combine_seq.
    + now rewrite reindex_length, !length_map.
    + intros k i Hk. rewrite nth_error_map in Hk.
      destruct (nth_error kept k) as [[i' A]|] eqn:Hnk; [|discriminate].
      injection Hk as ->. exists A. split.
      * apply nth_error_In in Hnk. now apply Hkept in Hnk.
      * rewrite reindex_nth, nth_error_map, Hnk. reflexivity.
    + intros a b A B HA HB Harea Hin Hbox Hb Ha.
      apply in_map_iff in Ha as ([a' A'] & Ha' & Ha).
      cbn [fst] in Ha'. subst a'. apply Hkept in Ha as [_ Ha].
      apply Ha. apply (nested_removed rois a b A B HA HB).
      * apply nested_in_true_iff. tauto.
      * destruct Hb as [Hlt|Hb]; [now left|right].
        apply in_map_iff in Hb as ([b' B'] & Hb' & Hb).
        cbn [fst] in Hb'. subst b'. now apply Hkept in Hb.
Qed.

End NestedFacts.

Lemma larger_not_nested (pt : Contour -> R * R -> R) (A B : DiamondROI) :
  area B <= area A -> nested_in pt A B = false.
Proof.
  intros H. unfold nested_in.
  destruct (Rge_dec (area A) (area B)); [reflexivity|lra].
Qed.

(** The shape category computed from a pair of axes is "round" exactly
    when the major axis is positive and minor/major exceeds 0.85, and
    "other" in every other case. *)
Lemma shape_of_axes_spec (axes : R * R) :
  let '(major_axis, minor_axis, aspect, detected) := shape_of_axes axes in
  major_axis = Rmax (fst axes) (snd axes)
  /\ minor_axis = Rmin (fst axes) (snd axes)
  /\ (detected = "round"%string
      <-> 0 < major_axis /\ minor_axis / major_axis > 0.85)
  /\ (detected = "other"%string
      <-> ~ (0 < major_axis /\ minor_axis / major_axis > 0.85)).
Proof.
  unfold shape_of_axes. rewrite py_min_R_Rmin.
  rewrite py_max_R_Rmax.
  set (major_axis := Rmax (fst axes) (snd axes)).
  set (minor_axis := Rmin (fst axes) (snd axes)).
  split; [reflexivity|]. split; [reflexivity|].
  destruct (Rgt_dec major_axis 0) as [Hpos|Hnpos];
    [destruct (Rgt_dec (minor_axis / major_axis) 0.85) as [Hr|Hr]
    |destruct (Rgt_dec 0 0.85) as [H0|H0]; [lra|]].
  all: repeat split; intros;
    repeat match goal with
      | H : _ /\ _ |- _ => destruct H
      end;
    try discriminate; try lra; try (split; lra).
Qed.

End DetectorFacts.

(** ** The pickup grader *)

Section GraderFacts.
Import NP Grader.
Local Open Scope R_scope.

(** The grade is [-1] below the threshold. *)
Lemma grade_of_invalid (e t r : R) : e < t -> grade_of (Fin e) t r = Fin (-1).
Proof. intros H. unfold grade_of. now rewrite ltb_Fin_true. Qed.

(** From the threshold on, and away from the degenerate [6 r = t], the
    grade is the clamped linear ramp. *)
Lemma grade_of_ramp (e t r : R) :
  t <= e -> 6 * r <> t ->
  grade_of (Fin e) t r = Fin (Spec.ramp e t r).
Proof.
  intros Hte Hne. unfold grade_of. rewrite ltb_Fin_false by exact Hte.
  assert (Hs : Rsign (6 * r - t) <> Eq).
  { unfold Rsign. real_cases; discriminate. }
  assert (Hd : div (sub (Fin e) (Fin t)) (Fin (6 * r - t))
               = Fin ((e - t) / (6 * r - t))).
  { simpl. destruct (Rsign (6 * r - t)); [congruence| |]; f_equal; lra. }
  rewrite Hd. cbn [mul].
  unfold Spec.ramp, Spec.clamp, py_max, py_min.
  set (x := (e - t) / (6 * r - t)).
  replace (10 * (e - t) / (6 * r - t)) with (x * 10) by (unfold x; field; lra).
  cbn [ltb]. unfold Rmin.
  destruct (Rle_dec (x * 10) 10); unfold Rmax;
    destruct (Rlt_dec 0 (x * 10)); cbn [ltb]; real_cases; try reflexivity;
    f_equal; lra.
Qed.

(** The degenerate denominators: [x/0] is [+inf] (grade 10) for a positive
    numerator and [nan] (grade 0) for [0/0]. *)
Lemma grade_of_zero_span (e t r : R) :
  t <= e -> 6 * r = t ->
  grade_of (Fin e) t r = Fin (if Rlt_dec t e then 10 else 0).
Proof.
  intros Hte Heq. unfold grade_of. rewrite ltb_Fin_false by exact Hte.
  replace (6 * r - t) with 0 by lra. simpl. rewrite Rsign_zero.
  destruct (Rlt_dec t e) as [Hlt|Hnlt].
  - rewrite (Rsign_pos (e + - t)) by lra. simpl.
    rewrite (Rsign_pos 10) by lra. reflexivity.
  - replace (e + - t) with 0 by lra. rewrite Rsign_zero.
    unfold py_min, py_max. simpl. real_cases; reflexivity.
Qed.

(** Every grade of a finite distance is a finite number in [[-1, 10]]. *)
Lemma grade_of_finite (e t r : R) :
  exists g, grade_of (Fin e) t r = Fin g /\ -1 <= g <= 10.
Proof.
  destruct (Rlt_dec e t) as [Hlt|Hge].
  - exists (-1). rewrite grade_of_invalid by exact Hlt. split; [reflexivity|lra].
  - destruct (Req_dec_T (6 * r) t) as [Heq|Hne].
    + eexists. rewrite grade_of_zero_span by lra. split; [reflexivity|].
      destruct (Rlt_dec t e); lra.
    + exists (Spec.ramp e t r). rewrite grade_of_ramp by lra.
      split; [reflexivity|]. unfold Spec.ramp, Spec.clamp.
      generalize (10 * (e - t) / (6 * r - t)). intros x.
      unfold Rmin. destruct (Rle_dec x 10); unfold Rmax; real_cases.
Qed.

(** The loop of [grade_diamonds] is a [map]. *)
Lemma append_loop_map {A B : Type} (f : A -> B) (l : list A) (acc : list B) :
  fold_left (fun acc r => (acc ++ [f r])%list) l acc = (acc ++ map f l)%list.
Proof.
  revert acc. induction l as [|a l IH]; intros acc; simpl.
  - now rewrite app_nil_r.
  - rewrite IH, <- app_assoc. reflexivity.
Qed.

Lemma grade_diamonds_map (g : PickupGrader) (rois : list DiamondROI) :
  grade_diamonds g rois = map (grade_roi g rois) rois.
Proof. unfold grade_diamonds. now rewrite append_loop_map. Qed.

Lemma grade_diamonds_nth (g : PickupGrader) (rois : list DiamondROI)
    (i : nat) (r : DiamondROI) :
  nth_error rois i = Some r ->
  nth_error (grade_diamonds g rois) i = Some (grade_roi g rois r).
Proof.
  intros H. rewrite grade_diamonds_map, nth_error_map, H. reflexivity.
Qed.

(** Invariant of the nearest-neighbour loop: the running minimum only
    decreases, bounds the edge distance of every other region seen, and is
    either untouched or attained by one of them, with that pair's
    threshold. *)
Lemma scan_fold_spec (g : PickupGrader) (target : DiamondROI)
    (rois : list DiamondROI) :
  forall m t, scan_value m ->
  exists m' t',
    fold_left (scan_step g target) rois (m, t) = (m', t')
    /\ scan_value m'
    /\ le m' m
    /\ (forall o, In o rois -> id o <> id target ->
        le m' (Fin (edge_distance target o)))
    /\ ((m', t') = (m, t)
        \/ exists o, In o rois /\ id o <> id target
                    /\ m' = Fin (edge_distance target o)
                    /\ t' = py_min_R (_get_safety_threshold g target)
                                     (_get_safety_threshold g o)).
Proof.
  induction rois as [|r rois IH]; intros m t Hm.
  - exists m, t. simpl. repeat split; try tauto.
    destruct Hm as [->|[x ->]]; simpl; [exact I|lra].
  - cbn [fold_left].
    change (scan_step g target (m, t) r)
      with (if Z.eqb (id r) (id target) then (m, t)
            else if ltb (Fin (edge_distance target r)) m
                 then (Fin (edge_distance target r),
                       py_min_R (_get_safety_threshold g target)
                                (_get_safety_threshold g r))
                 else (m, t)).
    destruct (Z.eqb_spec (id r) (id target)) as [Heq|Hne].
    + destruct (IH m t Hm) as (m' & t' & Hf & Hv & Hle & Hall & Hatt).
      exists m', t'. repeat split; try assumption.
      * intros o [<-|Ho] Hid; [congruence|now apply Hall].
      * destruct Hatt as [Hatt|(o & Ho & Hid & H1 & H2)]; [now left|right].
        exists o. simpl. tauto.
    + set (d := edge_distance target r).
      destruct (ltb (Fin d) m) eqn:Hlt.
      * destruct (IH (Fin d) (py_min_R (_get_safety_threshold g target)
                                       (_get_safety_threshold g r)))
          as (m' & t' & Hf & Hv & Hle & Hall & Hatt).
        { right. now exists d. }
        exists m', t'. repeat split; try assumption.
        -- apply np_le_trans with (Fin d); [exact Hle|].
           destruct Hm as [->|[x ->]]; simpl in *; [exact I|].
           destruct (Rlt_dec d x); [lra|discriminate].
        -- intros o [<-|Ho] Hid; [exact Hle|now apply Hall].
        -- right. destruct Hatt as [Hatt|(o & Ho & Hid & H1 & H2)].
           ++ injection Hatt as -> ->. exists r. simpl. tauto.
           ++ exists o. simpl. tauto.
      * destruct (IH m t Hm) as (m' & t' & Hf & Hv & Hle & Hall & Hatt).
        exists m', t'. repeat split; try assumption.
        -- intros o [<-|Ho] Hid; [|now apply Hall].
           apply np_le_trans with m; [exact Hle|].
           destruct Hm as [->|[x ->]]; simpl in *; [discriminate|].
           fold d. destruct (Rlt_dec d x); [discriminate|lra].
        -- destruct Hatt as [Hatt|(o & Ho & Hid & H1 & H2)]; [now left|right].
           exists o. simpl. tauto.
Qed.

(** Without another region the scan never updates its state and reports
    the distance [0.0] (line 178), with the target's own threshold. *)
Lemma scan_isolated (g : PickupGrader) (target : DiamondROI)
    (rois : list DiamondROI) :
  (forall o, In o rois -> id o = id target) ->
  _find_nearest_edge_distance g target rois
  = (Fin 0, _get_safety_threshold g target).
Proof.
  intros Hall. unfold _find_nearest_edge_distance.
  assert (H : forall st, fold_left (scan_step g target) rois st = st).
  { induction rois as [|r rois IH]; intros st; simpl; [reflexivity|].
    rewrite <- (IH (fun o Ho => Hall o (or_intror Ho)) st) at 2. f_equal.
    unfold scan_step. destruct st as [m t].
    rewrite (Hall r (or_introl eq_refl)), Z.eqb_refl. reflexivity. }
  rewrite H. reflexivity.
Qed.

(** With at least one other region the scan returns the minimum edge
    distance over the other regions, and the threshold of a pair that
    attains it. *)
Lemma scan_with_neighbor (g : PickupGrader) (target : DiamondROI)
    (rois : list DiamondROI) :
  (exists o, In o rois /\ id o <> id target) ->
  exists e t,
    _find_nearest_edge_distance g target rois = (Fin e, t)
    /\ (forall o, In o rois -> id o <> id target ->
        e <= edge_distance target o)
    /\ (exists o, In o rois /\ id o <> id target
                 /\ e = edge_distance target o
                 /\ t = Rmin (_get_safety_threshold g target)
                             (_get_safety_threshold g o)).
Proof.
  intros (o & Ho & Hid). unfold _find_nearest_edge_distance.
  destruct (scan_fold_spec g target rois PInf (_get_safety_threshold g target))
    as (m' & t' & Hf & Hv & Hle & Hall & Hatt); [now left|].
  rewrite Hf. pose proof (Hall o Ho Hid) as Hbound.
  destruct Hv as [->|[e ->]]; [contradiction|].
  exists e, t'. simpl. split; [reflexivity|]. split.
  - intros o' Ho' Hid'. exact (Hall o' Ho' Hid').
  - destruct Hatt as [Hatt|(o' & Ho' & Hid' & H1 & H2)]; [discriminate|].
    exists o'. rewrite <- py_min_R_Rmin. injection H1 as ->. tauto.
Qed.

(** *** The example regions *)

Lemma disc_radius (i : Z) (cx cy : R) (o : string) :
  radius_of (Examples.disc i cx cy o) = 20.
Proof.
  unfold radius_of. simpl.
  replace (400 * PI / PI) with (20 * 20) by (field; apply PI_neq0).
  apply sqrt_square. lra.
Qed.





(** A region that is not skipped as tilted gets the grade of its scan. *)
Lemma grade_roi_graded (g : PickupGrader) (rois : list DiamondROI)
    (r : DiamondROI) (e : npfloat) (t : R) :
  (check_orientation g && String.eqb (orientation r) "tilted")%bool = false ->
  _find_nearest_edge_distance g r rois = (e, t) ->
  grade_roi g rois r
  = mkGradedDiamond r (Some (grade_of e t (radius_of r))) (Some e) (radius_of r).
Proof. intros Ht Hs. unfold grade_roi. rewrite Ht, Hs. reflexivity. Qed.

(** The linear ramp does not decrease with the edge distance. *)
Lemma ramp_monotone (d1 d2 t r : R) :
  t <= d1 -> d1 <= d2 -> 6 * r <> t ->
  Spec.ramp d1 t r <= Spec.ramp d2 t r.
Proof.
  intros H1 H2 Hne. unfold Spec.ramp, Spec.clamp, Rdiv.
  set (k := / (6 * r - t)).
  assert (Hk : 0 < k \/ k < 0).
  { destruct (Rlt_dec 0 (6 * r - t)).
    - left. now apply Rinv_0_lt_compat.
    - right. apply Rinv_lt_0_compat. lra. }
  assert (Hx : 10 * (d1 - t) * k <= 10 * (d2 - t) * k
               \/ (10 * (d1 - t) * k <= 0 /\ 10 * (d2 - t) * k <= 0)).
  { destruct Hk; [left|right]; [|split]; nra. }
  revert Hx. generalize (10 * (d1 - t) * k) (10 * (d2 - t) * k).
  intros x y Hx. unfold Rmin.
  destruct (Rle_dec x 10), (Rle_dec y 10); unfold Rmax; real_cases.
Qed.

(** A region without any other region is reported at distance [0.0] and,
    with a positive safety threshold, graded [-1]. *)
Lemma isolated_graded_invalid (g : PickupGrader) (rois : list DiamondROI)
    (r : DiamondROI) :
  (forall o, In o rois -> id o = id r) ->
  (check_orientation g && String.eqb (orientation r) "tilted")%bool = false ->
  0 < _get_safety_threshold g r ->
  grade_roi g rois r
  = mkGradedDiamond r (Some (Fin (-1))) (Some (Fin 0)) (radius_of r).
Proof.
  intros Hall Ht Hpos.
  rewrite (grade_roi_graded g rois r (Fin 0) (_get_safety_threshold g r) Ht)
    by now apply scan_isolated.
  now rewrite grade_of_invalid.
Qed.

(** C1 (the code at the failing input).  One round, table-up region of
    radius 20 alone in its image, graded by [PickupGrader()]: the scan
    reports the edge distance [0.0], not infinity, and the region is graded
    [-1] (invalid), not 10. *)
Theorem isolated_region_is_graded_invalid :
  _find_nearest_edge_distance Examples.grader_radius Examples.regionA
    [Examples.regionA]
  = (Fin 0, 20)
  /\ grade_diamonds Examples.grader_radius [Examples.regionA]
     = [mkGradedDiamond Examples.regionA (Some (Fin (-1))) (Some (Fin 0)) 20].
Proof.
  assert (Hthr : _get_safety_threshold Examples.grader_radius Examples.regionA
                 = 20).
  { unfold _get_safety_threshold. simpl. apply disc_radius. }
  assert (Hiso : forall o, In o [Examples.regionA] -> id o = id Examples.regionA).
  { intros o [<-|[]]. reflexivity. }
  split.
  - rewrite scan_isolated by exact Hiso. now rewrite Hthr.
  - rewrite grade_diamonds_map. simpl map.
    rewrite isolated_graded_invalid; [|exact Hiso|reflexivity|rewrite Hthr; lra].
    unfold Examples.regionA. now rewrite disc_radius.
Qed.



(** C5.  With orientation checking enabled, a region whose orientation is
    "tilted" is given no grade and no distance, whatever the other regions
    are; and in the scan of any other region a tilted region counts like
    every region: the distance the scan returns is at most the edge
    distance to it. *)
Theorem tilted_not_applicable_yet_obstacle
    (g : PickupGrader) (rois : list DiamondROI) :
  check_orientation g = true ->
  (forall i r,
      nth_error rois i = Some r -> orientation r = "tilted"%string ->
      nth_error (grade_diamonds g rois) i
      = Some (mkGradedDiamond r None None (radius_of r)))
  /\ (forall target o,
        In o rois -> orientation o = "tilted"%string -> id o <> id target ->
        exists e t,
          _find_nearest_edge_distance g target rois = (Fin e, t)
          /\ e <= edge_distance target o).
Proof.
  intros Hchk. split.
  - intros i r Hnth Hor. rewrite (grade_diamonds_nth g rois i r Hnth).
    unfold grade_roi. rewrite Hchk, Hor. reflexivity.
  - intros target o Ho _ Hid.
    destruct (scan_with_neighbor g target rois) as (e & t & Hs & Hmin & _).
    { now exists o. }
    exists e, t. split; [exact Hs|]. now apply Hmin.
Qed.

(** [regionA] next to the tilted [regionT]. *)
Lemma tilted_not_applicable_yet_obstacle_witness :
  check_orientation Examples.grader_radius = true
  /\ nth_error (grade_diamonds Examples.grader_radius
                  [Examples.regionA; Examples.regionT]) 1
     = Some (mkGradedDiamond Examples.regionT None None
               (radius_of Examples.regionT))
  /\ exists e t,
       _find_nearest_edge_distance Examples.grader_radius Examples.regionA
         [Examples.regionA; Examples.regionT] = (Fin e, t)
       /\ e <= edge_distance Examples.regionA Examples.regionT.
Proof.
  destruct (tilted_not_applicable_yet_obstacle Examples.grader_radius
              [Examples.regionA; Examples.regionT] eq_refl) as [Hna Hob].
  split; [reflexivity|]. split.
  - apply Hna; reflexivity.
  - apply Hob; [right; now left|reflexivity|discriminate].
Defined.

(** The obstacle at work: [regionT] is tilted and ungraded, and its
    5 px distance makes the table-up [regionA] invalid. *)
Example tilted_neighbor_invalidates :
  map grade (grade_diamonds Examples.grader_radius
               [Examples.regionA; Examples.regionT])
  = [Some (Fin (-1)); None].
Proof.
  rewrite grade_diamonds_map. cbn [map].
  set (rois := [Examples.regionA; Examples.regionT]).
  destruct (scan_with_neighbor Examples.grader_radius Examples.regionA rois)
    as (e & t & Hs & _ & (o & Ho & Hid & He & Ht)).
  { exists Examples.regionT. split; [right; now left|discriminate]. }
  assert (o = Examples.regionT) as ->.
  { destruct Ho as [<-|[<-|[]]]; [now elim Hid|reflexivity]. }
  assert (HrA : radius_of Examples.regionA = 20) by apply disc_radius.
  assert (HrT : radius_of Examples.regionT = 20) by apply disc_radius.
  assert (He5 : e = 5).
  { rewrite He. unfold edge_distance. rewrite HrA, HrT.
    unfold center_distance. simpl.
    replace ((100 - 100) * (100 - 100) + (100 - 145) * (100 - 145))
      with (45 * 45) by lra.
    rewrite sqrt_square by lra. lra. }
  assert (Ht3 : t = 20 / 3).
  { rewrite Ht. unfold _get_safety_threshold. simpl.
    fold (radius_of Examples.regionA). fold (radius_of Examples.regionT).
    rewrite HrA, HrT. apply Rmin_right. lra. }
  clear He Ht. subst e t.
  rewrite (grade_roi_graded Examples.grader_radius rois Examples.regionA
             (Fin 5) (20 / 3) eq_refl Hs).
  rewrite grade_of_invalid by lra. reflexivity.
Qed.

(** C6.  With the radius and the safety threshold fixed, the grade does not
    decrease when the edge distance grows ([-1] counts as the lowest
    grade). *)
Theorem grade_monotone_in_edge_distance (d1 d2 t r : R) :
  d1 <= d2 ->
  le (grade_of (Fin d1) t r) (grade_of (Fin d2) t r).
Proof.
  intros H12.
  destruct (Rlt_dec d2 t) as [H2|H2].
  - rewrite !grade_of_invalid by lra. apply np_le_refl_fin.
  - destruct (Rlt_dec d1 t) as [H1|H1].
    + rewrite (grade_of_invalid d1) by lra.
      destruct (grade_of_finite d2 t r) as (g2 & -> & Hg). simpl. lra.
    + destruct (Req_dec_T (6 * r) t) as [Heq|Hne].
      * rewrite !grade_of_zero_span by lra. simpl. real_cases.
      * rewrite !grade_of_ramp by lra. simpl. apply ramp_monotone; lra.
Qed.

(** Distances 5 and 20 at threshold 10 and radius 20. *)
Lemma grade_monotone_in_edge_distance_witness :
  5 <= 20 /\ le (grade_of (Fin 5) 10 20) (grade_of (Fin 20) 10 20).
Proof.
  split; [lra|]. apply (grade_monotone_in_edge_distance 5 20 10 20). lra.
Defined.

End GraderFacts.

(** ** More on the pickup grader and the image summary *)

Section GraderMore.
Import NP Grader Core.
Local Open Scope R_scope.

Lemma center_distance_nonneg (a b : DiamondROI) : 0 <= center_distance a b.
Proof. apply sqrt_pos. Qed.

(** The scan always returns a finite distance, with the target's own
    threshold or the smaller threshold of a pair. *)
Lemma scan_finite (g : PickupGrader) (r : DiamondROI) (rois : list DiamondROI) :
  exists e t,
    _find_nearest_edge_distance g r rois = (Fin e, t)
    /\ (t = _get_safety_threshold g r
        \/ exists o, In o rois /\ id o <> id r
                     /\ t = Rmin (_get_safety_threshold g r)
                                 (_get_safety_threshold g o)).
Proof.
  unfold _find_nearest_edge_distance.
  destruct (scan_fold_spec g r rois PInf (_get_safety_threshold g r))
    as (m' & t' & Hf & Hv & _ & _ & Hatt); [now left|].
  rewrite Hf.
  assert (Ht : t' = _get_safety_threshold g r
               \/ exists o, In o rois /\ id o <> id r
                            /\ t' = Rmin (_get_safety_threshold g r)
                                         (_get_safety_threshold g o)).
  { destruct Hatt as [Heq|(o & Ho & Hid & _ & Ht)].
    - left. congruence.
    - right. exists o. rewrite <- py_min_R_Rmin. tauto. }
  destruct Hv as [->|[e ->]]; simpl; eauto.
Qed.

(** Every region has another region in the list, or none. *)
Lemma neighbor_or_isolated (r : DiamondROI) (rois : list DiamondROI) :
  (exists o, In o rois /\ id o <> id r) \/ (forall o, In o rois -> id o = id r).
Proof.
  induction rois as [|x rois [(o & Ho & Hid)|IH]].
  - right. intros o [].
  - left. exists o. split; [now right|exact Hid].
  - destruct (Z.eq_dec (id x) (id r)) as [Heq|Hne].
    + right. intros o [<-|Ho]; [exact Heq|now apply IH].
    + left. exists x. split; [now left|exact Hne].
Qed.

(** A grade is [-1], below the threshold, or a number in [[0, 10]]. *)
Lemma grade_of_cases (e t r : R) :
  (e < t /\ grade_of (Fin e) t r = Fin (-1))
  \/ (t <= e /\ exists v, grade_of (Fin e) t r = Fin v /\ 0 <= v <= 10).
Proof.
  destruct (Rlt_dec e t) as [Hlt|Hge].
  - left. split; [exact Hlt|now apply grade_of_invalid].
  - right. split; [lra|].
    destruct (Req_dec_T (6 * r) t) as [Heq|Hne].
    + eexists. rewrite grade_of_zero_span by lra. split; [reflexivity|].
      destruct (Rlt_dec t e); lra.
    + exists (Spec.ramp e t r). rewrite grade_of_ramp by lra.
      split; [reflexivity|]. unfold Spec.ramp, Spec.clamp.
      generalize (10 * (e - t) / (6 * r - t)). intros x.
      unfold Rmin. destruct (Rle_dec x 10); unfold Rmax; real_cases.
Qed.

(** The three outcomes of [grade_roi]. *)
Lemma grade_roi_cases (g : PickupGrader) (rois : list DiamondROI)
    (r : DiamondROI) :
  ((check_orientation g && String.eqb (orientation r) "tilted")%bool = true
   /\ grade (grade_roi g rois r) = None)
  \/ ((check_orientation g && String.eqb (orientation r) "tilted")%bool = false
      /\ (grade (grade_roi g rois r) = Some (Fin (-1))
          \/ exists v, grade (grade_roi g rois r) = Some (Fin v)
                       /\ 0 <= v <= 10)).
Proof.
  destruct (check_orientation g && String.eqb (orientation r) "tilted")%bool
    eqn:Hsk.
  - left. split; [reflexivity|]. unfold grade_roi. now rewrite Hsk.
  - right. split; [reflexivity|].
    destruct (scan_finite g r rois) as (e & t & Hs & _).
    rewrite (grade_roi_graded g rois r (Fin e) t Hsk Hs). cbn [grade].
    destruct (grade_of_cases e t (radius_of r)) as [[_ ->]|[_ (v & -> & Hv)]];
      [now left|right; eauto].
Qed.

(** X1.  Every grade [grade_diamonds] produces is [None], [-1], or a
    number in [[0, 10]]. *)
Theorem grades_none_invalid_or_in_range
    (g : PickupGrader) (rois : list DiamondROI) :
  Forall (fun gd =>
            grade gd = None \/ grade gd = Some (Fin (-1))
            \/ exists v, grade gd = Some (Fin v) /\ 0 <= v <= 10)
         (grade_diamonds g rois).
Proof.
  rewrite grade_diamonds_map. apply Forall_forall. intros gd Hin.
  apply in_map_iff in Hin as (r & <- & _).
  destruct (grade_roi_cases g rois r) as [[_ H]|[_ H]]; tauto.
Qed.

(** Exactly one of the three tests of [core.py] and
    [visualize_pickup_order] holds of a graded region. *)
Lemma graded_one_category (g : PickupGrader) (rois : list DiamondROI)
    (r : DiamondROI) :
  let gd := grade_roi g rois r in
  (is_pickable gd = true /\ is_invalid gd = false
   /\ is_not_gradable gd = false
   /\ (check_orientation g && String.eqb (orientation r) "tilted")%bool
      = false)
  \/ (is_pickable gd = false /\ is_invalid gd = true
      /\ is_not_gradable gd = false
      /\ (check_orientation g && String.eqb (orientation r) "tilted")%bool
         = false)
  \/ (is_pickable gd = false /\ is_invalid gd = false
      /\ is_not_gradable gd = true
      /\ (check_orientation g && String.eqb (orientation r) "tilted")%bool
         = true).
Proof.
  intros gd. unfold is_pickable, is_invalid, is_not_gradable.
  destruct (grade_roi_cases g rois r) as [[Hsk H]|[Hsk [H|(v & H & Hv)]]];
    fold gd in H; rewrite H.
  - right. right. tauto.
  - right. left. unfold eqb, geb. cbn [ltb]. real_cases; cbn; tauto.
  - left. unfold eqb, geb. cbn [ltb]. real_cases; cbn; tauto.
Qed.

Lemma filter_length_sum3 {A : Type} (p q s : A -> bool) (l : list A) :
  (forall x, In x l ->
     (p x = true /\ q x = false /\ s x = false)
     \/ (p x = false /\ q x = true /\ s x = false)
     \/ (p x = false /\ q x = false /\ s x = true)) ->
  (length (filter p l) + length (filter q l) + length (filter s l)
   = length l)%nat.
Proof.
  induction l as [|x l IH]; intros H; [reflexivity|].
  specialize (IH (fun y Hy => H y (or_intror Hy))).
  cbn [filter]. destruct (H x (or_introl eq_refl))
    as [(-> & -> & ->)|[(-> & -> & ->)|(-> & -> & ->)]]; cbn [length]; lia.
Qed.

(** X2.  The summary of an image counts every region once: the pickable
    regions, the invalid ones and the ungraded ones add up to the number of
    regions, and with orientation checking the ungraded ones are exactly
    the regions whose orientation is "tilted". *)
Theorem summary_counts_partition (g : PickupGrader) (rois : list DiamondROI) :
  let gds := grade_diamonds g rois in
  let '(pickable_count, invalid_count, _) := grade_summary gds in
  (pickable_count + invalid_count + length (filter is_not_gradable gds)
   = length rois)%nat
  /\ length (filter is_not_gradable gds)
     = length (filter (fun r => (check_orientation g
                                 && String.eqb (orientation r) "tilted")%bool)
                      rois).
Proof.
  cbv zeta. unfold grade_summary. rewrite grade_diamonds_map. split.
  - transitivity (length (map (grade_roi g rois) rois));
      [|apply length_map].
    apply filter_length_sum3.
    intros gd Hin. apply in_map_iff in Hin as (r & <- & _).
    pose proof (graded_one_category g rois r) as H. cbv zeta in H. tauto.
  - assert (G : forall l,
               length (filter is_not_gradable (map (grade_roi g rois) l))
               = length (filter (fun r => (check_orientation g
                                  && String.eqb (orientation r) "tilted")%bool)
                                l)).
    { induction l as [|r l IH]; [reflexivity|].
      cbn [map filter].
      pose proof (graded_one_category g rois r) as H. cbv zeta in H.
      destruct (check_orientation g
                && String.eqb (orientation r) "tilted")%bool;
        destruct H as [(_ & _ & -> & Hsk)|[(_ & _ & -> & Hsk)
                                          |(_ & _ & -> & Hsk)]];
        try discriminate; cbn [length]; now rewrite IH. }
    apply G.
Qed.

(** The sum of the grades of pickable regions. *)
Lemma grade_sum_bounds (l : list GradedDiamond) :
  Forall (fun gd => exists v, grade gd = Some (Fin v) /\ 0 <= v <= 10) l ->
  exists s, grade_sum l = Fin s /\ 0 <= s <= 10 * INR (length l).
Proof.
  unfold grade_sum.
  assert (G : forall l a,
             Forall (fun gd => exists v, grade gd = Some (Fin v)
                                         /\ 0 <= v <= 10) l ->
             exists s,
               fold_left (fun acc gd => match grade gd with
                                        | Some g => add acc g
                                        | None => NaN
                                        end) l (Fin a) = Fin s
               /\ a <= s <= a + 10 * INR (length l)).
  { clear l. induction l as [|gd l IH]; intros a H.
    - exists a. simpl. split; [reflexivity|lra].
    - inversion H as [|? ? (v & Hg & Hv) Hl]; subst.
      cbn [fold_left]. rewrite Hg. cbn [add].
      destruct (IH (a + v) Hl) as (s & -> & Hs).
      exists s. split; [reflexivity|].
      change (length (gd :: l)) with (S (length l)). rewrite S_INR. lra. }
  intros H. destruct (G l 0 H) as (s & Hs & Hb). exists s. split; [exact Hs|lra].
Qed.

(** X3.  The average grade of an image is a number in [[0, 10]]; it is
    [0.0] when no region is pickable. *)
Theorem average_grade_in_range (g : PickupGrader) (rois : list DiamondROI) :
  let '(pickable_count, _, avg_grade) := grade_summary (grade_diamonds g rois) in
  exists v, avg_grade = Fin v /\ 0 <= v <= 10
            /\ (pickable_count = 0%nat -> v = 0).
Proof.
  unfold grade_summary.
  set (pickable := filter is_pickable (grade_diamonds g rois)).
  destruct (Nat.ltb_spec 0 (length pickable)) as [Hpos|Hz].
  - assert (Hall : Forall (fun gd => exists v, grade gd = Some (Fin v)
                                               /\ 0 <= v <= 10) pickable).
    { apply Forall_forall. intros gd Hin.
      apply filter_In in Hin as [Hin Hp].
      rewrite grade_diamonds_map in Hin.
      apply in_map_iff in Hin as (r & <- & _).
      destruct (grade_roi_cases g rois r) as [[_ H]|[_ [H|H]]];
        [| |exact H]; unfold is_pickable in Hp; rewrite H in Hp;
        [discriminate|].
      unfold geb in Hp. cbn [ltb] in Hp.
      destruct (Rlt_dec (-1) 0); [discriminate|lra]. }
    destruct (grade_sum_bounds pickable Hall) as (s & -> & Hs).
    assert (Hn : 0 < INR (length pickable)) by (apply lt_0_INR; exact Hpos).
    cbn [div]. rewrite Rsign_pos by exact Hn.
    exists (s / INR (length pickable)). split; [reflexivity|]. split.
    + split.
      * apply Rmult_le_pos; [lra|]. left. now apply Rinv_0_lt_compat.
      * apply Rmult_le_reg_r with (INR (length pickable)); [exact Hn|].
        unfold Rdiv. rewrite Rmult_assoc, Rinv_l by lra. lra.
    + intros H0. lia.
  - exists 0. split; [reflexivity|]. split; [lra|reflexivity].
Qed.

(** X5.  The nearest distance does not depend on the order of the regions
    in the list; with a physical scale configured neither does the
    threshold, so the whole graded record is the same. *)
Theorem grading_order_independent
    (g : PickupGrader) (r : DiamondROI) (rois rois' : list DiamondROI) :
  Permutation rois rois' ->
  fst (_find_nearest_edge_distance g r rois)
  = fst (_find_nearest_edge_distance g r rois')
  /\ (min_distance_px g <> None -> grade_roi g rois r = grade_roi g rois' r).
Proof.
  intros Hp.
  assert (Hfst : fst (_find_nearest_edge_distance g r rois)
                 = fst (_find_nearest_edge_distance g r rois')).
  { destruct (neighbor_or_isolated r rois) as [Hnb|Hiso].
    - destruct (scan_with_neighbor g r rois Hnb)
        as (e & t & -> & Hmin & (o & Ho & Hid & He & _)).
      destruct (scan_with_neighbor g r rois')
        as (e' & t' & -> & Hmin' & (o' & Ho' & Hid' & He' & _)).
      { destruct Hnb as (x & Hx & Hxi). exists x.
        split; [now apply (Permutation_in _ Hp)|exact Hxi]. }
      cbn [fst]. f_equal. apply Rle_antisym.
      + rewrite He'. apply Hmin; [|exact Hid'].
        now apply (Permutation_in _ (Permutation_sym Hp)).
      + rewrite He. apply Hmin'; [|exact Hid].
        now apply (Permutation_in _ Hp).
    - rewrite !scan_isolated; [reflexivity| |exact Hiso].
      intros o Ho. apply Hiso.
      now apply (Permutation_in _ (Permutation_sym Hp)). }
  split; [exact Hfst|].
  intros Hpx. destruct (min_distance_px g) as [px|] eqn:Hmd; [|congruence].
  assert (Hthr : forall x, _get_safety_threshold g x = px)
    by (intros x; unfold _get_safety_threshold; now rewrite Hmd).
  assert (Hsnd : forall l, snd (_find_nearest_edge_distance g r l) = px).
  { intros l. destruct (scan_finite g r l) as (e & t & -> & [->|(o & _ & _ & ->)]);
      cbn [snd]; rewrite ?Hthr; [reflexivity|]. apply Rmin_left. lra. }
  unfold grade_roi.
  destruct (check_orientation g && String.eqb (orientation r) "tilted")%bool;
    [reflexivity|].
  destruct (_find_nearest_edge_distance g r rois) as [e t] eqn:H1.
  destruct (_find_nearest_edge_distance g r rois') as [e' t'] eqn:H2.
  pose proof (Hsnd rois) as S1. pose proof (Hsnd rois') as S2.
  rewrite H1 in S1. rewrite H2 in S2. cbn [fst snd] in *. now subst.
Qed.

(** The two example regions in both orders. *)
Lemma grading_order_independent_witness :
  fst (_find_nearest_edge_distance Examples.grader_10px Examples.regionA
         [Examples.regionA; Examples.regionB])
  = fst (_find_nearest_edge_distance Examples.grader_10px Examples.regionA
           [Examples.regionB; Examples.regionA]).
Proof.
  apply (grading_order_independent Examples.grader_10px Examples.regionA
           [Examples.regionA; Examples.regionB]
           [Examples.regionB; Examples.regionA]).
  apply perm_swap.
Defined.





(** Invariant of the loop of [_find_nearest_neighbor_distance]. *)
Lemma neighbor_fold_spec (target : DiamondROI) (rois : list DiamondROI) :
  forall m, scan_value m ->
  exists m',
    fold_left (neighbor_step target) rois m = m'
    /\ scan_value m' /\ le m' m
    /\ (forall o, In o rois -> id o <> id target ->
        le m' (Fin (center_distance target o)))
    /\ (m' = m \/ exists o, In o rois /\ id o <> id target
                            /\ m' = Fin (center_distance target o)).
Proof.
  induction rois as [|r rois IH]; intros m Hm.
  - exists m. simpl. repeat split; try tauto.
    destruct Hm as [->|[x ->]]; simpl; [exact I|lra].
  - cbn [fold_left].
    change (neighbor_step target m r)
      with (if Z.eqb (id r) (id target) then m
            else if ltb (Fin (center_distance target r)) m
                 then Fin (center_distance target r) else m).
    destruct (Z.eqb_spec (id r) (id target)) as [Heq|Hne].
    + destruct (IH m Hm) as (m' & Hf & Hv & Hle & Hall & Hatt).
      exists m'. repeat split; try assumption.
      * intros o [<-|Ho] Hid; [congruence|now apply Hall].
      * destruct Hatt as [Hatt|(o & Ho & Hid & H1)]; [now left|right].
        exists o. simpl. tauto.
    + set (d := center_distance target r).
      destruct (ltb (Fin d) m) eqn:Hlt.
      * destruct (IH (Fin d)) as (m' & Hf & Hv & Hle & Hall & Hatt).
        { right. now exists d. }
        exists m'. repeat split; try assumption.
        -- apply np_le_trans with (Fin d); [exact Hle|].
           destruct Hm as [->|[x ->]]; simpl in *; [exact I|].
           destruct (Rlt_dec d x); [lra|discriminate].
        -- intros o [<-|Ho] Hid; [exact Hle|now apply Hall].
        -- right. destruct Hatt as [Hatt|(o & Ho & Hid & H1)].
           ++ exists r. simpl. tauto.
           ++ exists o. simpl. tauto.
      * destruct (IH m Hm) as (m' & Hf & Hv & Hle & Hall & Hatt).
        exists m'. repeat split; try assumption.
        -- intros o [<-|Ho] Hid; [|now apply Hall].
           apply np_le_trans with m; [exact Hle|].
           destruct Hm as [->|[x ->]]; simpl in *; [discriminate|].
           fold d. destruct (Rlt_dec d x); [discriminate|lra].
        -- destruct Hatt as [Hatt|(o & Ho & Hid & H1)]; [now left|right].
           exists o. simpl. tauto.
Qed.

(** X7.  [_find_nearest_neighbor_distance] returns a finite, non-negative
    distance: the smallest center distance to a region with another id,
    attained by one of them, and [0.0] when there is none. *)
Theorem nearest_neighbor_distance_spec
    (target : DiamondROI) (rois : list DiamondROI) :
  exists d,
    _find_nearest_neighbor_distance target rois = Fin d
    /\ 0 <= d
    /\ (forall o, In o rois -> id o <> id target ->
        d <= center_distance target o)
    /\ ((exists o, In o rois /\ id o <> id target
                  /\ d = center_distance target o)
        \/ ((forall o, In o rois -> id o = id target) /\ d = 0)).
Proof.
  unfold _find_nearest_neighbor_distance.
  destruct (neighbor_fold_spec target rois PInf)
    as (m' & -> & Hv & _ & Hall & Hatt); [now left|].
  destruct Hv as [Hinf|[d Hd]].
  - rewrite Hinf in *. exists 0. cbn [is_pinf].
    split; [reflexivity|]. split; [lra|]. split.
    + intros o Ho Hid. elim (Hall o Ho Hid).
    + right. split; [|reflexivity]. intros o Ho.
      destruct (Z.eq_dec (id o) (id target)) as [|Hne]; [assumption|].
      elim (Hall o Ho Hne).
  - rewrite Hd in *. exists d. cbn [is_pinf].
    destruct Hatt as [Hatt|(o & Ho & Hid & H1)]; [discriminate|].
    injection H1 as H1.
    split; [reflexivity|]. split.
    + rewrite H1. apply center_distance_nonneg.
    + split; [exact Hall|]. left. exists o. tauto.
Qed.

End GraderMore.

(** ** Adaptive area bounds *)

Section CoreFacts.
Import NP Core.
Local Open Scope R_scope.

Lemma py_int_nonneg (x : R) : 0 <= x -> py_int x = Zfloor x.
Proof. intros H. unfold py_int. destruct (Rle_dec 0 x); [reflexivity|lra]. Qed.

Lemma Zpy_max_max (a b : Z) : Detector.Zpy_max a b = Z.max a b.
Proof. unfold Detector.Zpy_max. destruct (Z.ltb_spec a b); lia. Qed.

(** The square of the scale factor is never negative. *)
Lemma scale_square_nonneg (x : R) : 0 <= sqrt x * sqrt x.
Proof. apply Rmult_le_pos; apply sqrt_pos. Qed.

(** X8.  Whatever the image size, the area bounds handed to the detector
    satisfy [30 <= min_area <= max_area] and [1000 <= max_area]. *)
Theorem adaptive_area_bounds_ordered (h w : Z) :
  let '(min_area, max_area) := adaptive_area_bounds h w in
  (30 <= min_area /\ min_area <= max_area /\ 1000 <= max_area)%Z.
Proof.
  unfold adaptive_area_bounds, scaled_area. rewrite !Zpy_max_max.
  set (s := sqrt _ * sqrt _).
  assert (Hs : 0 <= s) by apply scale_square_nonneg.
  rewrite !py_int_nonneg by nra.
  assert (Hle : (Zfloor (200 * s) <= Zfloor (20000 * s))%Z)
    by (apply Zfloor_le; nra).
  lia.
Qed.

End CoreFacts.

(** ** More on mask merging *)

Section MergeMore.
Import Detector.

Variable self : SAMDiamondDetector.
Variable bms : list BinMask.

Lemma binarize_to_float32 (m : BinMask) : binarize (to_float32 m) = m.
Proof.
  unfold binarize, to_float32. rewrite map_map.
  induction m as [|b m IH]; [reflexivity|].
  cbn [map]. rewrite IH. now destruct b.
Qed.

Lemma to_float32_binary_valued (m : BinMask) :
  Spec.binary_valued (to_float32 m).
Proof.
  unfold Spec.binary_valued, to_float32. apply Forall_forall.
  intros x Hx. apply in_map_iff in Hx as (b & <- & _). destruct b; auto.
Qed.

Lemma mark_used_nth (used : list bool) (j j' : nat) :
  nth j' (mark_used used j) false = true
  <-> nth j' used false = true \/ (j' = j /\ (j < length used)%nat).
Proof.
  revert j j'. induction used as [|b u IH]; intros j j'.
  - simpl. destruct j, j'; simpl; split; intros; try easy;
      destruct H as [H|[_ H]]; try easy; lia.
  - destruct j as [|j], j' as [|j']; cbn [mark_used nth length].
    + split; [intros _; right; split; [reflexivity|lia]|reflexivity].
    + split; [now left|]. intros [H|[H _]]; [exact H|discriminate].
    + split; [now left|]. intros [H|[H _]]; [exact H|discriminate].
    + rewrite IH. split; intros [H|[H1 H2]]; auto; right; split; lia.
Qed.

Lemma nth_logical_or (a b : BinMask) (p : nat) :
  length a = length b ->
  nth p (logical_or a b) false = (nth p a false || nth p b false)%bool.
Proof.
  revert b p. induction a as [|x a IH]; intros [|y b] p H; try discriminate.
  - now destruct p.
  - destruct p as [|p]; [reflexivity|]. cbn [logical_or map2 nth].
    apply IH. simpl in H. lia.
Qed.

Lemma logical_or_length (a b : BinMask) :
  length a = length b -> length (logical_or a b) = length a.
Proof.
  revert b. induction a as [|x a IH]; intros [|y b] H; try discriminate;
    [reflexivity|].
  cbn [logical_or map2 length]. f_equal. apply IH. simpl in H. lia.
Qed.

(** An invariant of [(current_merged, used)] kept by every merge is kept by
    the [for] loop... *)
Lemma merge_fold_preserves (P : BinMask -> list bool -> Prop) :
  (forall cur used j, P cur used -> (j < length bms)%nat ->
     nth j used false = false ->
     P (logical_or cur (nth j bms [])) (mark_used used j)) ->
  forall js cur a used ch cur' a' used' ch',
    (forall j, In j js -> (j < length bms)%nat) ->
    P cur used ->
    fold_left (merge_step self bms) js (cur, a, used, ch)
    = (cur', a', used', ch') ->
    P cur' used'.
Proof.
  intros Hstep. induction js as [|j js IH];
    intros cur a used ch cur' a' used' ch' Hjs HP Hf.
  - simpl in Hf. now injection Hf as <- _ <- _.
  - cbn [fold_left] in Hf. unfold merge_step at 2 in Hf.
    assert (Hj : (j < length bms)%nat) by (apply Hjs; now left).
    assert (Hjs' : forall j', In j' js -> (j' < length bms)%nat)
      by (intros j' Hj'; apply Hjs; now right).
    destruct (nth j used false) eqn:Hnth; [now apply IH in Hf|].
    destruct (should_merge self cur a (nth j bms [])).
    + apply IH in Hf; [exact Hf|exact Hjs'|]. now apply Hstep.
    + now apply IH in Hf.
Qed.

(** ... and by the [while] loop. *)
Lemma merge_while_preserves (P : BinMask -> list bool -> Prop) :
  (forall cur used j, P cur used -> (j < length bms)%nat ->
     nth j used false = false ->
     P (logical_or cur (nth j bms [])) (mark_used used j)) ->
  forall fuel cur a used cur' used',
    P cur used ->
    merge_while fuel self bms cur a used = Some (cur', used') ->
    P cur' used'.
Proof.
  intros Hstep. induction fuel as [|fuel IH]; intros cur a used cur' used' HP Hw;
    [discriminate|].
  cbn [merge_while] in Hw.
  destruct (merge_pass self bms cur a used) as [[[cur1 a1] used1] ch] eqn:Hp.
  unfold merge_pass in Hp.
  apply (merge_fold_preserves P Hstep) in Hp; [|intros j Hj; apply in_seq in Hj; lia
                                                |exact HP].
  destruct ch.
  - now apply IH in Hw.
  - now injection Hw as <- <-.
Qed.

(** The outer loop: an invariant [Q] of [(merged, used)] kept by the
    growth of one output mask is kept by the loop, which returns, marks
    every index it visits and unmarks none. *)
Lemma merge_outer_preserves (Q : list Mask -> list bool -> Prop) :
  (forall merged used i cur' used',
     Q merged used -> length used = length bms -> (i < length bms)%nat ->
     nth i used false = false ->
     merge_while (S (length bms)) self bms (nth i bms [])
       (mask_sum (nth i bms [])) (mark_used used i) = Some (cur', used') ->
     Q (merged ++ [to_float32 cur'])%list used') ->
  forall js merged used,
    (forall j, In j js -> (j < length bms)%nat) ->
    length used = length bms -> Q merged used ->
    exists merged' used',
      fold_left (merge_outer_step self bms) js (Some (merged, used))
      = Some (merged', used')
      /\ length used' = length bms /\ Q merged' used'
      /\ (forall j, nth j used false = true -> nth j used' false = true)
      /\ (forall j, In j js -> nth j used' false = true).
Proof.
  intros Hstep. induction js as [|i js IH]; intros merged used Hjs Hlen HQ.
  - exists merged, used. repeat split; auto; try (intros j []).
  - cbn [fold_left]. unfold merge_outer_step at 2.
    assert (Hi : (i < length bms)%nat) by (apply Hjs; now left).
    assert (Hjs' : forall j, In j js -> (j < length bms)%nat)
      by (intros j Hj; apply Hjs; now right).
    destruct (nth i used false) eqn:Hnth.
    + destruct (IH merged used Hjs' Hlen HQ)
        as (merged' & used' & Hf & Hl & HQ' & Hmono & Hvis).
      exists merged', used'. repeat split; auto.
      intros j [<-|Hj]; [now apply Hmono|now apply Hvis].
    + destruct (merge_while_returns self bms (S (length bms))
                  (nth i bms []) (mask_sum (nth i bms [])) (mark_used used i))
        as (cur' & used1 & Hw & Hl1).
      * now rewrite mark_used_length.
      * pose proof (unused_le_length (mark_used used i)) as Hu.
        rewrite mark_used_length in Hu. lia.
      * rewrite Hw.
        assert (Hm1 : forall j, nth j (mark_used used i) false = true ->
                                nth j used1 false = true).
        { apply (merge_while_preserves
                   (fun _ u => forall j, nth j (mark_used used i) false = true ->
                                         nth j u false = true))
            with (fuel := S (length bms)) (cur := nth i bms [])
                 (a := mask_sum (nth i bms [])) (used := mark_used used i)
                 (cur' := cur'); [|auto|exact Hw].
          intros _ u j Hu _ _ j' Hj'. apply mark_used_nth. left. now apply Hu. }
        destruct (IH (merged ++ [to_float32 cur'])%list used1 Hjs' Hl1)
          as (merged' & used' & Hf & Hl & HQ' & Hmono & Hvis).
        { now apply (Hstep merged used i cur' used1). }
        exists merged', used'. repeat split; auto.
        -- intros j Hj. apply Hmono, Hm1, mark_used_nth. now left.
        -- intros j [<-|Hj]; [|now apply Hvis].
           apply Hmono, Hm1, mark_used_nth. right. split; [reflexivity|lia].
Qed.

Lemma used_cover_mark (used : list bool) (j p : nat) :
  (j < length used)%nat ->
  Props.used_cover bms (mark_used used j) p
  <-> Props.used_cover bms used p \/ nth p (nth j bms []) false = true.
Proof.
  intros Hj. unfold Props.used_cover. split.
  - intros (j' & Hu & Hp). apply mark_used_nth in Hu as [Hu|[-> _]].
    + left. now exists j'.
    + now right.
  - intros [(j' & Hu & Hp)|Hp].
    + exists j'. split; [apply mark_used_nth; now left|exact Hp].
    + exists j. split; [apply mark_used_nth; right; now split|exact Hp].
Qed.

(** A pass never returns more unused marks than it got. *)
Lemma merge_while_unused (fuel : nat) (cur : BinMask) (a : Z)
    (used : list bool) (cur' : BinMask) (used' : list bool) :
  length used = length bms ->
  merge_while fuel self bms cur a used = Some (cur', used') ->
  (unused used' <= unused used)%nat.
Proof.
  intros Hlen Hw.
  apply (merge_while_preserves
           (fun _ u => length u = length bms /\ (unused u <= unused used)%nat))
    with (cur := cur) (used := used) in Hw; [tauto| |split; [exact Hlen|lia]].
  intros _ u j [Hl Hu] Hj Hn. split; [now rewrite mark_used_length|].
  pose proof (mark_used_unused u j) as Hm.
  rewrite nth_default_irrelevant in Hm by lia. specialize (Hm Hn). lia.
Qed.

End MergeMore.

Section MergeTheorems.
Import Detector.

Lemma nth_repeat_false (n j : nat) : nth j (repeat false n) false = false.
Proof.
  pose proof (nth_used_prefix 0 n j) as H. simpl in H. exact H.
Qed.

(** X10.  [_merge_masks] always returns (every [while changed] loop ends
    within the bound) and never returns more masks than it was given, nor
    an empty list for a non-empty input; with merging enabled every output
    mask has only the values 0 and 1. *)
Theorem merge_masks_shape (self : SAMDiamondDetector) (masks : list Mask) :
  exists merged,
    _merge_masks self masks = Some merged
    /\ (length merged <= length masks)%nat
    /\ (masks <> [] -> merged <> [])
    /\ (merge_overlapping self = true -> masks <> [] ->
        Forall Spec.binary_valued merged).
Proof.
  unfold _merge_masks.
  destruct (merge_overlapping self) eqn:Hon; cbn [negb orb].
  2:{ exists masks. repeat split; auto. discriminate. }
  destruct (Nat.eqb_spec (length masks) 0) as [Hz|Hnz].
  { exists masks. repeat split; auto.
    intros _ Hne. destruct masks; [now elim Hne|discriminate]. }
  set (bms := map binarize masks).
  assert (Hn : length bms = length masks) by apply length_map.
  destruct (merge_outer_preserves self bms
              (fun merged used =>
                 (length merged + unused used <= length bms)%nat
                 /\ Forall Spec.binary_valued merged
                 /\ (forall j, nth j used false = true -> merged <> []))
              ) with (js := seq 0 (length bms)) (merged := @nil Mask)
                     (used := repeat false (length bms))
    as (merged' & used' & Hf & Hl & (Hlen & Hbin & Hne) & _ & Hvis).
  - intros merged used i cur' used1 (Hq1 & Hq2 & _) Hlu Hi Hnth Hw.
    split; [|split].
    + rewrite length_app. cbn [length].
      assert (Hlm : length (mark_used used i) = length bms)
        by (now rewrite mark_used_length).
      pose proof (merge_while_unused self bms _ _ _ _ _ _ Hlm Hw) as Hu.
      pose proof (mark_used_unused used i) as Hm.
      rewrite nth_default_irrelevant in Hm by lia. specialize (Hm Hnth). lia.
    + apply Forall_app. split; [exact Hq2|].
      constructor; [apply to_float32_binary_valued|constructor].
    + intros _ _ H. now destruct merged.
  - intros j Hj. apply in_seq in Hj. lia.
  - apply repeat_length.
  - split; [|split].
    + pose proof (unused_le_length (repeat false (length bms))) as Hu.
      rewrite repeat_length in Hu. simpl. lia.
    + constructor.
    + intros j Hj. now rewrite nth_repeat_false in Hj.
  - rewrite Hf. exists merged'. split; [reflexivity|].
    split; [lia|]. split; [|auto].
    intros _. apply (Hne 0%nat). apply Hvis. apply in_seq. lia.
Qed.

(** X11.  Merging loses no pixel and adds none: a pixel belongs to one of
    the output masks exactly when it belongs to one of the (binarised)
    input masks.  The masks are arrays of one shape, here lists of one
    length. *)
Theorem merge_masks_preserves_coverage
    (self : SAMDiamondDetector) (masks : list Mask) (L : nat) :
  Forall (fun m => length m = L) masks ->
  exists merged,
    _merge_masks self masks = Some merged
    /\ forall p, Props.covered merged p <-> Props.covered masks p.
Proof.
  intros HL. unfold _merge_masks.
  destruct (negb (merge_overlapping self) || (length masks =? 0)%nat).
  { exists masks. split; [reflexivity|tauto]. }
  set (bms := map binarize masks).
  assert (HLb : forall j, (j < length bms)%nat -> length (nth j bms []) = L).
  { intros j Hj. unfold bms in *. rewrite length_map in Hj.
    rewrite (nth_indep _ [] (binarize []))
      by (now rewrite length_map).
    rewrite map_nth. unfold binarize. rewrite length_map.
    rewrite Forall_forall in HL. apply HL. now apply nth_In. }
  destruct (merge_outer_preserves self bms
              (fun merged used =>
                 forall p, Props.covered merged p
                           <-> Props.used_cover bms used p))
    with (js := seq 0 (length bms)) (merged := @nil Mask)
         (used := repeat false (length bms))
    as (merged' & used' & Hf & Hl & HQ & _ & Hvis).
  - intros merged used i cur' used1 HQ Hlu Hi Hnth Hw p.
    apply (merge_while_preserves self bms
             (fun cur u =>
                length cur = L /\ length u = length bms
                /\ forall p, (Props.covered merged p
                              \/ nth p cur false = true)
                             <-> Props.used_cover bms u p))
      with (cur := nth i bms []) (used := mark_used used i) in Hw.
    + destruct Hw as (_ & _ & Hw). rewrite <- Hw.
      unfold Props.covered. split.
      * intros (m & Hm & Hp). apply in_app_iff in Hm as [Hm|[<-|[]]].
        -- left. now exists m.
        -- right. unfold Props.pixel_in in Hp.
           now rewrite binarize_to_float32 in Hp.
      * intros [(m & Hm & Hp)|Hp].
        -- exists m. split; [apply in_app_iff; now left|exact Hp].
        -- exists (to_float32 cur'). split; [apply in_app_iff; right; now left|].
           unfold Props.pixel_in. now rewrite binarize_to_float32.
    + intros cur u j (Hc & Hu & Hiff) Hj Hnj.
      split; [|split].
      * rewrite logical_or_length; [exact Hc|]. rewrite Hc. symmetry.
        now apply HLb.
      * now rewrite mark_used_length.
      * intros q. rewrite used_cover_mark by lia. rewrite <- Hiff.
        rewrite nth_logical_or by (rewrite Hc; symmetry; now apply HLb).
        rewrite orb_true_iff. tauto.
    + split; [now apply HLb|]. split; [now rewrite mark_used_length|].
      intros q. rewrite used_cover_mark by lia. rewrite <- HQ. tauto.
  - intros j Hj. apply in_seq in Hj. lia.
  - apply repeat_length.
  - intros p. unfold Props.covered, Props.used_cover. split.
    + intros (m & [] & _).
    + intros (j & Hj & _). now rewrite nth_repeat_false in Hj.
  - rewrite Hf. exists merged'. split; [reflexivity|].
    intros p. rewrite HQ. unfold Props.used_cover, Props.covered. split.
    + intros (j & _ & Hp).
      assert (Hj : (j < length bms)%nat).
      { destruct (Nat.lt_ge_cases j (length bms)) as [H|H]; [exact H|].
        rewrite (@nth_overflow BinMask bms j [] H) in Hp. now destruct p. }
      unfold bms in Hj. rewrite length_map in Hj.
      exists (nth j masks []). split; [now apply nth_In|].
      unfold Props.pixel_in.
      unfold bms in Hp.
      rewrite (nth_indep _ [] (binarize [])) in Hp by (now rewrite length_map).
      now rewrite map_nth in Hp.
    + intros (m & Hm & Hp).
      apply (In_nth _ _ []) in Hm as (j & Hj & <-).
      exists j. split.
      * apply Hvis. apply in_seq. unfold bms. rewrite length_map.
        split; [apply Nat.le_0_l|exact Hj].
      * unfold bms. rewrite (nth_indep _ [] (binarize []))
          by (now rewrite length_map).
        now rewrite map_nth.
Qed.

(** The three example masks. *)
Lemma merge_masks_preserves_coverage_witness :
  exists merged,
    _merge_masks (default_detector true) Examples.three_masks = Some merged
    /\ forall p, Props.covered merged p
                 <-> Props.covered Examples.three_masks p.
Proof.
  apply (merge_masks_preserves_coverage (default_detector true)
           Examples.three_masks 13).
  repeat constructor.
Defined.

End MergeTheorems.

(** ** More on detection *)

Section DetectMore.
Import NP Detector.
Local Open Scope R_scope.

Lemma mask_sum_nonneg (m : BinMask) : (0 <= mask_sum m)%Z.
Proof.
  induction m as [|b m IH]; [simpl; lia|].
  cbn [mask_sum fold_right]. fold (mask_sum m). destruct b; lia.
Qed.

Lemma mask_sum_and_le_or (a b : BinMask) :
  (mask_sum (logical_and a b) <= mask_sum (logical_or a b))%Z.
Proof.
  revert b. induction a as [|x a IH]; intros [|y b]; try (simpl; lia).
  cbn [logical_and logical_or map2 mask_sum fold_right].
  specialize (IH b). unfold logical_and, logical_or, mask_sum in IH.
  destruct x, y; cbn [andb orb]; lia.
Qed.

Lemma map2_comm {A B : Type} (f : A -> A -> B) (a b : list A) :
  (forall x y, f x y = f y x) -> map2 f a b = map2 f b a.
Proof.
  intros Hf. revert b. induction a as [|x a IH]; intros [|y b];
    try reflexivity.
  cbn [map2]. now rewrite Hf, IH.
Qed.

Lemma map2_same_and (a : BinMask) : logical_and a a = a.
Proof.
  induction a as [|x a IH]; [reflexivity|].
  cbn [logical_and map2]. unfold logical_and in IH. rewrite IH.
  now destruct x.
Qed.

Lemma map2_same_or (a : BinMask) : logical_or a a = a.
Proof.
  induction a as [|x a IH]; [reflexivity|].
  cbn [logical_or map2]. unfold logical_or in IH. rewrite IH.
  now destruct x.
Qed.

(** X12.  The intersection over union is a ratio in [[0, 1]], does not
    depend on the order of its arguments, is 1 for a mask with itself and
    0 when the union is empty. *)
Theorem iou_range_symmetry (a b : BinMask) :
  (0 <= _calculate_iou a b /\ _calculate_iou a b <= 1)%Q
  /\ _calculate_iou a b = _calculate_iou b a
  /\ ((0 < mask_sum a)%Z -> (_calculate_iou a a == 1)%Q)
  /\ (mask_sum (logical_or a b) = 0%Z -> _calculate_iou a b = 0%Q).
Proof.
  split; [|split; [|split]].
  - unfold _calculate_iou.
    pose proof (mask_sum_and_le_or a b) as Hle.
    pose proof (mask_sum_nonneg (logical_and a b)) as H0.
    destruct (Z.ltb_spec 0 (mask_sum (logical_or a b))) as [Hu|Hu].
    + assert (HuQ : (0 < inject_Z (mask_sum (logical_or a b)))%Q)
        by (rewrite <- (Zlt_Qlt 0); exact Hu).
      split.
      * apply Qle_shift_div_l; [exact HuQ|].
        rewrite Qmult_0_l. rewrite <- (Zle_Qle 0). exact H0.
      * apply Qle_shift_div_r; [exact HuQ|].
        rewrite Qmult_1_l. rewrite <- Zle_Qle. exact Hle.
    + split; [apply Qle_refl|discriminate].
  - unfold _calculate_iou, logical_and, logical_or.
    rewrite (map2_comm andb a b) by apply andb_comm.
    rewrite (map2_comm orb a b) by apply orb_comm. reflexivity.
  - intros Hpos. unfold _calculate_iou.
    rewrite map2_same_and, map2_same_or.
    destruct (Z.ltb_spec 0 (mask_sum a)); [|lia].
    apply Qmult_inv_r. intros H0.
    assert (Hz : (inject_Z 0 < inject_Z (mask_sum a))%Q)
      by (rewrite <- Zlt_Qlt; exact Hpos).
    rewrite H0 in Hz. apply (Qlt_irrefl _ Hz).
  - intros Hz. unfold _calculate_iou. now rewrite Hz.
Qed.

(** X13.  The padded crop window of a bounding box that lies inside the
    image lies inside the image and contains the bounding box. *)
Theorem crop_window_contains_box
    (self : SAMDiamondDetector) (image_w image_h x y w h : Z) :
  (0 <= padding self)%Z ->
  (0 <= x /\ x + w <= image_w)%Z -> (0 <= y /\ y + h <= image_h)%Z ->
  let '(x_pad, y_pad, x_end, y_end) :=
    crop_window self image_w image_h (x, y, w, h) in
  (0 <= x_pad <= x /\ x + w <= x_end <= image_w
   /\ 0 <= y_pad <= y /\ y + h <= y_end <= image_h)%Z.
Proof.
  intros Hp Hx Hy. unfold crop_window, Zpy_max, Zpy_min.
  repeat match goal with
    | |- context [(?a <? ?b)%Z] => destruct (Z.ltb_spec a b)
    end; lia.
Qed.

(** A 9 x 9 box at (60, 60) in a 100 x 100 image, padding 10. *)
Lemma crop_window_contains_box_witness :
  let '(x_pad, y_pad, x_end, y_end) :=
    crop_window (default_detector false) 100 100 (60, 60, 9, 9)%Z in
  (0 <= x_pad <= 60 /\ 60 + 9 <= x_end <= 100
   /\ 0 <= y_pad <= 60 /\ 60 + 9 <= y_end <= 100)%Z.
Proof.
  apply (crop_window_contains_box (default_detector false)
           100 100 60 60 9 9); simpl; lia.
Defined.

(** X14.  A contour passes the shape validation exactly when its hull has
    positive area, the contour fills at least 70% of it, the mask has at
    most one foreground component, and the extent and circularity tests
    hold wherever their denominators are positive; an accepted contour
    has positive area. *)
Theorem valid_shape_characterised
    (hull_area contour_area : R) (num_labels w h : Z) (perimeter : R) :
  (_is_valid_diamond_shape hull_area contour_area num_labels w h perimeter
   = true
   <-> 0 < hull_area
       /\ 0.70 * hull_area <= contour_area
       /\ (num_labels <= 2)%Z
       /\ ((0 < w * h)%Z -> 0.50 * IZR (w * h) <= contour_area)
       /\ (0 < perimeter ->
           0.30 * (perimeter * perimeter) <= 4 * PI * contour_area))
  /\ (_is_valid_diamond_shape hull_area contour_area num_labels w h perimeter
      = true -> 0 < contour_area).
Proof.
  assert (Hdiv : forall a b c, 0 < b -> (a / b < c <-> a < c * b)).
  { intros a b c Hb. split; intros H.
    - apply Rmult_lt_reg_r with (/ b); [now apply Rinv_0_lt_compat|].
      rewrite Rmult_assoc, Rinv_r by lra. unfold Rdiv in H. lra.
    - unfold Rdiv. apply Rmult_lt_reg_r with b; [exact Hb|].
      rewrite Rmult_assoc, Rinv_l by lra. lra. }
  assert (Main :
    _is_valid_diamond_shape hull_area contour_area num_labels w h perimeter
    = true
    <-> 0 < hull_area
        /\ 0.70 * hull_area <= contour_area
        /\ (num_labels <= 2)%Z
        /\ ((0 < w * h)%Z -> 0.50 * IZR (w * h) <= contour_area)
        /\ (0 < perimeter ->
            0.30 * (perimeter * perimeter) <= 4 * PI * contour_area)).
  { unfold _is_valid_diamond_shape.
    destruct (Rgt_dec hull_area 0) as [Hh|Hh];
      [|split; [discriminate|intros [H _]; lra]].
    assert (Hh0 : 0 < hull_area) by lra.
    destruct (Rlt_dec (contour_area / hull_area) 0.70) as [Hs|Hs].
    { apply (proj1 (Hdiv _ _ _ Hh0)) in Hs.
      split; [discriminate|intros (_ & H & _); lra]. }
    assert (Hs' : 0.70 * hull_area <= contour_area).
    { apply Rnot_lt_le. intros H. apply Hs. now apply (Hdiv _ _ _ Hh0). }
    destruct (Z.gtb_spec num_labels 2) as [Hn|Hn];
      [split; [discriminate|intros (_ & _ & H & _); lia]|].
    assert (Hcirc :
      (if (if Rgt_dec perimeter 0
           then if Rlt_dec ((4 * PI * contour_area) / (perimeter * perimeter))
                           0.30
                then true else false
           else false)
       then false else true) = true
      <-> (0 < perimeter ->
           0.30 * (perimeter * perimeter) <= 4 * PI * contour_area)).
    { destruct (Rgt_dec perimeter 0) as [Hp|Hp];
        [|split; [intros _ H; lra|reflexivity]].
      assert (Hpp : 0 < perimeter * perimeter) by nra.
      destruct (Rlt_dec _ 0.30) as [Hc|Hc].
      - apply (proj1 (Hdiv _ _ _ Hpp)) in Hc.
        split; [discriminate|]. intros H. specialize (H Hp). lra.
      - split; [intros _ _|reflexivity].
        apply Rnot_lt_le. intros H. apply Hc. now apply (Hdiv _ _ _ Hpp). }
    destruct (Z.gtb_spec (w * h) 0) as [Hb|Hb].
    - assert (HbR : 0 < IZR (w * h)) by (apply IZR_lt; lia).
      destruct (Rlt_dec (contour_area / IZR (w * h)) 0.50) as [He|He].
      { apply (proj1 (Hdiv _ _ _ HbR)) in He.
        split; [discriminate|]. intros (_ & _ & _ & H & _).
        specialize (H ltac:(lia)). lra. }
      assert (He' : 0.50 * IZR (w * h) <= contour_area).
      { apply Rnot_lt_le. intros H. apply He. now apply (Hdiv _ _ _ HbR). }
      rewrite Hcirc. split; [intros H|tauto].
      repeat split; auto; lia.
    - rewrite Hcirc. split; [intros H|tauto].
      repeat split; auto; lia. }
  split; [exact Main|].
  intros H. apply Main in H as (Hh & Hs & _). lra.
Qed.

(** *** The loop of [detect] *)

(** What the loop guarantees of a region it appends. *)
Lemma detect_mask_props (self : SAMDiamondDetector) (m : MaskMeasures)
    (k : Z) (r : DiamondROI) :
  detect_mask self m k = Some r ->
  id r = k
  /\ IZR (min_area self) <= area r <= IZR (max_area self)
  /\ (5 <= length (contour r))%nat
  /\ orientation r = "unknown"%string
  /\ (detected_type r = "round"%string \/ detected_type r = "other"%string)
  /\ (detected_type r = "round"%string <-> aspect_ratio r > 0.85).
Proof.
  unfold detect_mask.
  destruct (Z.ltb_spec (mm_area m) (min_area self)); [discriminate|].
  destruct (Z.gtb_spec (mm_area m) (max_area self)); [discriminate|].
  cbn [orb]. destruct (mm_contour m) as [c|]; [|discriminate].
  destruct (Nat.ltb_spec (length c) 5); [discriminate|].
  destruct (mm_bounding_rect m) as [[[x y] w] h].
  destruct (negb _); [discriminate|].
  destruct (Req_dec_T (mm_m00 m) 0); [discriminate|].
  unfold shape_of_axes.
  intros Heq. injection Heq as <-. cbn.
  repeat split; try (apply IZR_le; lia); try lia.
  - destruct (Rgt_dec _ 0.85); auto.
  - destruct (Rgt_dec _ 0.85); [intros _; assumption|discriminate].
  - destruct (Rgt_dec _ 0.85); [reflexivity|contradiction].
Qed.

(** Invariant of the loop: the ids are the positions, the counter is the
    length, and every region satisfies [P] when the appended ones do. *)
Lemma detect_loop_spec (self : SAMDiamondDetector) (P : DiamondROI -> Prop) :
  (forall m k r, detect_mask self m k = Some r -> P r) ->
  forall masks rois0,
    map id rois0 = map Z.of_nat (seq 0 (length rois0)) ->
    Forall P rois0 ->
    let '(rois, k) :=
      fold_left (detect_step self) masks (rois0, Z.of_nat (length rois0)) in
    map id rois = map Z.of_nat (seq 0 (length rois))
    /\ k = Z.of_nat (length rois) /\ Forall P rois.
Proof.
  intros HP. induction masks as [|m masks IH]; intros rois0 Hids HF.
  - simpl. auto.
  - cbn [fold_left]. unfold detect_step at 2.
    destruct (detect_mask self m (Z.of_nat (length rois0))) as [r|] eqn:Hm;
      [|now apply IH].
    assert (Hlen : (Z.of_nat (length rois0) + 1)%Z
                   = Z.of_nat (length (rois0 ++ [r])))
      by (rewrite length_app; simpl; lia).
    rewrite Hlen. apply IH.
    + rewrite map_app, length_app. cbn [length map].
      rewrite Nat.add_1_r, seq_S, map_app, Hids. cbn [map Nat.add].
      do 2 f_equal. now apply detect_mask_props in Hm.
    + apply Forall_app. split; [exact HF|]. constructor; [|constructor].
      exact (HP m _ r Hm).
Qed.

Lemma reindex_ids (l : list DiamondROI) :
  map id (reindex l) = map Z.of_nat (seq 0 (length l)).
Proof.
  unfold reindex, enumerate. generalize 0%nat.
  induction l as [|r l IH]; intros s; [reflexivity|].
  cbn [length seq combine map]. now rewrite IH.
Qed.

(** The regions returned by [_remove_nested_rois] are regions of its
    input, up to the id. *)
Lemma remove_nested_from_input (pt : Contour -> R * R -> R)
    (rois : list DiamondROI) (r : DiamondROI) :
  In r (_remove_nested_rois pt rois) ->
  exists r0 k, In r0 rois /\ r = set_id r0 k.
Proof.
  unfold _remove_nested_rois.
  destruct (length rois <=? 1)%nat.
  - intros H. exists r, (id r). split; [exact H|]. symmetry. apply set_id_same.
  - unfold reindex. intros H.
    apply in_map_iff in H as ([k r0] & <- & Hin).
    apply in_combine_r in Hin. apply in_map_iff in Hin as ([i r1] & Heq & Hin).
    cbn [snd] in Heq. subst r1.
    unfold kept_rois in Hin. apply filter_In in Hin as [Hin _].
    apply in_enumerate in Hin. apply nth_error_In in Hin.
    exists r0, (Z.of_nat k). now split.
Qed.

(** X15.  The regions [detect] returns carry the ids [0 .. n-1] in order,
    whatever the masks are; an empty segmentation gives an empty list. *)
Theorem detect_ids_contiguous (pt : Contour -> R * R -> R)
    (self : SAMDiamondDetector) (masks : list MaskMeasures) :
  map id (detect pt self masks)
  = map Z.of_nat (seq 0 (length (detect pt self masks)))
  /\ detect pt self [] = [].
Proof.
  split; [|reflexivity]. unfold detect.
  pose proof (detect_loop_spec self (fun _ => True) (fun _ _ _ _ => I)
                masks [] eq_refl (Forall_nil _)) as H.
  cbn [length] in H. change (Z.of_nat 0) with 0%Z in H.
  destruct (fold_left (detect_step self) masks ([], 0%Z)) as [rois k].
  destruct H as (Hids & _ & _).
  unfold _remove_nested_rois.
  destruct (length rois <=? 1)%nat; [exact Hids|].
  now rewrite reindex_ids, reindex_length.
Qed.

(** X16.  Every region [detect] returns passed the filters of the loop:
    its pixel area is within the configured bounds, its contour has at
    least five points, its orientation is still "unknown", and its shape
    category is "round" exactly when its aspect ratio exceeds 0.85, and
    "other" otherwise. *)
Theorem detect_regions_filtered (pt : Contour -> R * R -> R)
    (self : SAMDiamondDetector) (masks : list MaskMeasures) :
  Forall (fun r =>
            IZR (min_area self) <= area r <= IZR (max_area self)
            /\ (5 <= length (contour r))%nat
            /\ orientation r = "unknown"%string
            /\ (detected_type r = "round"%string
                \/ detected_type r = "other"%string)
            /\ (detected_type r = "round"%string <-> aspect_ratio r > 0.85))
         (detect pt self masks).
Proof.
  unfold detect.
  pose proof (detect_loop_spec self
                (fun r =>
                   IZR (min_area self) <= area r <= IZR (max_area self)
                   /\ (5 <= length (contour r))%nat
                   /\ orientation r = "unknown"%string
                   /\ (detected_type r = "round"%string
                       \/ detected_type r = "other"%string)
                   /\ (detected_type r = "round"%string
                       <-> aspect_ratio r > 0.85))) as H.
  specialize (H (fun m k r Hm => proj2 (detect_mask_props self m k r Hm))
                masks [] eq_refl (Forall_nil _)).
  cbn [length] in H. change (Z.of_nat 0) with 0%Z in H.
  destruct (fold_left (detect_step self) masks ([], 0%Z)) as [rois k].
  destruct H as (_ & _ & HF).
  apply Forall_forall. intros r Hr.
  apply remove_nested_from_input in Hr as (r0 & i & Hr0 & ->).
  rewrite Forall_forall in HF. exact (HF r0 Hr0).
Qed.

End DetectMore.

(** ** Nested regions and shape categories of detected regions *)

Section DetectClaims.
Import NP Detector.
Local Open Scope R_scope.

Lemma detect_collected (pt : Contour -> R * R -> R)
    (self : SAMDiamondDetector) (masks : list MaskMeasures) :
  detect pt self masks = _remove_nested_rois pt (Props.collected self masks).
Proof.
  unfold detect, Props.collected.
  now destruct (fold_left (detect_step self) masks ([], 0%Z)).
Qed.

Lemma collected_ids (self : SAMDiamondDetector) (masks : list MaskMeasures) :
  map id (Props.collected self masks)
  = map Z.of_nat (seq 0 (length (Props.collected self masks))).
Proof.
  unfold Props.collected.
  pose proof (detect_loop_spec self (fun _ => True) (fun _ _ _ _ => I)
                masks [] eq_refl (Forall_nil _)) as H.
  cbn [length] in H. change (Z.of_nat 0) with 0%Z in H.
  destruct (fold_left (detect_step self) masks ([], 0%Z)) as [rois k].
  now destruct H.
Qed.

(** C8 (amended).  [detect] returns, in detection order, the regions its
    loop collected at the surviving indices [idxs], the [k]-th one with id
    [k]; a collected region nested in a larger one (smaller area, centroid
    inside its contour, bounding box inside its bounding box) does not
    survive when the larger one survives or comes later in detection
    order. *)
Theorem nested_removal_survivors (pt : Contour -> R * R -> R)
    (self : SAMDiamondDetector) (masks : list MaskMeasures) :
  let rois := Props.collected self masks in
  exists idxs,
    StronglySorted lt idxs
    /\ length (detect pt self masks) = length idxs
    /\ (forall k i, nth_error idxs k = Some i ->
        exists A, nth_error rois i = Some A
                  /\ nth_error (detect pt self masks) k
                     = Some (set_id A (Z.of_nat k)))
    /\ (forall a b A B,
          nth_error rois a = Some A -> nth_error rois b = Some B ->
          area A < area B ->
          pt (contour B) (center A) >= 0 ->
          bbox_contained (bounding_box A) (bounding_box B) = true ->
          (a < b)%nat \/ In b idxs ->
          ~ In a idxs).
Proof.
  cbv zeta. rewrite detect_collected.
  apply remove_nested_spec. right. apply collected_ids.
Qed.

(** *** Three masks that reach the nested-region filter *)

Lemma PI_gt_2 : 2 < PI.
Proof. pose proof PI2_1. lra. Qed.

(** Conditions under which a contour passes the shape validation. *)
Lemma valid_shape_intro (hull_area contour_area : R) (num_labels w h : Z)
    (perimeter : R) :
  0 < hull_area -> 0.70 * hull_area <= contour_area ->
  (num_labels <= 2)%Z ->
  0.50 * IZR (w * h) <= contour_area ->
  0.30 * (perimeter * perimeter) <= 4 * PI * contour_area ->
  _is_valid_diamond_shape hull_area contour_area num_labels w h perimeter
  = true.
Proof.
  intros Hh Hs Hl He Hc. unfold _is_valid_diamond_shape.
  destruct (Rgt_dec hull_area 0); [|lra].
  destruct (Rlt_dec (contour_area / hull_area) 0.70) as [Hlt|_].
  { exfalso. apply (Rmult_lt_compat_r hull_area) in Hlt; [|lra].
    unfold Rdiv in Hlt. rewrite Rmult_assoc, Rinv_l, Rmult_1_r in Hlt by lra.
    lra. }
  destruct (Z.gtb_spec num_labels 2); [lia|].
  destruct (Z.gtb_spec (w * h) 0) as [Hpos|_].
  - assert (HposR : 0 < IZR (w * h)) by (apply IZR_lt; lia).
    destruct (Rlt_dec (contour_area / IZR (w * h)) 0.50) as [Hlt|_].
    { exfalso. apply (Rmult_lt_compat_r (IZR (w * h))) in Hlt; [|lra].
      unfold Rdiv in Hlt.
      rewrite Rmult_assoc, Rinv_l, Rmult_1_r in Hlt by lra. lra. }
    destruct (Rgt_dec perimeter 0) as [Hp|_]; [|reflexivity].
    destruct (Rlt_dec _ 0.30) as [Hlt|_]; [|reflexivity].
    exfalso. assert (Hpp : 0 < perimeter * perimeter) by nra.
    apply (Rmult_lt_compat_r (perimeter * perimeter)) in Hlt; [|lra].
    unfold Rdiv in Hlt. rewrite Rmult_assoc, Rinv_l, Rmult_1_r in Hlt by lra.
    lra.
  - destruct (Rgt_dec perimeter 0) as [Hp|_]; [|reflexivity].
    destruct (Rlt_dec _ 0.30) as [Hlt|_]; [|reflexivity].
    exfalso. assert (Hpp : 0 < perimeter * perimeter) by nra.
    apply (Rmult_lt_compat_r (perimeter * perimeter)) in Hlt; [|lra].
    unfold Rdiv in Hlt. rewrite Rmult_assoc, Rinv_l, Rmult_1_r in Hlt by lra.
    lra.
Qed.

(** The region the loop builds from a mask that passes its filters. *)
Lemma detect_mask_intro (self : SAMDiamondDetector) (m : MaskMeasures)
    (k : Z) (c : Contour) (x y w h : Z) (M mi ar : R) (dt : string) :
  (min_area self <= mm_area m <= max_area self)%Z ->
  mm_contour m = Some c -> (5 <= length c)%nat ->
  mm_bounding_rect m = (x, y, w, h) ->
  _is_valid_diamond_shape (mm_hull_area m) (mm_contour_area m)
    (mm_num_labels m) w h (mm_perimeter m) = true ->
  mm_m00 m <> 0 ->
  shape_of_axes (mm_axes m) = (M, mi, ar, dt) ->
  detect_mask self m k
  = Some {| contour := c; bounding_box := (x, y, w, h);
            center := (mm_m10 m / mm_m00 m, mm_m01 m / mm_m00 m);
            area := IZR (mm_area m); perimeter := mm_perimeter m; id := k;
            major_axis := M; minor_axis := mi; aspect_ratio := ar;
            orientation := "unknown"; detected_type := dt |}.
Proof.
  intros Ha Hc Hl Hb Hv H0 Hs. unfold detect_mask.
  destruct (Z.ltb_spec (mm_area m) (min_area self)); [lia|].
  destruct (Z.gtb_spec (mm_area m) (max_area self)); [lia|].
  cbn [orb]. rewrite Hc.
  destruct (Nat.ltb_spec (length c) 5); [lia|].
  rewrite Hb, Hv. cbn [negb].
  destruct (Req_dec_T (mm_m00 m) 0); [contradiction|].
  rewrite Hs. reflexivity.
Qed.

Ltac eval_shape_of_axes :=
  unfold shape_of_axes; cbn [fst snd]; unfold py_max_R, py_min_R;
  repeat match goal with
    | |- context [Rlt_dec ?a ?b] => destruct (Rlt_dec a b); try lra
    | |- context [Rgt_dec ?a ?b] => destruct (Rgt_dec a b); try lra
    end;
  reflexivity.

Lemma detect_inner (k : Z) :
  detect_mask (default_detector false) Examples.inner_mask k
  = Some (set_id Examples.inner k).
Proof.
  pose proof PI_gt_2.
  rewrite (detect_mask_intro _ Examples.inner_mask k
             (contour Examples.inner) 95 95 21 21
             24 24 (24 / 24) "round");
    [ unfold set_id, Examples.inner; cbn;
      replace (42000 / 400) with 105 by lra;
      replace (24 / 24) with 1 by lra; reflexivity
    | cbn; lia
    | reflexivity
    | cbn; lia
    | reflexivity
    | apply valid_shape_intro; cbn -[IZR Rmult Z.mul];
        try rewrite mult_IZR; try lra; try lia; nra
    | cbn; lra
    | cbn; eval_shape_of_axes ].
Qed.

Lemma detect_middle (k : Z) :
  detect_mask (default_detector false) Examples.middle_mask k
  = Some (set_id Examples.middle k).
Proof.
  pose proof PI_gt_2.
  rewrite (detect_mask_intro _ Examples.middle_mask k
             (contour Examples.middle) 20 20 101 101
             116 116 (116 / 116) "round");
    [ unfold set_id, Examples.middle; cbn;
      replace (700000 / 10000) with 70 by lra;
      replace (116 / 116) with 1 by lra; reflexivity
    | cbn; lia
    | reflexivity
    | cbn; lia
    | reflexivity
    | apply valid_shape_intro; cbn -[IZR Rmult Z.mul];
        try rewrite mult_IZR; try lra; try lia; nra
    | cbn; lra
    | cbn; eval_shape_of_axes ].
Qed.

Lemma detect_outer (k : Z) :
  detect_mask (default_detector false) Examples.outer_mask k
  = Some (set_id Examples.outer k).
Proof.
  pose proof PI_gt_2.
  rewrite (detect_mask_intro _ Examples.outer_mask k
             (contour Examples.outer) 0 0 151 151
             175 140 (140 / 175) "other");
    [ unfold set_id, Examples.outer; cbn; reflexivity
    | cbn; lia
    | reflexivity
    | cbn; lia
    | reflexivity
    | apply valid_shape_intro; cbn -[IZR Rmult Z.mul];
        try rewrite mult_IZR; try lra; try lia; nra
    | cbn; lra
    | cbn; eval_shape_of_axes ].
Qed.

Lemma collected_examples :
  Props.collected (default_detector false)
    [Examples.middle_mask; Examples.inner_mask; Examples.outer_mask]
  = [Examples.middle; Examples.inner; Examples.outer].
Proof.
  unfold Props.collected. cbn [fold_left]. unfold detect_step.
  rewrite detect_middle. cbn [app Z.add].
  rewrite detect_inner. cbn [app Z.add].
  change (0 + 1 + 1)%Z with 2%Z. rewrite detect_outer. reflexivity.
Qed.

(** Evaluates [convex_pointPolygonTest] at constants. *)
Ltac eval_convex_test :=
  unfold Examples.convex_pointPolygonTest, Examples.edges, Examples.cross,
    Examples.inner, Examples.middle, Examples.outer;
  cbn [contour center tl firstn app combine forallb existsb fst snd
       andb orb Z.add];
  repeat match goal with
    | |- context [Rle_dec ?a ?b] =>
        destruct (Rle_dec a b); try lra; cbn [andb orb]
    end;
  try reflexivity.

Lemma center_middle_inside_outer :
  Examples.convex_pointPolygonTest (contour Examples.outer)
    (center Examples.middle) = 1.
Proof. eval_convex_test. Qed.

Lemma center_inner_outside_outer :
  Examples.convex_pointPolygonTest (contour Examples.outer)
    (center Examples.inner) = -1.
Proof. eval_convex_test. Qed.

Lemma center_inner_inside_middle :
  Examples.convex_pointPolygonTest (contour Examples.middle)
    (center Examples.inner) = 1.
Proof. eval_convex_test. Qed.

Lemma inner_in_middle :
  nested_in Examples.convex_pointPolygonTest Examples.inner Examples.middle
  = true.
Proof.
  apply nested_in_true_iff. rewrite center_inner_inside_middle.
  repeat split; [simpl; lra|lra].
Qed.

Lemma middle_in_outer :
  nested_in Examples.convex_pointPolygonTest Examples.middle Examples.outer
  = true.
Proof.
  apply nested_in_true_iff. rewrite center_middle_inside_outer.
  repeat split; [simpl; lra|lra].
Qed.

Lemma inner_not_in_outer :
  nested_in Examples.convex_pointPolygonTest Examples.inner Examples.outer
  = false.
Proof.
  unfold nested_in. rewrite center_inner_outside_outer.
  destruct (Rge_dec (area Examples.inner) (area Examples.outer));
    [reflexivity|].
  destruct (Rge_dec (-1) 0); [lra|reflexivity].
Qed.

(** The loops remove index 0 (the region [middle]) only. *)
Lemma example_indices :
  nested_indices Examples.convex_pointPolygonTest
    [Examples.middle; Examples.inner; Examples.outer]
  = [0%nat].
Proof.
  set (rois := [Examples.middle; Examples.inner; Examples.outer]).
  assert (S0 : nested_step Examples.convex_pointPolygonTest rois []
                 (0%nat, Examples.middle) = [0%nat]).
  { unfold nested_step, enumerate, rois.
    cbn [mem existsb length seq combine nested_scan Nat.eqb orb].
    rewrite (larger_not_nested _ Examples.middle Examples.inner)
      by (simpl; lra).
    now rewrite middle_in_outer. }
  assert (S1 : nested_step Examples.convex_pointPolygonTest rois [0%nat]
                 (1%nat, Examples.inner) = [0%nat]).
  { unfold nested_step, enumerate, rois.
    cbn [mem existsb length seq combine nested_scan Nat.eqb orb].
    now rewrite inner_not_in_outer. }
  assert (S2 : nested_step Examples.convex_pointPolygonTest rois [0%nat]
                 (2%nat, Examples.outer) = [0%nat]).
  { unfold nested_step, enumerate, rois.
    cbn [mem existsb length seq combine nested_scan Nat.eqb orb].
    now rewrite (larger_not_nested _ Examples.outer Examples.inner)
      by (simpl; lra). }
  unfold nested_indices.
  change (enumerate rois)
    with [(0%nat, Examples.middle); (1%nat, Examples.inner);
          (2%nat, Examples.outer)].
  cbn [fold_left]. now rewrite S0, S1, S2.
Qed.

(** C8 (counterexample).  Three masks that pass every filter of the loop,
    in detection order [middle; inner; outer]: [inner] is smaller than
    [middle], its centroid lies inside [middle]'s contour and its bounding
    box inside [middle]'s; [middle] is removed because of [outer], after
    which [inner] is only compared with [outer], whose contour does not
    hold [inner]'s centroid.  [inner] survives, with id 0. *)
Lemma nested_region_survives :
  let masks :=
    [Examples.middle_mask; Examples.inner_mask; Examples.outer_mask] in
  Props.collected (default_detector false) masks
  = [Examples.middle; Examples.inner; Examples.outer]
  /\ area Examples.inner < area Examples.middle
  /\ Examples.convex_pointPolygonTest (contour Examples.middle)
       (center Examples.inner) >= 0
  /\ bbox_contained (bounding_box Examples.inner)
       (bounding_box Examples.middle) = true
  /\ detect Examples.convex_pointPolygonTest (default_detector false) masks
     = [set_id Examples.inner 0; set_id Examples.outer 1].
Proof.
  cbv zeta. split; [exact collected_examples|].
  split; [simpl; lra|]. split; [rewrite center_inner_inside_middle; lra|].
  split; [reflexivity|].
  rewrite detect_collected, collected_examples.
  unfold _remove_nested_rois. cbn [length Nat.leb].
  rewrite example_indices. reflexivity.
Qed.

(** Every collected region was built from one of the masks. *)
Lemma collected_origin (self : SAMDiamondDetector) (masks : list MaskMeasures)
    (r : DiamondROI) :
  In r (Props.collected self masks) ->
  exists m k, In m masks /\ detect_mask self m k = Some r.
Proof.
  unfold Props.collected.
  assert (G : forall ms rois0 k0,
             In r (fst (fold_left (detect_step self) ms (rois0, k0))) ->
             In r rois0
             \/ exists m k, In m ms /\ detect_mask self m k = Some r).
  { induction ms as [|m ms IH]; intros rois0 k0 Hin; [now left|].
    cbn [fold_left] in Hin. unfold detect_step at 2 in Hin.
    destruct (detect_mask self m k0) as [d|] eqn:Hd.
    - apply IH in Hin as [Hin|(m' & k & Hm & Hk)].
      + apply in_app_or in Hin as [Hin|[<-|[]]]; [now left|].
        right. exists m, k0. split; [now left|exact Hd].
      + right. exists m', k. split; [now right|exact Hk].
    - apply IH in Hin as [Hin|(m' & k & Hm & Hk)]; [now left|].
      right. exists m', k. split; [now right|exact Hk]. }
  intros Hin. apply G in Hin as [[]|H]. exact H.
Qed.

(** The shape fields of a region are those of the ellipse fitted to its
    mask. *)
Lemma detect_mask_shape (self : SAMDiamondDetector) (m : MaskMeasures)
    (k : Z) (r : DiamondROI) :
  detect_mask self m k = Some r ->
  mm_contour m = Some (contour r)
  /\ shape_of_axes (mm_axes m)
     = (major_axis r, minor_axis r, aspect_ratio r, detected_type r).
Proof.
  unfold detect_mask.
  destruct (_ || _)%bool; [discriminate|].
  destruct (mm_contour m) as [c|]; [|discriminate].
  destruct (length c <? 5)%nat; [discriminate|].
  destruct (mm_bounding_rect m) as [[[x y] w] h].
  destruct (negb _); [discriminate|].
  destruct (Req_dec_T (mm_m00 m) 0); [discriminate|].
  destruct (shape_of_axes (mm_axes m)) as [[[M mi] ar] dt].
  intros Heq. injection Heq as <-. cbn. split; reflexivity.
Qed.

(** C10.  Every region [detect] returns was built from one of the masks,
    has the larger and the smaller axis of the ellipse fitted to that mask
    as its major and minor axis, and is "round" exactly when the major
    axis is positive and minor/major exceeds 0.85, and "other" in every
    other case. *)
Theorem shape_category_by_axis_ratio (pt : Contour -> R * R -> R)
    (self : SAMDiamondDetector) (masks : list MaskMeasures) :
  Forall (fun r =>
            exists m, In m masks
              /\ mm_contour m = Some (contour r)
              /\ major_axis r = Rmax (fst (mm_axes m)) (snd (mm_axes m))
              /\ minor_axis r = Rmin (fst (mm_axes m)) (snd (mm_axes m))
              /\ (detected_type r = "round"%string
                  <-> 0 < major_axis r
                      /\ minor_axis r / major_axis r > 0.85)
              /\ (detected_type r = "other"%string
                  <-> ~ (0 < major_axis r
                         /\ minor_axis r / major_axis r > 0.85)))
         (detect pt self masks).
Proof.
  apply Forall_forall. intros r Hr. rewrite detect_collected in Hr.
  apply remove_nested_from_input in Hr as (r0 & i & Hr0 & ->).
  apply collected_origin in Hr0 as (m & k & Hm & Hk).
  apply detect_mask_shape in Hk as [Hc Hs].
  exists m. split; [exact Hm|]. split; [exact Hc|].
  cbn [major_axis minor_axis detected_type set_id].
  pose proof (shape_of_axes_spec (mm_axes m)) as H. rewrite Hs in H.
  exact H.
Qed.

End DetectClaims.

(** ** More on nested regions *)

Section NestedMore.
Import Detector.
Local Open Scope R_scope.

Variable pt : Contour -> R * R -> R.

Lemma nested_scan_found (to_remove : list nat) (i : nat) (roi_i : DiamondROI)
    (js : list (nat * DiamondROI)) :
  nested_scan pt to_remove i roi_i js = true ->
  exists j roi_j, In (j, roi_j) js /\ nested_in pt roi_i roi_j = true.
Proof.
  induction js as [|[j r] js IH]; [discriminate|].
  cbn [nested_scan].
  destruct ((i =? j)%nat || mem j to_remove).
  - intros H. destruct (IH H) as (j' & r' & Hin & Hn).
    exists j', r'. split; [now right|exact Hn].
  - destruct (nested_in pt roi_i r) eqn:Hn.
    + intros _. exists j, r. split; [now left|exact Hn].
    + intros H. destruct (IH H) as (j' & r' & Hin & Hn').
      exists j', r'. split; [now right|exact Hn'].
Qed.

(** An index is removed only because of a region that holds it. *)
Lemma nested_fold_sound (rois : list DiamondROI)
    (ps : list (nat * DiamondROI)) :
  forall to_remove a,
    In a (fold_left (nested_step pt rois) ps to_remove) ->
    In a to_remove
    \/ exists A B, In (a, A) ps /\ In B rois /\ nested_in pt A B = true.
Proof.
  induction ps as [|[i r] ps IH]; intros tr a Ha; [now left|].
  cbn [fold_left] in Ha. apply IH in Ha as [Ha|(A & B & Hin & HB & Hn)].
  - unfold nested_step in Ha. destruct (mem i tr); [now left|].
    destruct (nested_scan pt tr i r (enumerate rois)) eqn:Hs; [|now left].
    destruct Ha as [<-|Ha]; [|now left].
    right. apply nested_scan_found in Hs as (j & B & Hin & Hn).
    exists r, B. split; [now left|]. split; [|exact Hn].
    apply in_enumerate in Hin. now apply nth_error_In in Hin.
  - right. exists A, B. split; [now right|tauto].
Qed.

(** A region that no region of the list holds is in the output, up to its
    id. *)
Lemma unnested_survives (rois : list DiamondROI) (a : nat) (A : DiamondROI) :
  nth_error rois a = Some A ->
  (forall B, In B rois -> nested_in pt A B = false) ->
  exists k r,
    nth_error (_remove_nested_rois pt rois) k = Some r
    /\ set_id r (id A) = A.
Proof.
  intros HA Hfree. unfold _remove_nested_rois.
  destruct (length rois <=? 1)%nat.
  - exists a, A. split; [exact HA|apply set_id_same].
  - assert (Hna : ~ In a (nested_indices pt rois)).
    { intros Hin. unfold nested_indices in Hin.
      apply nested_fold_sound in Hin as [[]|(A' & B & HinA & HB & Hn)].
      apply in_enumerate in HinA. rewrite HA in HinA. injection HinA as <-.
      rewrite (Hfree B HB) in Hn. discriminate. }
    assert (Hk : In (a, A) (kept_rois rois (nested_indices pt rois))).
    { unfold kept_rois. apply filter_In. split; [now apply in_enumerate|].
      cbn [fst]. apply negb_true_iff. now apply mem_false. }
    apply (in_map snd) in Hk. cbn [snd] in Hk.
    apply In_nth_error in Hk as (k & Hk).
    exists k, (set_id A (Z.of_nat k)). split.
    + now rewrite reindex_nth, Hk.
    + now destruct A.
Qed.

(** X17.  Only nested regions are removed: a region that, for every region
    of the list, is not smaller, or has its centroid outside that region's
    contour, or has a bounding box not contained in that region's, is in
    the output (with a possibly different id); in particular a region of
    maximal area always survives. *)
Theorem nested_removal_keeps_unnested
    (rois : list DiamondROI) (a : nat) (A : DiamondROI) :
  nth_error rois a = Some A ->
  (forall B, In B rois ->
     area B <= area A
     \/ pt (contour B) (center A) < 0
     \/ bbox_contained (bounding_box A) (bounding_box B) = false) ->
  exists k r,
    nth_error (_remove_nested_rois pt rois) k = Some r
    /\ set_id r (id A) = A.
Proof.
  intros HA Hfree. apply (unnested_survives rois a A HA).
  intros B HB. destruct (nested_in pt A B) eqn:Hn; [|reflexivity].
  apply nested_in_true_iff in Hn as (H1 & H2 & H3).
  destruct (Hfree B HB) as [H|[H|H]]; [lra|lra|congruence].
Qed.

Lemma max_area_exists (rois : list DiamondROI) :
  rois <> [] ->
  exists a A, nth_error rois a = Some A
              /\ forall B, In B rois -> area B <= area A.
Proof.
  induction rois as [|x rois IH]; [congruence|]. intros _.
  destruct rois as [|y rois].
  - exists 0%nat, x. split; [reflexivity|]. intros B [<-|[]]. lra.
  - destruct (IH ltac:(discriminate)) as (a & A & Ha & Hmax).
    destruct (Rle_dec (area A) (area x)) as [Hle|Hgt].
    + exists 0%nat, x. split; [reflexivity|].
      intros B [<-|HB]; [lra|]. specialize (Hmax B HB). lra.
    + exists (S a), A. split; [exact Ha|].
      intros B [<-|HB]; [lra|]. now apply Hmax.
Qed.

(** X18.  [_remove_nested_rois] never returns more regions than it got and
    never empties a non-empty list. *)
Theorem nested_removal_size (rois : list DiamondROI) :
  (length (_remove_nested_rois pt rois) <= length rois)%nat
  /\ (rois <> [] -> _remove_nested_rois pt rois <> []).
Proof.
  split.
  - unfold _remove_nested_rois.
    destruct (length rois <=? 1)%nat; [lia|].
    rewrite reindex_length, length_map. unfold kept_rois.
    etransitivity; [apply filter_length_le|].
    unfold enumerate. rewrite length_combine, length_seq. lia.
  - intros Hne. destruct (max_area_exists rois Hne) as (a & A & Ha & Hmax).
    destruct (unnested_survives rois a A Ha) as (k & r & Hk & _).
    + intros B HB. apply larger_not_nested. now apply Hmax.
    + intros Hnil. rewrite Hnil in Hk. now destruct k.
Qed.

End NestedMore.

Section NestedMoreExamples.
Import Detector.
Local Open Scope R_scope.

(** The pentagon [outer], the largest of the three example regions. *)
Lemma nested_removal_keeps_unnested_witness :
  exists k r,
    nth_error (_remove_nested_rois Examples.convex_pointPolygonTest
                 [Examples.middle; Examples.inner; Examples.outer]) k = Some r
    /\ set_id r (id Examples.outer) = Examples.outer.
Proof.
  apply (nested_removal_keeps_unnested Examples.convex_pointPolygonTest
           [Examples.middle; Examples.inner; Examples.outer] 2 Examples.outer).
  - reflexivity.
  - intros B [<-|[<-|[<-|[]]]]; left; simpl; lra.
Defined.

End NestedMoreExamples.

(** ** More on the rule-based decision *)

Section ClassifierMore.
Import NP Classifier.
Local Open Scope R_scope.

(** Splits the tests of [_make_decision] one after the other, dropping the
    branches whose conditions contradict each other. *)
Ltac decision_cases :=
  repeat match goal with
    | H : Rabs _ < _ |- _ => apply Rabs_def2 in H
    | |- context [Rge_dec ?a ?b] =>
        destruct (Rge_dec a b); cbn [andb orb Nat.add Nat.leb]; try lra
    | |- context [Rlt_dec ?a ?b] =>
        destruct (Rlt_dec a b); cbn [andb orb Nat.add Nat.leb]; try lra
    end.

(** X19.  With the default thresholds and metrics in [[0, 1]], the
    confidence of a "table" decision is in [[0.6, 1]] and that of a
    "tilted" decision in [(0.28, 1]]. *)
Theorem make_decision_confidence_bounds
    (outline reflection aspect spot_sym : R) (has_spot : bool) :
  0 <= outline <= 1 -> 0 <= reflection <= 1 -> 0 <= aspect <= 1 ->
  0 <= spot_sym <= 1 ->
  let d := _make_decision default_classifier outline reflection has_spot
             spot_sym aspect in
  (fst d = "table"%string /\ 0.60 <= snd d <= 1)
  \/ (fst d = "tilted"%string /\ 0.28 < snd d <= 1).
Proof.
  intros Ho Hr Ha Hs. cbv zeta. unfold _make_decision, Rgeb, Rltb.
  cbn [outline_sym_threshold reflection_sym_threshold spot_sym_threshold
       aspect_ratio_threshold default_classifier].
  destruct has_spot; decision_cases; cbn [fst snd];
    first [left; split; [reflexivity|lra] | right; split; [reflexivity|lra]].
Qed.

Lemma make_decision_confidence_bounds_witness :
  let d := _make_decision default_classifier 0.65 0.6 true 0.9 0.55 in
  (fst d = "table"%string /\ 0.60 <= snd d <= 1)
  \/ (fst d = "tilted"%string /\ 0.28 < snd d <= 1).
Proof.
  apply (make_decision_confidence_bounds 0.65 0.6 0.55 0.9 true); lra.
Defined.

Lemma not_Rabs_lt (x c : R) : ~ Rabs x < c -> x <= - c \/ c <= x.
Proof.
  intros H. destruct (Rle_dec x (- c)); [now left|].
  destruct (Rle_dec c x); [now right|].
  exfalso. apply H. apply Rabs_def1; lra.
Qed.

(** When [_make_decision] says "table". *)
Lemma make_decision_table_iff
    (outline reflection aspect spot_sym : R) (has_spot : bool) :
  let score := 0.25 * outline + 0.35 * reflection + 0.40 * aspect in
  fst (_make_decision default_classifier outline reflection has_spot
         spot_sym aspect) = "table"%string
  <-> (0.70 <= outline /\ 0.65 <= reflection /\ 0.58 <= aspect)
      \/ (((0.60 <= outline /\ 0.55 <= reflection)
           \/ (0.60 <= outline /\ 0.52 <= aspect)
           \/ (0.55 <= reflection /\ 0.52 <= aspect))
          /\ (0.60 <= score
              \/ (has_spot = true /\ 0.60 <= spot_sym /\ 0.55 < score
                  /\ 0.60 <= 0.7 * score + 0.3 * spot_sym))).
Proof.
  cbv zeta. unfold _make_decision, Rgeb, Rltb.
  cbn [outline_sym_threshold reflection_sym_threshold spot_sym_threshold
       aspect_ratio_threshold default_classifier].
  set (score := 0.25 * outline + 0.35 * reflection + 0.40 * aspect).
  destruct (Rge_dec outline 0.70), (Rge_dec reflection 0.65),
    (Rge_dec aspect 0.58); cbn [andb fst];
    try (split; [intros _; left; lra|reflexivity]).
  all: destruct (Rlt_dec outline 0.60), (Rlt_dec reflection 0.55),
         (Rlt_dec aspect 0.52); cbn [Nat.add Nat.leb fst];
       try (split; [discriminate|intros H; exfalso; lra]).
  all: destruct (Rlt_dec (Rabs (score - 0.60)) 0.05) as [Hb|Hb];
       [apply Rabs_def2 in Hb|apply not_Rabs_lt in Hb].
  all: destruct has_spot; cbn [andb].
  all: try destruct (Rge_dec spot_sym 0.60).
  all: match goal with
       | |- context [Rge_dec ?a ?b] => destruct (Rge_dec a b)
       end; cbn [fst].
  all: try (split; [intros _|reflexivity]).
  all: try (split; [discriminate|intros H; exfalso]).
  all: try lra.
  all: try (right; split; [lra|]).
  all: try (left; lra).
  all: try (right; repeat split; lra).
  all: try (destruct H as [H|[_ [H|(H1 & H2)]]]; try discriminate; lra).
Qed.

(** X21.  With the default thresholds the decision is monotone in the
    three primary metrics: raising the outline symmetry, the reflection
    symmetry or the aspect ratio never turns "table" into "tilted". *)
Theorem make_decision_monotone
    (outline reflection aspect outline' reflection' aspect' spot_sym : R)
    (has_spot : bool) :
  outline <= outline' -> reflection <= reflection' -> aspect <= aspect' ->
  fst (_make_decision default_classifier outline reflection has_spot
         spot_sym aspect) = "table"%string ->
  fst (_make_decision default_classifier outline' reflection' has_spot
         spot_sym aspect') = "table"%string.
Proof.
  intros Ho Hr Ha H. apply make_decision_table_iff in H.
  apply make_decision_table_iff. cbv zeta in *.
  destruct H as [H|[Hw [Hp|(Hs & Hq & Hp1 & Hp2)]]].
  - left. lra.
  - right. split; [|left; lra].
    destruct Hw as [Hw|[Hw|Hw]]; [left|right; left|right; right]; lra.
  - right. split; [|right; repeat split; [exact Hs|lra..]].
    destruct Hw as [Hw|[Hw|Hw]]; [left|right; left|right; right]; lra.
Qed.

Lemma make_decision_monotone_witness :
  fst (_make_decision default_classifier 0.8 0.7 true 0.9 0.6) = "table"%string.
Proof.
  apply (make_decision_monotone 0.65 0.6 0.55 0.8 0.7 0.6 0.9 true); try lra.
  apply make_decision_table_iff. cbv zeta. right. split; [left; lra|].
  right. repeat split; lra.
Defined.

Lemma geb_Fin (x y : R) : geb (Fin x) (Fin y) = Rgeb x y.
Proof. unfold geb, Rgeb. cbn [ltb]. real_cases; reflexivity. Qed.

(** On finite values the decision on floats is [_make_decision]. *)
Lemma make_decision_float_finite (self : PureGeometricClassifier)
    (outline reflection aspect spot_sym : R) (has_spot : bool) :
  _make_decision_float self (Fin outline) (Fin reflection) has_spot
    (Fin spot_sym) (Fin aspect)
  = (fst (_make_decision self outline reflection has_spot spot_sym aspect),
     Fin (snd (_make_decision self outline reflection has_spot spot_sym
                 aspect))).
Proof.
  unfold _make_decision_float, _make_decision. rewrite !geb_Fin.
  unfold sub. cbn [ltb add mul opp abs div].
  rewrite (Rsign_pos 3) by lra. unfold Rltb, Rminus.
  destruct has_spot;
  repeat match goal with
    | |- context [geb (Fin ?a) (Fin ?b)] => rewrite (geb_Fin a b)
    | |- context [Rlt_dec ?a ?b] =>
        destruct (Rlt_dec a b); cbn [andb Nat.add Nat.leb fst snd add mul opp]
    | |- context [Rgeb ?a ?b] =>
        lazymatch a with
        | context [if _ then _ else _] => fail
        | _ => destruct (Rgeb a b);
               cbn [andb Nat.add Nat.leb fst snd add mul opp]
        end
    end;
    reflexivity.
Qed.

(** X22.  When the outline symmetry score is [nan] (as it is for a patch
    of uniform brightness), the decision is "tilted" with a [nan]
    confidence, whatever the other metrics are. *)
Theorem nan_outline_decides_tilted_nan (self : PureGeometricClassifier)
    (reflection spot_sym aspect : npfloat) (has_spot : bool) :
  _make_decision_float self NaN reflection has_spot spot_sym aspect
  = ("tilted"%string, NaN).
Proof.
  unfold _make_decision_float, sub.
  cbn [geb ltb andb add mul opp abs div].
  destruct (ltb reflection (Fin 0.55)), (ltb aspect (Fin 0.52));
    cbn [Nat.add Nat.leb]; try reflexivity.
  all: destruct reflection, aspect; reflexivity.
Qed.

(** X23.  When both axis scores are numbers, [_analyze_outline_symmetry]
    returns the major score with the major axis unless the major score is
    strictly below the minor one, in which case it returns the minor score
    with the minor axis: the score is the greater one, it belongs to the
    axis returned, and a tie goes to the major axis.  When only the minor
    score is [nan] it returns the major score with the minor axis. *)
Theorem outline_axis_matches_score (n : nat)
    (symmetry_score_major symmetry_score_minor : npfloat)
    (major_axis_angle minor_axis_angle : R) :
  (5 <= n)%nat ->
  let '(score, axis) :=
    _analyze_outline_symmetry n symmetry_score_major symmetry_score_minor
      major_axis_angle minor_axis_angle in
  (symmetry_score_major <> NaN -> symmetry_score_minor <> NaN ->
   (ltb symmetry_score_major symmetry_score_minor = false
    /\ axis = major_axis_angle /\ score = symmetry_score_major
    /\ le symmetry_score_minor symmetry_score_major)
   \/ (ltb symmetry_score_major symmetry_score_minor = true
       /\ axis = minor_axis_angle /\ score = symmetry_score_minor
       /\ le symmetry_score_major symmetry_score_minor))
  /\ (symmetry_score_major <> NaN -> symmetry_score_minor = NaN ->
      axis = minor_axis_angle /\ score = symmetry_score_major).
Proof.
  intros Hn. unfold _analyze_outline_symmetry.
  destruct (Nat.ltb_spec n 5) as [|_]; [lia|].
  unfold Symmetry.best_symmetry, py_max, geb.
  destruct symmetry_score_major as [x| | |], symmetry_score_minor as [y| | |];
    cbn [ltb negb le]; split; try congruence; intros _ _;
    try (left; repeat split; exact I);
    try (right; repeat split; exact I);
    try (split; reflexivity).
  destruct (Rlt_dec x y); cbn [negb];
    [right|left]; repeat split; lra.
Qed.

(** A tie: both axes score 0.9, and the major axis (30 degrees) is
    returned. *)
Lemma outline_axis_matches_score_witness :
  let '(score, axis) :=
    _analyze_outline_symmetry 8 (Fin 0.9) (Fin 0.9) 30 120 in
  (Fin 0.9 <> NaN -> Fin 0.9 <> NaN ->
   (ltb (Fin 0.9) (Fin 0.9) = false
    /\ axis = 30 /\ score = Fin 0.9 /\ le (Fin 0.9) (Fin 0.9))
   \/ (ltb (Fin 0.9) (Fin 0.9) = true
       /\ axis = 120 /\ score = Fin 0.9 /\ le (Fin 0.9) (Fin 0.9)))
  /\ (Fin 0.9 <> NaN -> Fin 0.9 = NaN -> axis = 120 /\ score = Fin 0.9).
Proof.
  apply (outline_axis_matches_score 8 (Fin 0.9) (Fin 0.9) 30 120). lia.
Defined.

(** [np.argmax] points at the greatest value. *)
Lemma argmax_from_spec (l pre : list Z) (best_i : nat) (best : Z) :
  nth best_i pre 0%Z = best -> (best_i < length pre)%nat ->
  nth (argmax_from best_i best (length pre) l) (pre ++ l) 0%Z
  = fold_left Z.max l best.
Proof.
  revert pre best_i best.
  induction l as [|x l IH]; intros pre best_i best Hb Hlt.
  - cbn [argmax_from fold_left]. rewrite app_nil_r. exact Hb.
  - cbn [argmax_from fold_left].
    replace (pre ++ x :: l)%list with ((pre ++ [x]) ++ l)%list
      by (rewrite <- app_assoc; reflexivity).
    replace (S (length pre)) with (length (pre ++ [x])%list)
      by (rewrite length_app; simpl; lia).
    destruct (Z.ltb_spec best x) as [Hlt'|Hge].
    + rewrite Z.max_r by lia.
      replace (length pre) with (length pre + 0)%nat at 1 by lia.
      apply IH.
      * rewrite Nat.add_0_r, app_nth2, Nat.sub_diag by lia. reflexivity.
      * rewrite Nat.add_0_r, length_app. simpl. lia.
    + rewrite Z.max_l by lia. apply IH.
      * rewrite app_nth1 by exact Hlt. exact Hb.
      * rewrite length_app. simpl. lia.
Qed.

Lemma argmax_largest (l : list Z) : nth (argmax l) l 0%Z = Props.largest l.
Proof.
  destruct l as [|x l]; [reflexivity|].
  apply (argmax_from_spec l [x] 0 x); simpl; [reflexivity|lia].
Qed.

(** The largest component and whether it is large. *)
Lemma largest_spot_spec (areas : list Z) (mask_sum : Z) :
  (0 <= mask_sum)%Z ->
  snd (largest_spot areas mask_sum) = Props.largest areas
  /\ (fst (largest_spot areas mask_sum) = true
      <-> 0.15 * (IZR mask_sum / 255) < IZR (Props.largest areas)).
Proof.
  intros Hm. assert (H0 : 0 <= 0.15 * (IZR mask_sum / 255)).
  { apply IZR_le in Hm. lra. }
  unfold largest_spot.
  destruct areas as [|x l].
  - cbn. split; [reflexivity|]. split; [discriminate|lra].
  - set (areas := x :: l).
    replace ((1 <? S (length areas))%nat) with true
      by (symmetry; apply Nat.ltb_lt; simpl; lia).
    replace ((0 <? length areas)%nat) with true
      by (symmetry; apply Nat.ltb_lt; simpl; lia).
    replace (argmax areas + 1 - 1)%nat with (argmax areas) by lia.
    rewrite argmax_largest.
    destruct (Rgt_dec (IZR (Props.largest areas)) (0.15 * (IZR mask_sum / 255)));
      cbn [fst snd]; split; try reflexivity; split; intros; try lra;
      try reflexivity; try discriminate.
Qed.

(** X24.  [_analyze_large_spots] picks the larger of the largest light
    and the largest dark component, and reports a large spot exactly when
    that component covers more than 15 percent of the mask; the dark one
    is picked only when it is strictly larger.  Without a large spot the
    symmetry is 0 and the spot is reported as light. *)
Theorem large_spot_choice (n : nat) (light_areas dark_areas : list Z)
    (mask_sum : Z) (m00 : R) (light_valid dark_valid : list Z * list Z) :
  n <> 0%nat -> (0 <= mask_sum)%Z ->
  let '(has_large_spot, spot_symmetry, is_light) :=
    _analyze_large_spots n light_areas dark_areas mask_sum m00
      light_valid dark_valid in
  let limit := 0.15 * (IZR mask_sum / 255) in
  let light := Props.largest light_areas in
  let dark := Props.largest dark_areas in
  (has_large_spot = true /\ is_light = true
   /\ (dark <= light)%Z /\ limit < IZR light
   /\ spot_symmetry
      = _measure_spot_symmetry m00 (fst light_valid) (snd light_valid))
  \/ (has_large_spot = true /\ is_light = false
      /\ (light < dark)%Z /\ limit < IZR dark
      /\ spot_symmetry
         = _measure_spot_symmetry m00 (fst dark_valid) (snd dark_valid))
  \/ (has_large_spot = false /\ is_light = true
      /\ IZR light <= limit /\ IZR dark <= limit /\ spot_symmetry = 0).
Proof.
  intros Hn Hm. unfold _analyze_large_spots.
  destruct (Nat.eqb_spec n 0) as [|_]; [contradiction|].
  destruct (largest_spot_spec light_areas mask_sum Hm) as [Hla Hll].
  destruct (largest_spot_spec dark_areas mask_sum Hm) as [Hda Hdl].
  destruct (largest_spot light_areas mask_sum) as [ll la].
  destruct (largest_spot dark_areas mask_sum) as [dl da].
  cbn [fst snd] in *. subst la da.
  set (light := Props.largest light_areas) in *.
  set (dark := Props.largest dark_areas) in *.
  set (limit := 0.15 * (IZR mask_sum / 255)) in *.
  destruct ll, dl; cbn [andb].
  - destruct (Z.leb_spec dark light) as [Hle|Hgt].
    + left. repeat split; try tauto; now apply Hll.
    + right. left. repeat split; try tauto; now apply Hdl.
  - assert (Hl : limit < IZR light) by now apply Hll.
    assert (Hd : IZR dark <= limit).
    { destruct (Rle_dec (IZR dark) limit); [assumption|].
      assert (true = false -> False) by discriminate.
      exfalso. apply H. symmetry. apply Hdl. lra. }
    destruct (Z.leb_spec dark light) as [Hle|Hgt].
    + left. repeat split; tauto.
    + exfalso. apply IZR_lt in Hgt. lra.
  - assert (Hd : limit < IZR dark) by now apply Hdl.
    assert (Hl : IZR light <= limit).
    { destruct (Rle_dec (IZR light) limit); [assumption|].
      exfalso. assert (H : false = true) by (apply Hll; lra). discriminate. }
    right. left. repeat split; try tauto; apply lt_IZR; lra.
  - right. right. repeat split.
    + destruct (Rle_dec (IZR light) limit); [assumption|].
      exfalso. assert (H : false = true) by (apply Hll; lra). discriminate.
    + destruct (Rle_dec (IZR dark) limit); [assumption|].
      exfalso. assert (H : false = true) by (apply Hdl; lra). discriminate.
Qed.

Lemma large_spot_choice_witness :
  let '(has_large_spot, spot_symmetry, is_light) :=
    _analyze_large_spots 100 [10; 30; 5]%Z [40; 2]%Z 25500 1 ([], []) ([], []) in
  let limit := 0.15 * (IZR 25500 / 255) in
  let light := Props.largest [10; 30; 5]%Z in
  let dark := Props.largest [40; 2]%Z in
  (has_large_spot = true /\ is_light = true
   /\ (dark <= light)%Z /\ limit < IZR light
   /\ spot_symmetry = _measure_spot_symmetry 1 [] [])
  \/ (has_large_spot = true /\ is_light = false
      /\ (light < dark)%Z /\ limit < IZR dark
      /\ spot_symmetry = _measure_spot_symmetry 1 [] [])
  \/ (has_large_spot = false /\ is_light = true
      /\ IZR light <= limit /\ IZR dark <= limit /\ spot_symmetry = 0).
Proof.
  apply (large_spot_choice 100 [10; 30; 5]%Z [40; 2]%Z 25500 1 ([], []) ([], []));
    [discriminate|lia].
Defined.

End ClassifierMore.

(** ** Brightness measures and symmetry over several axes *)

Section SymmetryMore.
Import NP Stats Symmetry.
Local Open Scope R_scope.

Lemma sum_bounds (lo hi : R) (l : list R) :
  Forall (fun x => lo <= x <= hi) l ->
  INR (length l) * lo <= sum l <= INR (length l) * hi.
Proof.
  induction 1 as [|x l Hx _ IH].
  - simpl. lra.
  - change (sum (x :: l)) with (x + sum l).
    change (length (x :: l)) with (S (length l)). rewrite S_INR. lra.
Qed.

Lemma mean_bounds (lo hi : R) (l : list R) :
  l <> [] -> Forall (fun x => lo <= x <= hi) l -> lo <= mean l <= hi.
Proof.
  intros Hne H. apply sum_bounds in H. unfold mean.
  assert (Hn : 0 < INR (length l)).
  { apply lt_0_INR. destruct l; [congruence|simpl; lia]. }
  split.
  - apply Rmult_le_reg_r with (INR (length l)); [exact Hn|].
    unfold Rdiv. rewrite Rmult_assoc, Rinv_l by lra. lra.
  - apply Rmult_le_reg_r with (INR (length l)); [exact Hn|].
    unfold Rdiv. rewrite Rmult_assoc, Rinv_l by lra. lra.
Qed.

(** The brightness of a non-empty selection of [uint8] pixels. *)
Lemma pixel_mean_unit (pixels : list Z) :
  pixels <> [] -> Forall (fun v => (0 <= v <= 255)%Z) pixels ->
  0 <= pixel_mean pixels / 255 <= 1.
Proof.
  intros Hne H. unfold pixel_mean.
  assert (Hb : 0 <= mean (map IZR pixels) <= 255).
  { apply mean_bounds.
    - destruct pixels; [congruence|discriminate].
    - apply Forall_map. eapply Forall_impl; [|exact H].
      intros v [H0 H1]. apply IZR_le in H0, H1. lra. }
  lra.
Qed.

Lemma uint8_concat (a : Array2) :
  Props.uint8_array a -> Forall (fun v => (0 <= v <= 255)%Z) (concat a).
Proof. intros H. now apply Forall_concat. Qed.

Lemma select_subset (image mask : Array2) (v : Z) :
  In v (select image mask) -> In v (concat image).
Proof.
  unfold select. intros H. apply in_map_iff in H as ([v' m] & <- & H).
  apply filter_In in H as [H _]. now apply in_combine_l in H.
Qed.

Lemma upto_subset {A : Type} (hi : Z) (l : list A) (x : A) :
  In x (upto hi l) -> In x l.
Proof.
  unfold upto. intros H. rewrite <- (firstn_skipn (Z.to_nat hi) l).
  apply in_or_app. now left.
Qed.

Lemma from_subset {A : Type} (lo : Z) (l : list A) (x : A) :
  In x (from lo l) -> In x l.
Proof.
  unfold from. intros H. rewrite <- (firstn_skipn (Z.to_nat lo) l).
  apply in_or_app. now right.
Qed.

Lemma slice_subset {A : Type} (lo hi : Z) (l : list A) (x : A) :
  In x (slice lo hi l) -> In x l.
Proof. unfold slice. intros H. now apply upto_subset, from_subset in H. Qed.

Lemma concat_map_subset (f : list Z -> list Z) (a : Array2) (v : Z) :
  (forall row x, In x (f row) -> In x row) ->
  In v (concat (map f a)) -> In v (concat a).
Proof.
  intros Hf H. apply in_concat in H as (row' & Hrow & Hv).
  apply in_map_iff in Hrow as (row & <- & Hrow).
  apply in_concat. exists row. split; [exact Hrow|now apply Hf].
Qed.

Lemma concat_subset (a b : Array2) (v : Z) :
  (forall row, In row a -> In row b) ->
  In v (concat a) -> In v (concat b).
Proof.
  intros Hab H. apply in_concat in H as (row & Hrow & Hv).
  apply in_concat. exists row. split; [now apply Hab|exact Hv].
Qed.

Lemma crop_subset (y1 y2 x1 x2 : Z) (a : Array2) (v : Z) :
  In v (concat (crop y1 y2 x1 x2 a)) -> In v (concat a).
Proof.
  unfold crop. intros H.
  apply concat_map_subset in H; [|intros row x; apply slice_subset].
  revert H. apply concat_subset. intros row. apply slice_subset.
Qed.

Lemma uint8_selection (image : Array2) (pixels : list Z) :
  Props.uint8_array image ->
  (forall v, In v pixels -> In v (concat image)) ->
  Forall (fun v => (0 <= v <= 255)%Z) pixels.
Proof.
  intros Hu Hsub. apply uint8_concat in Hu.
  rewrite Forall_forall in *. intros v Hv. apply Hu, Hsub, Hv.
Qed.

Lemma indexed_In {A : Type} (l : list A) (i : Z) (x : A) :
  In (i, x) (indexed l) -> In x l.
Proof. unfold indexed. apply in_combine_r. Qed.

Lemma entries_subset (image mask : Array2) (e : Z * Z * Z * Z) :
  In e (entries image mask) -> In (snd (fst e)) (concat image).
Proof.
  unfold entries. intros H. apply in_flat_map in H as ([y [row mrow]] & Hy & H).
  apply indexed_In in Hy. apply in_combine_l in Hy.
  apply in_map_iff in H as ([x [v m]] & <- & H).
  apply indexed_In in H. apply in_combine_l in H. cbn [fst snd].
  apply in_concat. exists row. cbn [fst snd] in *. tauto.
Qed.

Lemma length_eqb_nil {A : Type} (l : list A) :
  (length l =? 0)%nat = false -> l <> [].
Proof. destruct l; [discriminate|congruence]. Qed.

Lemma pixel_mean_range (image : Array2) (pixels : list Z) :
  Props.uint8_array image ->
  (forall v, In v pixels -> In v (concat image)) ->
  (length pixels =? 0)%nat = false ->
  0 <= pixel_mean pixels <= 255.
Proof.
  intros Hu Hsub Hl. apply length_eqb_nil in Hl.
  pose proof (pixel_mean_unit pixels Hl (uint8_selection image pixels Hu Hsub)).
  lra.
Qed.

(** The directional gradient of a patch of [uint8] pixels. *)
Lemma directional_gradient_unit (roi_image mask : Array2) :
  Props.uint8_array roi_image ->
  Spec.in_unit_interval (compute_directional_gradient roi_image mask).
Proof.
  intros Hu. unfold compute_directional_gradient.
  set (w2 := (width roi_image / 2)%Z). set (h2 := (height roi_image / 2)%Z).
  set (left_pixels := select (map (upto w2) roi_image) (map (upto w2) mask)).
  set (right_pixels := select (map (from w2) roi_image) (map (from w2) mask)).
  set (top_pixels := select (upto h2 roi_image) (upto h2 mask)).
  set (bottom_pixels := select (from h2 roi_image) (from h2 mask)).
  assert (Hleft : forall v, In v left_pixels -> In v (concat roi_image)).
  { intros v Hv. apply select_subset in Hv.
    revert Hv. apply concat_map_subset. intros row x. apply upto_subset. }
  assert (Hright : forall v, In v right_pixels -> In v (concat roi_image)).
  { intros v Hv. apply select_subset in Hv.
    revert Hv. apply concat_map_subset. intros row x. apply from_subset. }
  assert (Htop : forall v, In v top_pixels -> In v (concat roi_image)).
  { intros v Hv. apply select_subset in Hv.
    revert Hv. apply concat_subset. intros row. apply upto_subset. }
  assert (Hbottom : forall v, In v bottom_pixels -> In v (concat roi_image)).
  { intros v Hv. apply select_subset in Hv.
    revert Hv. apply concat_subset. intros row. apply from_subset. }
  destruct (length left_pixels =? 0)%nat eqn:Hl; [simpl; lra|].
  destruct (length right_pixels =? 0)%nat eqn:Hr; [simpl; lra|].
  cbn [orb Spec.in_unit_interval].
  pose proof (pixel_mean_range roi_image _ Hu Hleft Hl) as Hml.
  pose proof (pixel_mean_range roi_image _ Hu Hright Hr) as Hmr.
  assert (Hh : 0 <= Rabs (pixel_mean left_pixels - pixel_mean right_pixels) / 255
               <= 1).
  { pose proof (Rabs_pos (pixel_mean left_pixels - pixel_mean right_pixels)).
    assert (Rabs (pixel_mean left_pixels - pixel_mean right_pixels) <= 255)
      by (apply Rabs_le; lra).
    lra. }
  assert (Hv : 0 <= (if (length top_pixels =? 0)%nat
                        || (length bottom_pixels =? 0)%nat
                     then 0
                     else Rabs (pixel_mean top_pixels
                                - pixel_mean bottom_pixels) / 255) <= 1).
  { destruct (length top_pixels =? 0)%nat eqn:Ht; [simpl; lra|].
    destruct (length bottom_pixels =? 0)%nat eqn:Hb; [simpl; lra|].
    cbn [orb].
    pose proof (pixel_mean_range roi_image _ Hu Htop Ht) as Hmt.
    pose proof (pixel_mean_range roi_image _ Hu Hbottom Hb) as Hmb.
    pose proof (Rabs_pos (pixel_mean top_pixels - pixel_mean bottom_pixels)).
    assert (Rabs (pixel_mean top_pixels - pixel_mean bottom_pixels) <= 255)
      by (apply Rabs_le; lra).
    lra. }
  unfold py_max_R.
  match goal with |- context [Rlt_dec ?a ?b] => destruct (Rlt_dec a b) end; lra.
Qed.

(** X25.  On a patch of [uint8] pixels the central brightness, the ring
    brightness and the directional gradient are numbers in [[0, 1]],
    whatever the mask and the fractions are. *)
Theorem brightness_in_unit_interval (roi_image mask : Array2)
    (radius_fraction inner_fraction outer_fraction : R) :
  Props.uint8_array roi_image ->
  Spec.in_unit_interval
    (compute_central_brightness roi_image mask radius_fraction)
  /\ Spec.in_unit_interval
       (compute_ring_brightness roi_image mask inner_fraction outer_fraction)
  /\ Spec.in_unit_interval (compute_directional_gradient roi_image mask).
Proof.
  intros Hu. split; [|split; [|now apply directional_gradient_unit]].
  - unfold compute_central_brightness.
    destruct (_ =? 0)%Z; [simpl; lra|].
    match goal with |- context [(length ?l =? 0)%nat] =>
      destruct (length l =? 0)%nat eqn:Hl; [simpl; lra|];
      apply length_eqb_nil in Hl; cbn [Spec.in_unit_interval];
      apply (pixel_mean_unit l Hl)
    end.
    apply (uint8_selection roi_image); [exact Hu|].
    intros v Hv. cbv zeta in Hv. eapply select_subset, crop_subset in Hv. exact Hv.
  - unfold compute_ring_brightness.
    match goal with |- context [(length ?l =? 0)%nat] =>
      destruct (length l =? 0)%nat eqn:Hl; [simpl; lra|];
      apply length_eqb_nil in Hl; cbn [Spec.in_unit_interval];
      apply (pixel_mean_unit l Hl)
    end.
    apply (uint8_selection roi_image); [exact Hu|].
    intros v Hv. apply in_map_iff in Hv as (e & <- & He).
    apply filter_In in He as [He _]. eapply entries_subset. exact He.
Qed.

Lemma sum_map_le (f g : R -> R) (l : list R) :
  (forall x, In x l -> f x <= g x) -> sum (map f l) <= sum (map g l).
Proof.
  induction l as [|x l IH]; intros H; [simpl; lra|].
  cbn [map]. change (f x + sum (map f l) <= g x + sum (map g l)).
  specialize (IH (fun y Hy => H y (or_intror Hy))).
  specialize (H x (or_introl eq_refl)). lra.
Qed.

Lemma sum_map_affine (a b : R) (l : list R) :
  sum (map (fun x => a + b * x) l) = INR (length l) * a + b * sum l.
Proof.
  induction l as [|x l IH]; [simpl; lra|].
  cbn [map]. change (sum ((a + b * x) :: map (fun x => a + b * x) l))
    with (a + b * x + sum (map (fun x => a + b * x) l)).
  change (sum (x :: l)) with (x + sum l).
  change (length (x :: l)) with (S (length l)). rewrite IH, S_INR. lra.
Qed.

(** The standard deviation of values in [[0, 255]] is at most 127.5. *)
Lemma std_uint8_bound (l : list R) :
  l <> [] -> Forall (fun x => 0 <= x <= 255) l -> 0 <= std l <= 127.5.
Proof.
  intros Hne H. split; [apply sqrt_pos|].
  assert (Hn : 0 < INR (length l)).
  { apply lt_0_INR. destruct l; [congruence|simpl; lia]. }
  pose proof (mean_bounds 0 255 l Hne H) as Hm.
  set (m := mean l) in *.
  assert (Hs : sum l = INR (length l) * m).
  { unfold m, mean. field. lra. }
  assert (Hv : mean (map (fun x => (x - m) * (x - m)) l) <= 127.5 * 127.5).
  { unfold mean at 1. rewrite length_map.
    apply Rmult_le_reg_r with (INR (length l)); [exact Hn|].
    unfold Rdiv. rewrite Rmult_assoc, Rinv_l, Rmult_1_r by lra.
    eapply Rle_trans.
    - apply (sum_map_le _ (fun x => m * m + (255 - 2 * m) * x)).
      intros x Hx. rewrite Forall_forall in H.
      destruct (H x Hx) as [H0 H1].
      assert (Hp : 0 <= x * (255 - x)) by (apply Rmult_le_pos; lra).
      nra.
    - rewrite sum_map_affine, Hs.
      assert (Hq : m * (255 - m) <= 127.5 * 127.5)
        by (pose proof (Rle_0_sqr (m - 127.5)) as Hsq; unfold Rsqr in Hsq; nra).
      assert (Hq' : INR (length l) * (m * (255 - m))
                    <= INR (length l) * (127.5 * 127.5))
        by (apply Rmult_le_compat_l; lra).
      nra. }
  unfold std. fold m.
  replace 127.5 with (sqrt (127.5 * 127.5)) by (apply sqrt_square; lra).
  apply sqrt_le_1_alt. exact Hv.
Qed.

Lemma Forall_eq_repeat {A : Type} (c : A) (l : list A) :
  Forall (eq c) l -> l = repeat c (length l).
Proof.
  induction 1 as [|x l Hx _ IH]; [reflexivity|].
  cbn [length repeat]. now rewrite <- Hx, <- IH.
Qed.

(** X26.  The brightness uniformity of a patch of [uint8] pixels is in
    [[0, 1]]; it is 1 when all pixels under the mask have the same value,
    and at least 1/256 whenever the mask selects a pixel, so that 0.0 is
    returned only for an empty selection. *)
Theorem uniformity_range (roi_image mask : Array2) :
  Props.uint8_array roi_image ->
  let uniformity := compute_brightness_uniformity roi_image mask in
  Spec.in_unit_interval uniformity
  /\ (select roi_image mask <> [] ->
      exists u, uniformity = Fin u /\ 1 / 256 <= u)
  /\ (forall c, select roi_image mask <> [] ->
        Forall (eq c) (select roi_image mask) -> uniformity = Fin 1).
Proof.
  intros Hu. cbv zeta. unfold compute_brightness_uniformity.
  destruct (length (select roi_image mask) =? 0)%nat eqn:Hl.
  - split; [simpl; lra|].
    apply Nat.eqb_eq, length_zero_iff_nil in Hl. split; intros; congruence.
  - assert (Hne : map IZR (select roi_image mask) <> []).
    { apply length_eqb_nil in Hl.
      destruct (select roi_image mask); [congruence|discriminate]. }
    assert (Hr : Forall (fun x => 0 <= x <= 255)
                        (map IZR (select roi_image mask))).
    { apply Forall_map.
      eapply Forall_impl;
        [|apply (uint8_selection roi_image _ Hu (select_subset _ _))].
      intros v [H0 H1]. apply IZR_le in H0, H1. lra. }
    pose proof (std_uint8_bound _ Hne Hr) as Hs.
    set (s := std (map IZR (select roi_image mask))) in *.
    assert (Hc : clip (Fin (s / 128)) 0 1 = Fin (s / 128)).
    { cbn [clip]. f_equal. unfold Rmax.
      destruct (Rle_dec (s / 128) 0); unfold Rmin; real_cases. }
    rewrite Hc. unfold sub. cbn [opp add Spec.in_unit_interval].
    split; [lra|]. split.
    + intros _. eexists. split; [reflexivity|]. lra.
    + intros c _ Hall. f_equal.
      assert (Hz : s = 0).
      { unfold s. rewrite (Forall_eq_repeat c _ Hall), map_repeat.
        apply std_repeat. apply length_eqb_nil in Hl.
        destruct (select roi_image mask); [congruence|simpl; lia]. }
      rewrite Hz. lra.
Qed.

(** X27.  [is_circular_diamond] is monotone: a patch accepted as circular
    stays accepted when its circularity or aspect ratio is raised or a
    threshold is lowered. *)
Theorem is_circular_monotone (circ circ' ar ar' : R) (roi_image mask : Array2)
    (ct ct' at_ at' : R) (verify : bool) :
  circ <= circ' -> ar <= ar' -> ct' <= ct -> at' <= at_ ->
  is_circular_diamond circ ar roi_image mask ct at_ verify = true ->
  is_circular_diamond circ' ar' roi_image mask ct' at' verify = true.
Proof.
  intros Hc Ha Hct Hat. unfold is_circular_diamond.
  destruct (Rlt_dec circ ct); [discriminate|].
  destruct (Rlt_dec ar at_); [discriminate|].
  destruct (Rlt_dec circ' ct'); [lra|].
  destruct (Rlt_dec ar' at'); [lra|].
  destruct verify; [|reflexivity].
  destruct (ltb _ _); [reflexivity|].
  real_cases; cbn [andb]; congruence.
Qed.



(** Sums of scores. *)
Lemma fold_add_nan (l : list npfloat) : fold_left add l NaN = NaN.
Proof. induction l as [|x l IH]; [reflexivity|]. cbn [fold_left add]. exact IH. Qed.

Lemma fold_add_bounds (lo hi : R) (l : list npfloat) :
  Forall (fun x => exists v, x = Fin v /\ lo < v <= hi) l ->
  forall acc, exists s,
    fold_left add l (Fin acc) = Fin s
    /\ acc + lo * INR (length l) <= s <= acc + hi * INR (length l)
    /\ (l <> [] -> acc + lo * INR (length l) < s).
Proof.
  induction 1 as [|x l (v & -> & Hv) _ IH]; intros acc.
  - exists acc. simpl. split; [reflexivity|]. split; [lra|congruence].
  - cbn [fold_left add]. destruct (IH (acc + v)) as (s & Hs & Hb & _).
    exists s. split; [exact Hs|].
    change (length (Fin v :: l)) with (S (length l)). rewrite S_INR.
    split; [lra|]. intros _. lra.
Qed.

Lemma fold_add_nan_or_bounds (l : list npfloat) :
  Forall (fun x => x = NaN \/ Spec.in_unit_interval x) l ->
  forall acc,
    fold_left add l (Fin acc) = NaN
    \/ exists s, fold_left add l (Fin acc) = Fin s
                 /\ acc <= s <= acc + INR (length l).
Proof.
  induction 1 as [|x l Hx _ IH]; intros acc.
  - right. exists acc. simpl. split; [reflexivity|lra].
  - destruct Hx as [->|Hx].
    + left. cbn [fold_left add]. apply fold_add_nan.
    + destruct x as [v| | |]; try contradiction. cbn in Hx.
      cbn [fold_left add]. destruct (IH (acc + v)) as [Hn|(s & Hs & Hb)];
        [now left|].
      right. exists s. split; [exact Hs|].
      change (length (Fin v :: l)) with (S (length l)). rewrite S_INR. lra.
Qed.

Lemma multi_axis_fold (halves : R -> list R * list R) (angles : list R) :
  forall scores k,
    fold_left (fun (st : list npfloat * nat) angle =>
                 let '(symmetry_scores, num_symmetric) := st in
                 let symmetry :=
                   compute_mirror_symmetry (fst (halves angle))
                                           (snd (halves angle)) in
                 ((symmetry_scores ++ [symmetry])%list,
                  if ltb (Fin 0.75) symmetry
                  then (num_symmetric + 1)%nat else num_symmetric))
              angles (scores, k)
    = ((scores
        ++ map (fun a => compute_mirror_symmetry (fst (halves a))
                           (snd (halves a))) angles)%list,
       (k + length (filter (fun a => ltb (Fin 0.75)
                                       (compute_mirror_symmetry
                                          (fst (halves a)) (snd (halves a))))
                           angles))%nat).
Proof.
  induction angles as [|a angles IH]; intros scores k.
  - cbn. now rewrite app_nil_r, Nat.add_0_r.
  - cbn [fold_left map filter]. rewrite IH. rewrite <- app_assoc. cbn [app].
    f_equal. destruct (ltb _ _); cbn [length]; lia.
Qed.

Lemma filter_all {A : Type} (p : A -> bool) (l : list A) :
  length (filter p l) = length l -> Forall (fun x => p x = true) l.
Proof.
  induction l as [|x l IH]; intros H; [constructor|].
  cbn [filter] in H. pose proof (filter_length_le p l) as Hle.
  destruct (p x) eqn:Hp; cbn [length] in H; [|lia].
  constructor; [exact Hp|apply IH; lia].
Qed.

(** X28.  [compute_multi_axis_symmetry] counts at most [num_angles]
    symmetric axes; its average is [nan] or a number in [[0, 1]], [nan]
    for no angle at all, and above 0.75 when every axis counts as
    symmetric. *)
Theorem multi_axis_symmetry_spec (halves : R -> list R * list R)
    (num_angles : nat) :
  let '(avg_symmetry, num_symmetric) :=
    compute_multi_axis_symmetry halves num_angles in
  (num_symmetric <= num_angles)%nat
  /\ (avg_symmetry = NaN \/ Spec.in_unit_interval avg_symmetry)
  /\ (num_angles = 0%nat -> avg_symmetry = NaN)
  /\ ((0 < num_angles)%nat -> num_symmetric = num_angles ->
      exists v, avg_symmetry = Fin v /\ 0.75 < v <= 1).
Proof.
  unfold compute_multi_axis_symmetry. rewrite multi_axis_fold.
  cbn [app Nat.add].
  set (angles := map (fun i => INR i * 180 / INR num_angles) (seq 0 num_angles)).
  set (score := fun a => compute_mirror_symmetry (fst (halves a))
                           (snd (halves a))).
  assert (Hlen : length angles = num_angles)
    by (unfold angles; now rewrite length_map, length_seq).
  assert (Hrange : Forall (fun x => x = NaN \/ Spec.in_unit_interval x)
                          (map score angles)).
  { apply Forall_map, Forall_forall. intros a _. apply mirror_symmetry_range. }
  unfold np_mean. rewrite length_map, Hlen.
  split; [rewrite <- Hlen; apply filter_length_le|]. split; [|split].
  - destruct (fold_add_nan_or_bounds _ Hrange 0) as [->|(s & -> & Hs)];
      [now left|].
    rewrite length_map, Hlen in Hs.
    destruct num_angles as [|n].
    + left. assert (Hz : s = 0) by (simpl in Hs; lra). subst s.
      cbn [INR div]. rewrite Rsign_zero. reflexivity.
    + right. assert (Hn : 0 < INR (S n)) by (apply lt_0_INR; lia).
      cbn [div]. rewrite (Rsign_pos _ Hn). cbn [Spec.in_unit_interval].
      split.
      * apply Rmult_le_pos; [lra|]. left. now apply Rinv_0_lt_compat.
      * apply Rmult_le_reg_r with (INR (S n)); [exact Hn|].
        unfold Rdiv. rewrite Rmult_assoc, Rinv_l by lra. lra.
  - intros ->. destruct angles; [|discriminate]. cbn.
    rewrite Rsign_zero. reflexivity.
  - intros Hpos Hall. rewrite <- Hlen in Hall. apply filter_all in Hall.
    assert (Hhigh : Forall (fun x => exists v, x = Fin v /\ 0.75 < v <= 1)
                           (map score angles)).
    { apply Forall_map, Forall_forall. intros a Ha.
      rewrite Forall_forall in Hall. specialize (Hall a Ha).
      fold (score a) in Hall.
      destruct (mirror_symmetry_range (fst (halves a)) (snd (halves a)))
        as [Hn|Hu]; fold (score a) in Hn || fold (score a) in Hu.
      - rewrite Hn in Hall. discriminate.
      - destruct (score a) as [v| | |]; try contradiction.
        cbn in Hu, Hall. exists v. split; [reflexivity|].
        destruct (Rlt_dec 0.75 v); [lra|discriminate]. }
    destruct (fold_add_bounds 0.75 1 _ Hhigh 0) as (s & -> & Hs & Hstrict).
    rewrite length_map, Hlen in Hs, Hstrict.
    assert (Hn : 0 < INR num_angles) by (apply lt_0_INR; exact Hpos).
    assert (Hne : map score angles <> []).
    { destruct angles; [simpl in Hlen; lia|discriminate]. }
    specialize (Hstrict Hne).
    cbn [div]. rewrite (Rsign_pos _ Hn).
    exists (s / INR num_angles). split; [reflexivity|]. split.
    + apply Rmult_lt_reg_r with (INR num_angles); [exact Hn|].
      unfold Rdiv. rewrite Rmult_assoc, Rinv_l by lra. lra.
    + apply Rmult_le_reg_r with (INR num_angles); [exact Hn|].
      unfold Rdiv. rewrite Rmult_assoc, Rinv_l by lra. lra.
Qed.

Lemma patch_is_uint8 : Props.uint8_array Examples.patch.
Proof.
  unfold Props.uint8_array, Examples.patch.
  repeat (apply Forall_cons || apply Forall_nil); lia.
Defined.

Lemma brightness_in_unit_interval_witness :
  Spec.in_unit_interval
    (compute_central_brightness Examples.patch Examples.patch_mask 0.25)
  /\ Spec.in_unit_interval
       (compute_ring_brightness Examples.patch Examples.patch_mask 0.25 0.50)
  /\ Spec.in_unit_interval
       (compute_directional_gradient Examples.patch Examples.patch_mask).
Proof.
  apply (brightness_in_unit_interval Examples.patch Examples.patch_mask
           0.25 0.25 0.50).
  exact patch_is_uint8.
Defined.

Lemma uniformity_range_witness :
  let uniformity :=
    compute_brightness_uniformity Examples.patch Examples.patch_mask in
  Spec.in_unit_interval uniformity
  /\ (select Examples.patch Examples.patch_mask <> [] ->
      exists u, uniformity = Fin u /\ 1 / 256 <= u)
  /\ (forall c, select Examples.patch Examples.patch_mask <> [] ->
        Forall (eq c) (select Examples.patch Examples.patch_mask) ->
        uniformity = Fin 1).
Proof.
  apply (uniformity_range Examples.patch Examples.patch_mask).
  exact patch_is_uint8.
Defined.

Lemma is_circular_monotone_witness :
  is_circular_diamond 0.97 0.96 Examples.patch Examples.patch_mask
    0.75 0.85 true = true.
Proof.
  apply (is_circular_monotone 0.95 0.97 0.95 0.96 Examples.patch
           Examples.patch_mask 0.85 0.75 0.85 0.85 true); try lra.
  unfold is_circular_diamond.
  destruct (Rlt_dec 0.95 0.85); [lra|].
  destruct (ltb _ _); [reflexivity|].
  destruct (Rgt_dec 0.95 0.92); [reflexivity|lra].
Defined.









End SymmetryMore.

(** ** The counts of an image result *)

Section CoreMore.
Import NP Grader Core.
Local Open Scope R_scope.

(** The classification loop counts the two predictions and updates every
    region. *)
Lemma classify_fold (predict : DiamondROI -> Z) (rois : list DiamondROI) :
  forall t k updated,
    fold_left (classify_step predict) rois (t, k, updated)
    = ((t + length (filter (fun r => (predict r =? 1)%Z) rois))%nat,
       (k + length (filter (fun r => negb (predict r =? 1)%Z) rois))%nat,
       (updated
        ++ map (fun r => set_orientation r
                           (if (predict r =? 1)%Z then "table" else "tilted")%string)
               rois)%list).
Proof.
  induction rois as [|r rois IH]; intros t k updated.
  - cbn. now rewrite !Nat.add_0_r, app_nil_r.
  - cbn [fold_left map filter]. unfold classify_step at 2.
    destruct (predict r =? 1)%Z; cbn [String.eqb Ascii.eqb Bool.eqb negb];
      rewrite IH, <- app_assoc; cbn [app length]; do 2 f_equal; lia.
Qed.

(** The ungraded regions are those the grader skips. *)
Lemma not_gradable_count (g : PickupGrader) (rois l : list DiamondROI) :
  length (filter is_not_gradable (map (grade_roi g rois) l))
  = length (filter (fun r => (check_orientation g
                              && String.eqb (orientation r) "tilted")%bool) l).
Proof.
  induction l as [|r l IH]; [reflexivity|].
  cbn [map filter].
  pose proof (graded_one_category g rois r) as H. cbv zeta in H.
  destruct (check_orientation g && String.eqb (orientation r) "tilted")%bool;
    destruct H as [(_ & _ & -> & Hsk)|[(_ & _ & -> & Hsk)|(_ & _ & -> & Hsk)]];
    try discriminate; cbn [length]; now rewrite IH.
Qed.

(** X30.  The counts of an [ImageResult] are consistent: every detected
    region is counted as "table" or as "tilted", and, the grader checking
    orientations, the pickable and the invalid regions together are
    exactly the "table" ones. *)
Theorem image_result_counts (predict : DiamondROI -> Z) (g : PickupGrader)
    (rois : list DiamondROI) :
  check_orientation g = true ->
  let result := classify_image predict g rois in
  total_diamonds result = length rois
  /\ (table_count result + tilted_count result = total_diamonds result)%nat
  /\ (pickable_count result + invalid_count result = table_count result)%nat.
Proof.
  intros Hco. cbv zeta. unfold classify_image.
  destruct (Nat.eqb_spec (length rois) 0) as [Hz|Hnz].
  - cbn. rewrite Hz. repeat split; reflexivity.
  - rewrite classify_fold. cbn [app Nat.add].
    set (upd := fun r => set_orientation r
                           (if (predict r =? 1)%Z then "table" else "tilted")%string).
    set (rois' := map upd rois).
    unfold grade_summary. cbn [total_diamonds table_count tilted_count
                                 pickable_count invalid_count].
    assert (Hlen : length rois' = length rois) by apply length_map.
    assert (Hsplit : (length (filter (fun r => (predict r =? 1)%Z) rois)
                      + length (filter (fun r => negb (predict r =? 1)%Z) rois)
                      = length rois)%nat).
    { clear. induction rois as [|r rois IH]; [reflexivity|].
      cbn [filter]. destruct (predict r =? 1)%Z; cbn [negb length]; lia. }
    split; [exact Hlen|]. split; [lia|].
    rewrite grade_diamonds_map.
    assert (H3 : (length (filter is_pickable (map (grade_roi g rois') rois'))
                  + length (filter is_invalid (map (grade_roi g rois') rois'))
                  + length (filter is_not_gradable
                              (map (grade_roi g rois') rois'))
                  = length (map (grade_roi g rois') rois'))%nat).
    { apply filter_length_sum3. intros gd Hin.
      apply in_map_iff in Hin as (r & <- & _).
      pose proof (graded_one_category g rois' r) as H. cbv zeta in H. tauto. }
    rewrite not_gradable_count, length_map, Hlen in H3.
    assert (Ht : length (filter (fun r => (check_orientation g
                                 && String.eqb (orientation r) "tilted")%bool)
                                rois')
                 = length (filter (fun r => negb (predict r =? 1)%Z) rois)).
    { unfold rois'. rewrite Hco. clear.
      induction rois as [|r rois IH]; [reflexivity|].
      cbn [map filter]. unfold upd at 1. cbn [orientation set_orientation andb].
      cbn [andb] in IH.
      destruct (predict r =? 1)%Z; cbn [String.eqb Ascii.eqb Bool.eqb negb length];
        now rewrite IH. }
    lia.
Qed.

Lemma image_result_counts_witness :
  let result :=
    classify_image (fun r => id r) Examples.grader_10px
      [Examples.regionA; Examples.regionB; Examples.regionT] in
  total_diamonds result = 3%nat
  /\ (table_count result + tilted_count result = total_diamonds result)%nat
  /\ (pickable_count result + invalid_count result = table_count result)%nat.
Proof.
  apply (image_result_counts (fun r => id r) Examples.grader_10px
           [Examples.regionA; Examples.regionB; Examples.regionT]).
  reflexivity.
Defined.

End CoreMore.
